(** * Epsteindb: text index and search, checked against its specification

    Shallow embedding of the two Python modules of the repository,

    - [searchable_text_db_efficient.py] (class [TextSearchDatabase]: the batch
      indexer and the three command-line search operations), and
    - [text_search_webui.py] ([search_database], [view_image]),

    followed by the theorems that settle the claims C1..C10 of the
    specification.

    Conventions of the embedding.

    - A Python [str] is a list of characters.  Characters are the code points
      0..255 (the type [ascii] of the Standard Library read as Latin-1); the
      character predicates and the case mapping below are Python's on that
      range.
    - A Python [int] is a [Z]; [len] returns a [Z]; slices follow Python's
      rules for negative and out-of-range bounds.
    - A call that can raise returns an [outcome].
    - The file system, the SQLite engine and its FTS5 [MATCH] operator are not
      code of the repository: they are parameters ([env]) of the operations
      that use them. *)

From Stdlib Require Import Ascii String List ZArith Lia Bool Arith DecimalString.
From Equations Require Import Equations.
Import ListNotations.

Open Scope Z_scope.

(* ===================================================================== *)
(** * Python values: strings, slices, exceptions *)
(* ===================================================================== *)

Module Py.

Definition str : Type := list ascii.

(** String literals of the source. *)
Definition lit (s : string) : str := list_ascii_of_string s.

(** The double-quote character. *)
Definition dquote : ascii := "034"%char.

Definition len {A : Type} (s : list A) : Z := Z.of_nat (length s).

(** [s[lo:hi]]: a negative bound counts from the end, and both bounds are
    clamped to [0, len s]; [None] is an omitted bound. *)
Definition slice_index (n i : Z) : Z :=
  if i <? 0 then Z.max 0 (i + n) else Z.min i n.

Definition slice {A : Type} (s : list A) (lo hi : option Z) : list A :=
  let n := len s in
  let l := match lo with Some i => slice_index n i | None => 0 end in
  let h := match hi with Some i => slice_index n i | None => n end in
  firstn (Z.to_nat (h - l)) (skipn (Z.to_nat l) s).

(** Exceptions the modelled code can meet (all subclasses of [Exception]). *)
Inductive exn : Type :=
| ValueError
| TypeError
| OSError
| OverflowError
| UnicodeEncodeError
| OperationalError.

Inductive outcome (A : Type) : Type :=
| Returned (a : A)
| Raised (e : exn).
Arguments Returned {A} a.
Arguments Raised {A} e.

Definition bind {A B : Type} (m : outcome A) (k : A -> outcome B) : outcome B :=
  match m with
  | Returned a => k a
  | Raised e => Raised e
  end.

Notation "x <- m ;; k" := (bind m (fun x => k))
  (at level 61, m at next level, right associativity).

(** [[f(x) for x in xs]] where [f] can raise: the first exception aborts. *)
Fixpoint for_each {A B : Type} (f : A -> outcome B) (xs : list A)
  : outcome (list B) :=
  match xs with
  | [] => Returned []
  | x :: xs' =>
      y <- f x ;;
      ys <- for_each f xs' ;;
      Returned (y :: ys)
  end.

(** [try: body  except Exception: handler]. *)
Definition try_except {A : Type} (body : outcome A) (handler : exn -> outcome A)
  : outcome A :=
  match body with
  | Returned a => Returned a
  | Raised e => handler e
  end.

(** Character-wise prefix test, for a given comparison of a pattern
    character with a text character. *)
Fixpoint prefix_by (eqc : ascii -> ascii -> bool) (p s : str) : bool :=
  match p, s with
  | [], _ => true
  | _ :: _, [] => false
  | a :: p', b :: s' => eqc a b && prefix_by eqc p' s'
  end.

(** [s.startswith(p)]. *)
Definition startswith (s p : str) : bool := prefix_by Ascii.eqb p s.

(** [sub in s]. *)
Fixpoint contains (sub s : str) : bool :=
  startswith s sub ||
  match s with
  | [] => false
  | _ :: s' => contains sub s'
  end.

(** [s.replace(old, new)]: occurrences of [old] are replaced from left to
    right without overlap; an empty [old] matches before every character and
    at the end. *)
Equations? replace (old new s : str) : str by wf (length s) lt :=
  replace old new [] := if startswith [] old then new else [];
  replace old new (c :: s') with startswith (c :: s') old => {
    | false := c :: replace old new s';
    | true with old => {
        | [] := new ++ c :: replace old new s';
        | _ :: old' := new ++ replace old new (skipn (length old') s') } }.
Proof.
  all: simpl; try lia.
  rewrite length_skipn. lia.
Qed.

(** [str.isdigit] on one character: the decimal digits and, in the Latin-1
    range, the superscript digits U+00B2, U+00B3 and U+00B9. *)
Definition is_decimal_char (c : ascii) : bool :=
  let n := N_of_ascii c in ((48 <=? n) && (n <=? 57))%N.

Definition is_digit_char (c : ascii) : bool :=
  let n := N_of_ascii c in
  is_decimal_char c || (n =? 178)%N || (n =? 179)%N || (n =? 185)%N.

(** [s.isdigit()]: every character is a digit and there is at least one. *)
Definition isdigit (s : str) : bool :=
  match s with
  | [] => false
  | _ => forallb is_digit_char s
  end.

(** [int(s)] for a string of digit characters (the only strings the modelled
    code passes to [int]): the decimal value, or [ValueError] when a character
    is a digit that is not a decimal digit, or when the string has more than
    4300 digits (the limit [sys.int_info.default_max_str_digits] of
    Python 3.11 and later; leading zeros count). *)
Definition max_str_digits : Z := 4300.

Fixpoint int_digits (acc : Z) (s : str) : outcome Z :=
  match s with
  | [] => Returned acc
  | c :: s' =>
      if is_decimal_char c
      then int_digits (10 * acc + Z.of_N (N_of_ascii c - 48)) s'
      else Raised ValueError
  end.

Definition int (s : str) : outcome Z :=
  match s with
  | [] => Raised ValueError
  | _ => if max_str_digits <? len s then Raised ValueError else int_digits 0 s
  end.

(** Simple lower-case mapping of a code point in 0..255: A-Z, U+00C0-U+00D6
    and U+00D8-U+00DE move up by 32. *)
Definition lower (c : ascii) : ascii :=
  let n := N_of_ascii c in
  if ((65 <=? n) && (n <=? 90) || (192 <=? n) && (n <=? 214)
      || (216 <=? n) && (n <=? 222))%N
  then ascii_of_N (n + 32)
  else c.

(** [os.path.basename]: what follows the last slash. *)
Fixpoint basename_acc (acc s : str) : str :=
  match s with
  | [] => acc
  | c :: s' =>
      if Ascii.eqb c "/"%char then basename_acc [] s' else basename_acc (acc ++ [c]) s'
  end.

Definition basename (path : str) : str := basename_acc [] path.

End Py.

(* ===================================================================== *)
(** * The regular-expression calls of the web module *)
(* ===================================================================== *)

(** [re.escape(query)] turns every character of the query into a literal, so
    the compiled pattern is the query itself, read as a sequence of literal
    characters; [re.IGNORECASE] compares a literal with a text character
    through their lower-case forms. *)

Module Re.
Import Py.

Definition char_ieq (p t : ascii) : bool := Ascii.eqb (lower p) (lower t).

(** The pattern matches at the head of [s]. *)
Definition match_here (q s : str) : bool := prefix_by char_ieq q s.

(** [pattern.finditer(s)], as the list of [(m.start(), m.end())]: the scan
    goes from left to right and resumes at the end of the previous match (one
    character further after an empty match). *)
Equations? finditer_from (q : str) (pos : nat) (s : str) : list (nat * nat)
  by wf (length s) lt :=
  finditer_from q pos [] := if match_here q [] then [(pos, pos)] else [];
  finditer_from q pos (c :: s') with match_here q (c :: s') => {
    | false := finditer_from q (S pos) s';
    | true with q => {
        | [] := (pos, pos) :: finditer_from [] (S pos) s';
        | a :: q' :=
            (pos, pos + length (a :: q'))%nat
              :: finditer_from (a :: q') (pos + length (a :: q'))%nat
                   (skipn (length q') s') } }.
Proof.
  all: simpl; try lia.
  rewrite length_skipn. lia.
Qed.

Definition finditer (q s : str) : list (nat * nat) := finditer_from q 0%nat s.

(** [re.sub(pattern, repl, s)] where [repl] receives the matched text (the
    template of the source is built around [\g<0>]). *)
Equations? sub (q : str) (repl : str -> str) (s : str) : str
  by wf (length s) lt :=
  sub q repl [] := if match_here q [] then repl [] else [];
  sub q repl (c :: s') with match_here q (c :: s') => {
    | false := c :: sub q repl s';
    | true with q => {
        | [] := repl [] ++ c :: sub [] repl s';
        | a :: q' :=
            repl (firstn (length (a :: q')) (c :: s'))
              ++ sub (a :: q') repl (skipn (length q') s') } }.
Proof.
  all: simpl; try lia.
  rewrite length_skipn. lia.
Qed.

End Re.

(* ===================================================================== *)
(** * The database and the outside world *)
(* ===================================================================== *)

Module Db.
Import Py.

(** A row of the table [text_files], without its [id]: the engine assigns the
    ids in insertion order, and a table is the list of its rows in that
    order.  The column [content] may be NULL. *)
Record row : Type := {
  filename : str;
  filepath : str;
  content : option str
}.

(** A row of the answer to [SELECT ... WHERE text_files_fts MATCH ? ORDER BY
    rank LIMIT ?]: the three columns and the engine's rank, a number the code
    only passes along (its type [R] is left open). *)
Record hit (R : Type) : Type := {
  h_row : row;
  h_rank : R
}.
Arguments h_row {R} h.
Arguments h_rank {R} h.

(** A connection as the indexer sees it: the committed rows, the rows
    inserted in the open transaction, and the number of commits so far. *)
Record conn : Type := {
  durable : list row;
  pending : list row;
  commits : nat
}.

(** Lines written by the indexer with [print]. *)
Inductive line : Type :=
| Indexing_from
| Found (total_files : Z)
| Indexed (j total_files : Z)
| Error_reading (file_path : str)
| Error_processing (file_path : str)
| Committed_batch (k n : Z)
| Indexing_complete (total_files : Z).

(** What the code reaches outside itself. *)
Record world (R : Type) : Type := {
  (** [open(path, 'r', encoding='utf-8', errors='ignore').read()]: the decoded
      text, or [None] when opening or reading raises. *)
  read_file : str -> option str;
  (** The answer of the engine to a full-text query with a limit; a query the
      engine cannot parse raises. *)
  fts_match : str -> Z -> outcome (list (hit R));
  (** Whether [INSERT INTO text_files] raises for this row. *)
  insert_raises : row -> bool;
  (** Whether [sqlite3.connect] raises. *)
  connect_raises : bool;
  (** [os.path.exists(p) and os.path.isfile(p)]. *)
  is_file : str -> bool;
  (** The exception [print] raises for this line of the indexer, if any:
      [UnicodeEncodeError] for a line that quotes a path which the encoding
      of the standard output cannot write, [BrokenPipeError] (an [OSError])
      when the output is closed. *)
  print_raises : line -> option exn;
  (** The exception [conn.commit()] raises on this connection, if any
      (database locked, disk full). *)
  commit_raises : conn -> option exn
}.
Arguments read_file {R} w path.
Arguments fts_match {R} w query limit.
Arguments insert_raises {R} w r.
Arguments connect_raises {R} w.
Arguments is_file {R} w path.
Arguments print_raises {R} w l.
Arguments commit_raises {R} w c.

Definition execute_insert (c : conn) (r : row) : conn :=
  {| durable := durable c; pending := pending c ++ [r]; commits := commits c |}.

Definition commit (c : conn) : conn :=
  {| durable := durable c ++ pending c; pending := []; commits := S (commits c) |}.

(** What a query on the same connection sees. *)
Definition visible (c : conn) : list row := durable c ++ pending c.

End Db.

(* ===================================================================== *)
(** * searchable_text_db_efficient.py *)
(* ===================================================================== *)

(** The lines the indexer prints are part of the model, and so is the
    failure of a [print] or of a commit.  The searches print only when a file
    cannot be loaded; that message is left out. *)

Module Cli.
Import Py Db.

(** The state threaded through the indexer: the connection and the lines
    printed so far. *)
Record state : Type := {
  conn_of : conn;
  stdout : list line
}.

Definition on_conn (f : conn -> conn) (st : state) : state :=
  {| conn_of := f (conn_of st); stdout := stdout st |}.

(** A Python value returned by a function of the module. *)
Inductive value : Type :=
| NoneV
| IntV (n : Z).

(** A piece of the indexer: from a state, the value it returns or the
    exception it raises, and the state it leaves. *)
Definition action (A : Type) : Type := state -> outcome A * state.

Definition ret {A : Type} (a : A) : action A := fun st => (Returned a, st).

(** A call that can raise and does not touch the state. *)
Definition lift {A : Type} (m : outcome A) : action A := fun st => (m, st).

Definition and_then {A B : Type} (m : action A) (k : A -> action B) : action B :=
  fun st =>
    match m st with
    | (Returned a, st') => k a st'
    | (Raised e, st') => (Raised e, st')
    end.

Notation "x <~ m ;; k" := (and_then m (fun x => k))
  (at level 61, m at next level, right associativity).

(** [try: body  except Exception as e: handler]: what [body] did to the
    state before it raised stays done. *)
Definition try_except {A : Type} (body : action A) (handler : exn -> action A)
  : action A :=
  fun st =>
    match body st with
    | (Returned a, st') => (Returned a, st')
    | (Raised e, st') => handler e st'
    end.

(** [for x in xs: body]: an exception that escapes [body] ends the loop. *)
Fixpoint for_each {A : Type} (body : A -> action unit) (xs : list A)
  : action unit :=
  match xs with
  | [] => ret tt
  | x :: xs' => _ <~ body x ;; for_each body xs'
  end.

(** What [f.read(n)] returns when it returns: at most [n] characters,
    everything when [n] is negative.  The sizes for which it raises are
    handled in [read_sample] below. *)
Definition read_upto (n : Z) (text : str) : str :=
  if n <? 0 then text else firstn (Z.to_nat n) text.

Section Operations.
Context {R : Type} (w : world R).

(** [print(...)]. *)
Definition print (l : line) : action unit :=
  fun st =>
    match print_raises w l with
    | Some e => (Raised e, st)
    | None => (Returned tt, {| conn_of := conn_of st; stdout := stdout st ++ [l] |})
    end.

(** [self.conn.execute("INSERT INTO text_files ...", ...)]. *)
Definition execute_insert (r : row) : action unit :=
  fun st =>
    if insert_raises w r then (Raised OperationalError, st)
    else (Returned tt, on_conn (fun c => Db.execute_insert c r) st).

(** [self.conn.commit()]. *)
Definition commit : action unit :=
  fun st =>
    match commit_raises w (conn_of st) with
    | Some e => (Raised e, st)
    | None => (Returned tt, on_conn Db.commit st)
    end.

(** What stands between [try:] and [except] in [_read_file_content_sample]:
    the file is opened and [f.read(sample_size)] is returned.  [f.read(n)]
    raises [OverflowError] when [n] does not fit a signed 64-bit integer. *)
Definition read_sample (file_path : str) (sample_size : Z) : outcome str :=
  match read_file w file_path with
  | None => Raised OSError
  | Some text =>
      if (sample_size <? - 2 ^ 63) || (2 ^ 63 - 1 <? sample_size)
      then Raised OverflowError
      else Returned (read_upto sample_size text)
  end.

(** [_read_file_content_sample]: when the read fails a message is printed
    and the empty string is returned; the [print] stands in the handler, so
    an exception it raises escapes. *)
Definition _read_file_content_sample (file_path : str) (sample_size : Z)
  : action str :=
  try_except (lift (read_sample file_path sample_size))
    (fun _ => _ <~ print (Error_reading file_path) ;; ret []).

(** The body of the inner loop of [index_text_files] for the [j]-th file:
    the [try] block and its handler, whose [print] is not guarded. *)
Definition index_file (total_files content_sample_size : Z) (jf : Z * str)
  : action unit :=
  let (j, file_path) := jf in
  try_except
    (content_sample <~
       _read_file_content_sample file_path content_sample_size ;;
     let r := {| filename := basename file_path; filepath := file_path;
                 content := Some content_sample |} in
     _ <~ execute_insert r ;;
     if (j mod 100 =? 0) || (j =? total_files)
     then print (Indexed j total_files)
     else ret tt)
    (fun _ => print (Error_processing file_path)).

(** [enumerate(batch, first)]. *)
Fixpoint enumerate {A : Type} (xs : list A) (first : Z) : list (Z * A) :=
  match xs with
  | [] => []
  | x :: xs' => (first, x) :: enumerate xs' (first + 1)
  end.

(** One round of the outer loop of [index_text_files]: the batch that starts
    at index [i], then the commit and the message, both outside every
    [try]. *)
Definition index_batch (txt_files : list str) (batch_size content_sample_size : Z)
  (i : Z) : action unit :=
  let total_files := len txt_files in
  let batch := slice txt_files (Some i) (Some (i + batch_size)) in
  _ <~ for_each (index_file total_files content_sample_size)
         (enumerate batch (i + 1)) ;;
  _ <~ commit ;;
  print (Committed_batch (i / batch_size + 1)
           ((total_files + batch_size - 1) / batch_size)).

End Operations.

(** [range(start, stop, step)]. *)
Equations? range_up (i stop step : Z) : list Z by wf (Z.to_nat (stop - i)) lt :=
  range_up i stop step with Z_lt_dec i stop, Z_lt_dec 0 step => {
    | left _, left _ := i :: range_up (i + step) stop step;
    | _, _ := [] }.
Proof. lia. Qed.

Equations? range_down (i stop step : Z) : list Z by wf (Z.to_nat (i - stop)) lt :=
  range_down i stop step with Z_lt_dec stop i, Z_lt_dec step 0 => {
    | left _, left _ := i :: range_down (i + step) stop step;
    | _, _ := [] }.
Proof. lia. Qed.

Definition range (start stop step : Z) : outcome (list Z) :=
  if step =? 0 then Raised ValueError
  else if 0 <? step then Returned (range_up start stop step)
  else Returned (range_down start stop step).

Section Operations.
Context {R : Type} (w : world R).

(** [index_text_files(text_directory, batch_size, content_sample_size)], where
    [txt_files] is what [glob.glob] lists under [text_directory].  The
    function has no [return] statement. *)
Definition index_text_files (txt_files : list str)
  (batch_size content_sample_size : Z) : action value :=
  _ <~ print w Indexing_from ;;
  let total_files := len txt_files in
  _ <~ print w (Found total_files) ;;
  starts <~ lift (range 0 total_files batch_size) ;;
  _ <~ for_each (index_batch w txt_files batch_size content_sample_size)
         starts ;;
  _ <~ print w (Indexing_complete total_files) ;;
  ret NoneV.

(** [count_files]: [SELECT COUNT( * ) FROM text_files]. *)
Definition count_files (st : state) : Z := len (visible (conn_of st)).

(** [load_full_content]. *)
Definition load_full_content (filepath : str) : str :=
  match read_file w filepath with
  | Some text => text
  | None => []
  end.

(** The tuples a search returns: filename, filepath, content, rank. *)
Definition full_results (results : list (hit R)) : list (str * str * str * R) :=
  map (fun h =>
         (filename (h_row h), filepath (h_row h),
          load_full_content (filepath (h_row h)), h_rank h))
      results.

(** The string [search] passes to [MATCH]. *)
Definition search_fts_query (query : str) : str :=
  if contains (lit " ") query
  then
    let escaped_query := replace [dquote] [dquote; dquote] query in
    let quoted_query := [dquote] ++ escaped_query ++ [dquote] in
    lit "content:" ++ quoted_query ++ lit " OR filename:" ++ quoted_query
  else lit "content:" ++ query ++ lit " OR filename:" ++ query.

Definition search (query : str) (limit : Z) : outcome (list (str * str * str * R)) :=
  results <- fts_match w (search_fts_query query) limit ;;
  Returned (full_results results).

(** The local [quoted_query] of [search_content_only] and
    [search_filename_only]. *)
Definition quoted_query (query : str) : str :=
  if contains (lit " ") query
  then
    let escaped_query := replace [dquote] [dquote; dquote] query in
    [dquote] ++ escaped_query ++ [dquote]
  else query.

Definition search_content_only_fts_query (query : str) : str :=
  lit "content:" ++ quoted_query query.

Definition search_content_only (query : str) (limit : Z)
  : outcome (list (str * str * str * R)) :=
  results <- fts_match w (search_content_only_fts_query query) limit ;;
  Returned (full_results results).

Definition search_filename_only_fts_query (query : str) : str :=
  lit "filename:" ++ quoted_query query.

Definition search_filename_only (query : str) (limit : Z)
  : outcome (list (str * str * str * R)) :=
  results <- fts_match w (search_filename_only_fts_query query) limit ;;
  Returned (full_results results).

End Operations.

End Cli.

(* ===================================================================== *)
(** * text_search_webui.py *)
(* ===================================================================== *)

(** The messages [search_database] writes to [sys.stderr] are left out. *)

Module Web.
Import Py Db.

Definition ellipsis : str := lit "...".

(** The replacement template of the two [re.sub] calls,
    [<span class="highlight">\g<0></span>], applied to the matched text. *)
Definition highlight_open : str :=
  lit "<span class=" ++ [dquote] ++ lit "highlight" ++ [dquote] ++ lit ">".

Definition highlight_close : str := lit "</span>".

Definition highlight (matched : str) : str :=
  highlight_open ++ matched ++ highlight_close.

(** The local [snippet] of [search_database], before highlighting: the window
    around the first match, or the head of the text when there is no match. *)
Definition snippet (query : str) (snippet_length : Z) (full_content : str) : str :=
  match Re.finditer query full_content with
  | (m_start, m_end) :: _ =>
      let start := Z.max 0 (Z.of_nat m_start - snippet_length) in
      let end_ := Z.min (len full_content) (Z.of_nat m_end + snippet_length) in
      let snippet := slice full_content (Some start) (Some end_) in
      let snippet := if 0 <? start then ellipsis ++ snippet else snippet in
      if end_ <? len full_content then snippet ++ ellipsis else snippet
  | [] =>
      let snippet := slice full_content None (Some (snippet_length * 2)) in
      if snippet_length * 2 <? len full_content
      then snippet ++ ellipsis
      else snippet
  end.

Definition highlighted_snippet (query : str) (snippet_length : Z)
  (full_content : str) : str :=
  Re.sub query highlight (snippet query snippet_length full_content).

Definition content_preview (full_content : str) : str :=
  slice full_content None (Some 1000)
    ++ (if 1000 <? len full_content then ellipsis else []).

(** One entry of the list [search_database] returns. *)
Record result (R : Type) : Type := {
  file_path : str;
  file_name : str;
  snippet_html : str;
  rank : R;
  preview : str
}.
Arguments file_path {R} r.
Arguments file_name {R} r.
Arguments snippet_html {R} r.
Arguments rank {R} r.
Arguments preview {R} r.

Inductive conn_event : Type :=
| Connect
| Close.

(** An HTTP answer of a route. *)
Inductive response : Type :=
| Status (code : Z) (body : str)
| Send_file (path : str).

Section Operations.
Context {R : Type} (w : world R).

(** The text the snippet is cut from: the file when it can be read, the
    column [content] of the row otherwise (a NULL column is Python's [None]). *)
Definition full_content_of (h : hit R) : option str :=
  match read_file w (filepath (h_row h)) with
  | Some text => Some text
  | None => content (h_row h)
  end.

(** The body of the loop over the rows; [pattern.finditer(None)] raises. *)
Definition row_result (query : str) (snippet_length : Z) (h : hit R)
  : outcome (result R) :=
  match full_content_of h with
  | None => Raised TypeError
  | Some full_content =>
      Returned {| file_path := filepath (h_row h);
                  file_name := filename (h_row h);
                  snippet_html := highlighted_snippet query snippet_length full_content;
                  rank := h_rank h;
                  preview := content_preview full_content |}
  end.

Definition quoted_query (query : str) : str :=
  if contains (lit " ") query
  then
    let escaped_query := replace [dquote] [dquote; dquote] query in
    [dquote] ++ escaped_query ++ [dquote]
  else query.

(** The string [search_database] passes to [MATCH]. *)
Definition fts_query (query search_type : str) : str :=
  let quoted_query := quoted_query query in
  if list_eq_dec ascii_dec search_type (lit "content")
  then lit "content:" ++ quoted_query
  else if list_eq_dec ascii_dec search_type (lit "filename")
  then lit "filename:" ++ quoted_query
  else if list_eq_dec ascii_dec search_type (lit "all")
  then lit "content:" ++ quoted_query ++ lit " OR filename:" ++ quoted_query
  else lit "content:" ++ quoted_query.

(** What stands between [try:] and [except] in [search_database]. *)
Definition search_database_body (query : str) (snippet_length : Z)
  (search_type : str) : outcome (list (result R)) :=
  rows <- fts_match w (fts_query query search_type) 10000 ;;
  for_each (row_result query snippet_length) rows.

(** [search_database]: the value returned or the exception that escapes, and
    what happened to the connection.  [sqlite3.connect] stands before the
    [try]; [conn.close()] is the [finally] clause. *)
Definition search_database (query : str) (snippet_length : Z) (search_type : str)
  : outcome (list (result R)) * list conn_event :=
  if connect_raises w then (Raised OperationalError, [])
  else
    let opened := [Connect] in
    let answer :=
      try_except (search_database_body query snippet_length search_type)
                 (fun _ => Returned []) in
    (answer, opened ++ [Close]).

(** [os.path.join(a, b)]. *)
Definition path_join (a b : str) : str :=
  if startswith b (lit "/") then b
  else
    match rev a with
    | [] => b
    | c :: _ => if Ascii.eqb c "/"%char then a ++ b else a ++ lit "/" ++ b
    end.

(** The first test of [view_image],
    [not dir_num.isdigit() or int(dir_num) < 1 or int(dir_num) > 12],
    evaluated from left to right. *)
Definition invalid_directory (dir_num : str) : outcome bool :=
  if negb (isdigit dir_num) then Returned true
  else
    n <- int dir_num ;;
    if n <? 1 then Returned true
    else n' <- int dir_num ;; Returned (12 <? n').

(** [view_image]; an exception that escapes the view becomes a 500 answer of
    the framework. *)
Definition view_image (dir_num filename : str) : outcome response :=
  invalid <- invalid_directory dir_num ;;
  if invalid then Returned (Status 400 (lit "Invalid directory"))
  else if contains (lit "..") filename || startswith filename (lit "/")
  then Returned (Status 400 (lit "Invalid filename"))
  else
    let base_path := lit "/home/jon/Documents/Epstein dump nov 12/" ++ dir_num in
    let full_path := path_join base_path filename in
    if is_file w full_path
    then Returned (Send_file full_path)
    else Returned (Status 404 (lit "File not found")).

End Operations.

End Web.

(* ===================================================================== *)
(** * The vocabulary of the specification *)
(* ===================================================================== *)

Module Spec.
Import Py Db.

(** ** Query construction *)

(** The query contains a space character. *)
Definition has_space (query : str) : Prop := In " "%char query.

(** Every double-quote character doubled. *)
Definition double_quotes (query : str) : str :=
  flat_map (fun c => if Ascii.eqb c dquote then [dquote; dquote] else [c]) query.

(** The phrase form: quotes doubled, the whole between double quotes. *)
Definition phrase (query : str) : str := [dquote] ++ double_quotes query ++ [dquote].

(** [form] under the scope of the fields: the content, the file name, or
    both. *)
Definition in_content (form : str) : str := lit "content:" ++ form.

Definition in_filename (form : str) : str := lit "filename:" ++ form.

Definition in_both (form : str) : str :=
  lit "content:" ++ form ++ lit " OR filename:" ++ form.

(** In the world [w], the four operations called with [query] hand [form]
    to the engine, each under its scope: what an operation returns is what it
    makes of the answer of the engine to that string (with the limit of the
    call, 10000 in the web module), and the engine is asked nothing else.
    In the web module the scope follows the search type; a search type that
    is none of the three names is treated as "content". *)
Definition engine_receives {R : Type} (w : world R) (query form : str) : Prop :=
  (forall limit : Z,
     Cli.search w query limit
     = (results <- fts_match w (in_both form) limit ;;
        Returned (Cli.full_results w results))
     /\ Cli.search_content_only w query limit
        = (results <- fts_match w (in_content form) limit ;;
           Returned (Cli.full_results w results))
     /\ Cli.search_filename_only w query limit
        = (results <- fts_match w (in_filename form) limit ;;
           Returned (Cli.full_results w results)))
  /\ (forall (snippet_length : Z) (search_type : str),
        connect_raises w = false ->
        let scoped :=
          if list_eq_dec ascii_dec search_type (lit "filename")
          then in_filename form
          else if list_eq_dec ascii_dec search_type (lit "all")
          then in_both form
          else in_content form in
        Web.search_database w query snippet_length search_type
        = (try_except
             (rows <- fts_match w scoped 10000 ;;
              for_each (Web.row_result w query snippet_length) rows)
             (fun _ => Returned []),
           [Web.Connect; Web.Close])).

(** ** Occurrences of the query in a text *)

(** [m] is the query up to the case of its letters. *)
Definition ci_equal (query m : str) : Prop :=
  Forall2 (fun a b => lower a = lower b) query m.

(** The query occurs, as literal text and up to case, at position [i]. *)
Definition occurs_at (query text : str) (i : nat) : Prop :=
  exists pre m post,
    text = pre ++ m ++ post /\ length pre = i /\ ci_equal query m.

Definition first_occurrence (query text : str) (i : nat) : Prop :=
  occurs_at query text i /\ forall j, occurs_at query text j -> (i <= j)%nat.

(** In [out], the occurrence of the query at position [i] of [s] stands
    between the highlight markers, in its original casing; before it comes the
    highlighted form of what precedes it in [s], after it the highlighted form
    of what follows. *)
Definition wrapped (query s out : str) (i : nat) : Prop :=
  exists pre m post,
    s = pre ++ m ++ post /\ length pre = i /\ ci_equal query m /\
    out = Re.sub query Web.highlight pre ++ Web.highlight m
            ++ Re.sub query Web.highlight post.

(** ** Indexing *)

(** Ceiling of [n / b] for a positive [b]. *)
Definition ceil_div (n b : Z) : Z := (n + b - 1) / b.

(** No [print] of the indexer raises; no commit raises. *)
Definition prints_succeed {R : Type} (w : world R) : Prop :=
  forall l : line, print_raises w l = None.

Definition commits_succeed {R : Type} (w : world R) : Prop :=
  forall c : conn, commit_raises w c = None.

(** The row the indexer builds for a file: the sample is what the read
    returns, empty when the read raises. *)
Definition row_of {R : Type} (w : world R) (sample_size : Z) (path : str) : row :=
  {| filename := basename path;
     filepath := path;
     content := Some (match Cli.read_sample w path sample_size with
                      | Returned sample => sample
                      | Raised _ => []
                      end) |}.

(** A failure on a file that cannot be reported: the insertion of its row
    raises, or its read raises and the message of
    [_read_file_content_sample] cannot be printed; and the message of the
    handler of [index_text_files] cannot be printed either. *)
Definition unreportable {R : Type} (w : world R) (sample_size : Z) (path : str)
  : Prop :=
  print_raises w (Error_processing path) <> None
  /\ (insert_raises w (row_of w sample_size path) = true
      \/ ((forall sample,
             Cli.read_sample w path sample_size <> Returned sample)
          /\ print_raises w (Error_reading path) <> None)).

(** The rows a run adds for a list of files: one per file, in order, except
    for the files whose insertion raises. *)
Definition rows_of {R : Type} (w : world R) (sample_size : Z) (files : list str)
  : list row :=
  filter (fun r => negb (insert_raises w r)) (map (row_of w sample_size) files).

(** The lines [lines] report every failure met on the files [paths]: a
    file whose read raises, a row whose insertion raises. *)
Definition failures_logged {R : Type} (w : world R) (sample_size : Z)
  (paths : list str) (lines : list line) : Prop :=
  forall path, In path paths ->
    ((forall sample, Cli.read_sample w path sample_size <> Returned sample) ->
     In (Error_reading path) lines)
    /\ (insert_raises w (row_of w sample_size path) = true ->
        In (Error_processing path) lines).

(** A run of [index_text_files] cut after the [k]-th round of its outer
    loop, that is right after its [k]-th commit (and the message printed
    after it): whether it came that far, and the state it is in. *)
Definition first_rounds {R : Type} (w : world R) (txt_files : list str)
  (batch_size sample_size : Z) (k : nat) : Cli.action unit :=
  Cli.and_then (Cli.print w Indexing_from) (fun _ =>
  Cli.and_then (Cli.print w (Found (len txt_files))) (fun _ =>
  Cli.and_then (Cli.lift (Cli.range 0 (len txt_files) batch_size)) (fun starts =>
  Cli.for_each (Cli.index_batch w txt_files batch_size sample_size)
    (firstn k starts)))).

Definition after_commit {R : Type} (w : world R) (txt_files : list str)
  (batch_size sample_size : Z) (st : Cli.state) (k : nat) : Cli.state :=
  snd (first_rounds w txt_files batch_size sample_size k st).

(** ** Tests by evaluation *)

(** The query matches at none of the positions below [n]. *)
Definition no_match_before (q text : str) (n : nat) : bool :=
  forallb (fun j => negb (Re.match_here q (skipn j text))) (seq 0 n).

End Spec.

(* ===================================================================== *)
(** * A small corpus, used to evaluate the operations *)
(* ===================================================================== *)

Module Example.
Import Py Db.

Definition file_a : str := lit "/TEXT/001/a.txt".
Definition file_b : str := lit "/TEXT/001/b.txt".
Definition file_gone : str := lit "/TEXT/001/gone.txt".

Definition row_a : row :=
  {| filename := lit "a.txt"; filepath := file_a;
     content := Some (lit "Clinton flew to Paris") |}.

Definition row_b : row :=
  {| filename := lit "b.txt"; filepath := file_b;
     content := Some (lit "Paris is lovely") |}.

(** A row whose file has been removed since it was indexed. *)
Definition row_gone : row :=
  {| filename := lit "gone.txt"; filepath := file_gone;
     content := Some (lit "Paris in the spring") |}.

(** Two files can be read, every other path cannot.  The engine answers the
    query [content:Paris] with two rows and rejects every other query.  No
    insertion fails. *)
Definition world0 : world Z :=
  {| read_file := fun path =>
       if list_eq_dec ascii_dec path file_a
       then Some (lit "Clinton flew to Paris")
       else if list_eq_dec ascii_dec path file_b
       then Some (lit "Paris is lovely")
       else None;
     fts_match := fun query _ =>
       if list_eq_dec ascii_dec query (lit "content:Paris")
       then Returned [ {| h_row := row_a; h_rank := -2 |};
                       {| h_row := row_gone; h_rank := -1 |} ]
       else Raised OperationalError;
     insert_raises := fun _ => false;
     connect_raises := false;
     is_file := fun _ => false;
     print_raises := fun _ => None;
     commit_raises := fun _ => None |}.

(** The same, on a standard output that cannot write the path of
    [gone.txt]: a [print] that quotes it raises [UnicodeEncodeError]. *)
Definition world_strict_stdout : world Z :=
  {| read_file := read_file world0;
     fts_match := fts_match world0;
     insert_raises := insert_raises world0;
     connect_raises := connect_raises world0;
     is_file := is_file world0;
     print_raises := fun l =>
       match l with
       | Error_reading path | Error_processing path =>
           if list_eq_dec ascii_dec path file_gone
           then Some UnicodeEncodeError
           else None
       | _ => None
       end;
     commit_raises := fun _ => None |}.

(** A fresh database and an empty output. *)
Definition fresh : Cli.state :=
  {| Cli.conn_of := {| durable := []; pending := []; commits := 0 |};
     Cli.stdout := [] |}.

(** The character U+00B2, superscript two. *)
Definition superscript_two : ascii := "178"%char.

End Example.

(* ===================================================================== *)
(** * More of Python's strings *)
(* ===================================================================== *)

Module PyExt.
Import Py.

(** [str.isspace] on one character of the range 0..255: U+0009..U+000D,
    U+001C..U+0020, U+0085 and U+00A0. *)
Definition is_space (c : ascii) : bool :=
  let n := N_of_ascii c in
  ((9 <=? n) && (n <=? 13) || (28 <=? n) && (n <=? 32)
   || (n =? 133) || (n =? 160))%N.

(** [s.lstrip()], [s.rstrip()], [s.strip()]. *)
Fixpoint lstrip (s : str) : str :=
  match s with
  | [] => []
  | c :: s' => if is_space c then lstrip s' else s
  end.

Definition rstrip (s : str) : str := rev (lstrip (rev s)).

Definition strip (s : str) : str := rstrip (lstrip s).

(** [s.lower()]. *)
Definition lower_str (s : str) : str := map lower s.

(** [a == b] on strings. *)
Definition str_eqb (a b : str) : bool :=
  if list_eq_dec ascii_dec a b then true else false.

(** [x in l] for a list of strings. *)
Definition in_list (x : str) (l : list str) : bool := existsb (str_eqb x) l.

(** [s.endswith(suffix)]. *)
Definition endswith (s suffix : str) : bool := startswith (rev s) (rev suffix).

(** [s.split(' ', 1)]: the text before the first space and the text after
    it, or the whole string alone when it has no space. *)
Fixpoint cut_at_space (s : str) : option (str * str) :=
  match s with
  | [] => None
  | c :: s' =>
      if Ascii.eqb c " "%char then Some ([], s')
      else
        match cut_at_space s' with
        | Some (before, after) => Some (c :: before, after)
        | None => None
        end
  end.

Definition split_once (s : str) : list str :=
  match cut_at_space s with
  | Some (before, after) => [before; after]
  | None => [s]
  end.

(** [s.rfind(c)] for a character: the last index of [c], or -1. *)
Fixpoint rfind_from (c : ascii) (s : str) (i last : Z) : Z :=
  match s with
  | [] => last
  | x :: s' => rfind_from c s' (i + 1) (if Ascii.eqb x c then i else last)
  end.

Definition rfind (c : ascii) (s : str) : Z := rfind_from c s 0 (-1).

(** [os.path.splitext(p)]: the extension starts at the last dot, when that
    dot stands after the last slash and some character of the file name
    before it is not a dot. *)
Definition splitext (p : str) : str * str :=
  let sepIndex := rfind "/"%char p in
  let dotIndex := rfind "."%char p in
  if sepIndex <? dotIndex
  then
    if existsb (fun x => negb (Ascii.eqb x "."%char))
         (slice p (Some (sepIndex + 1)) (Some dotIndex))
    then (slice p None (Some dotIndex), slice p (Some dotIndex) None)
    else (p, [])
  else (p, []).

(** [str(i)]. *)
Definition str_of_int (i : Z) : str :=
  list_ascii_of_string (DecimalString.NilZero.string_of_int (Z.to_int i)).

(** [f"{i:03d}"]: the sign, then the digits padded with zeros to a total
    width of three. *)
Definition format_03d (i : Z) : str :=
  if i <? 0
  then
    let digits := str_of_int (- i) in
    "-"%char :: repeat "0"%char (2 - length digits) ++ digits
  else
    let digits := str_of_int i in
    repeat "0"%char (3 - length digits) ++ digits.

End PyExt.

(* ===================================================================== *)
(** * searchable_text_db_efficient.py: the interactive loop of [main] *)
(* ===================================================================== *)

Module Main.
Import Py PyExt Db.

(** What one round of the loop does, once [input] has returned a line. *)
Inductive reply (R : Type) : Type :=
| Break
| Continue_silently
| Usage
| Unknown_command (command : str)
| No_results
| Error (e : exn)
| Listing (query : str) (shown : list (str * str * str * R)).
Arguments Break {R}.
Arguments Continue_silently {R}.
Arguments Usage {R}.
Arguments Unknown_command {R} command.
Arguments No_results {R}.
Arguments Error {R} e.
Arguments Listing {R} query shown.

(** The preview printed for a result: [content[:500]], followed by "..."
    when the content is longer. *)
Definition content_preview (content : str) : str :=
  let preview := slice content None (Some 500) in
  if 500 <? len content then preview ++ lit "..." else preview.

Section Loop.
Context {R : Type} (w : world R).

(** The end of the [try] block, from [if not results] on; an exception raised
    by the search is caught by [except Exception] and printed. *)
Definition show (query : str) (results : outcome (list (str * str * str * R)))
  : reply R :=
  match results with
  | Raised e => Error e
  | Returned [] => No_results
  | Returned results =>
      Listing query
        (map (fun r =>
                match r with
                | (filename, filepath, content, rank) =>
                    (filename, filepath, content_preview content, rank)
                end)
             results)
  end.

(** The body of the [while True] loop, for the line [line] returned by
    [input]. *)
Definition command_step (line : str) : reply R :=
  let user_input := strip line in
  if in_list (lower_str user_input) [lit "quit"; lit "exit"; lit "q"]
  then Break
  else
    match user_input with
    | [] => Continue_silently
    | _ =>
        match split_once user_input with
        | [command_word; query] =>
            let command := lower_str command_word in
            if str_eqb command (lit "search")
            then show query (Cli.search_content_only w query 10000)
            else if str_eqb command (lit "content")
            then show query (Cli.search_content_only w query 10000)
            else if str_eqb command (lit "filename")
            then show query (Cli.search_filename_only w query 10000)
            else if str_eqb command (lit "all")
            then show query (Cli.search w query 10000)
            else Unknown_command command
        | _ => Usage
        end
    end.

End Loop.

End Main.

(* ===================================================================== *)
(** * text_search_webui.py: [view_file] and [find_corresponding_image] *)
(* ===================================================================== *)

Module Pages.
Import Py PyExt.

(** What the two functions ask of the file system, and
    [urllib.parse.unquote]. *)
Record site : Type := {
  (** [os.path.exists]. *)
  path_exists : str -> bool;
  (** [os.path.isdir]. *)
  path_isdir : str -> bool;
  (** [open(path, 'r', encoding='utf-8', errors='ignore').read()], [None]
      when it raises. *)
  file_text : str -> option str;
  unquote : str -> str
}.

Definition image_extensions : list str :=
  [lit ".jpg"; lit ".jpeg"; lit ".JPG"; lit ".JPEG"; lit ".png"; lit ".PNG";
   lit ".gif"; lit ".GIF"; lit ".tif"; lit ".tiff"; lit ".TIFF"; lit ".TIF"].

Definition base_dir : str := lit "/home/jon/Documents/Epstein dump nov 12".

(** [re.search(r'/TEXT/(\d{3})/', s)], as group 1 of the leftmost match. *)
Definition text_dir_here (s : str) : option str :=
  match s with
  | a :: b :: c :: d :: e :: f :: d1 :: d2 :: d3 :: g :: _ =>
      if str_eqb [a; b; c; d; e; f] (lit "/TEXT/")
         && is_decimal_char d1 && is_decimal_char d2 && is_decimal_char d3
         && Ascii.eqb g "/"%char
      then Some [d1; d2; d3]
      else None
  | _ => None
  end.

Fixpoint search_text_dir (s : str) : option str :=
  match text_dir_here s with
  | Some sub_dir => Some sub_dir
  | None =>
      match s with
      | [] => None
      | _ :: s' => search_text_dir s'
      end
  end.

(** [re.search(r'/(\d{3})/([^/]+)$', s)], as groups 1 and 2 of the leftmost
    match: a slash, three digits, a slash, and a non-empty rest without
    slash that runs to the end. *)
Definition dir_file_here (s : str) : option (str * str) :=
  match s with
  | a :: d1 :: d2 :: d3 :: b :: rest =>
      if Ascii.eqb a "/"%char
         && is_decimal_char d1 && is_decimal_char d2 && is_decimal_char d3
         && Ascii.eqb b "/"%char
         && negb (str_eqb rest []) && negb (existsb (Ascii.eqb "/"%char) rest)
      then Some ([d1; d2; d3], rest)
      else None
  | _ => None
  end.

Fixpoint search_dir_file (s : str) : option (str * str) :=
  match dir_file_here s with
  | Some groups => Some groups
  | None =>
      match s with
      | [] => None
      | _ :: s' => search_dir_file s'
      end
  end.

(** [for x in xs: ... return] : the first element that gives a result. *)
Fixpoint first_some {A B : Type} (f : A -> option B) (xs : list A) : option B :=
  match xs with
  | [] => None
  | x :: xs' =>
      match f x with
      | Some y => Some y
      | None => first_some f xs'
      end
  end.

Section Operations.
Variable disk : site.

(** The inner loop over the extensions, in a given directory. *)
Definition image_in (image_dir base_name : str) : option str :=
  find (path_exists disk)
       (map (fun ext => Web.path_join image_dir (base_name ++ ext))
            image_extensions).

Definition find_corresponding_image (txt_path : str) : option str :=
  let base_name := fst (splitext (basename txt_path)) in
  let in_matching_directory :=
    match search_text_dir txt_path with
    | Some sub_dir =>
        let image_dir := lit "/home/jon/Documents/Epstein dump nov 12/" ++ sub_dir in
        image_in image_dir base_name
    | None => None
    end in
  match in_matching_directory with
  | Some image_path => Some image_path
  | None =>
      first_some
        (fun i =>
           let dir_num := format_03d i in
           let image_dir := Web.path_join base_dir dir_num in
           if path_isdir disk image_dir
           then image_in image_dir base_name
           else None)
        (Cli.range_up 1 13 1)
  end.

(** The link to the image, as [view_file] builds it from the path of the
    image. *)
Definition image_url_of (image_path : str) : option str :=
  let filename := basename image_path in
  let dirs_with_numbers := map (fun i => lit "00" ++ str_of_int i) (Cli.range_up 1 13 1) in
  match find (fun dir_num => contains (lit "/" ++ dir_num ++ lit "/") image_path)
             dirs_with_numbers with
  | Some dir_num => Some (lit "/view_image/" ++ dir_num ++ lit "/" ++ filename)
  | None =>
      match search_dir_file image_path with
      | Some (dir_part, file_part) =>
          Some (lit "/view_image/" ++ dir_part ++ lit "/" ++ file_part)
      | None => None
      end
  end.

(** An answer of [view_file]. *)
Inductive page : Type :=
| Rendered (file_path content : str) (image_url : option str)
| Plain (code : Z) (body : str).

(** What [view_file] does with a path that exists and ends in [.txt]; the
    source has this block twice, for the path as given and for the decoded
    path.  An exception raised while reading becomes a 500 answer, whose
    body is given here without the text of the exception that follows it. *)
Definition render (path : str) : page :=
  match file_text disk path with
  | Some content =>
      let image_url :=
        match find_corresponding_image path with
        | Some image_path => image_url_of image_path
        | None => None
        end in
      Rendered path content image_url
  | None => Plain 500 (lit "Error reading file")
  end.

Definition view_file (file_path : str) : page :=
  let full_path :=
    if startswith file_path (lit "/") then file_path else lit "/" ++ file_path in
  if path_exists disk full_path && endswith full_path (lit ".txt")
  then render full_path
  else
    let decoded_path := unquote disk full_path in
    if path_exists disk decoded_path && endswith decoded_path (lit ".txt")
    then render decoded_path
    else Plain 404 (lit "File not found").

End Operations.

End Pages.

(* ===================================================================== *)
(** * Vocabulary of the further properties *)
(* ===================================================================== *)

Module Props.
Import Py PyExt Db.

(** Reading an escaped query back: two double quotes in a row stand for
    one. *)
Fixpoint undouble (s : str) : str :=
  match s with
  | [] => []
  | c :: rest =>
      match rest with
      | c' :: rest' =>
          if Ascii.eqb c dquote && Ascii.eqb c' dquote
          then dquote :: undouble rest'
          else c :: undouble rest
      | [] => [c]
      end
  end.

(** The words that end the interactive loop. *)
Definition quit_words : list str := [lit "quit"; lit "exit"; lit "q"].

(** What the interactive loop prints for an answer of the engine: the error,
    "No results found.", or one entry per row with the name, the path, the
    preview of the file as it is on disk (empty when it cannot be read) and
    the rank. *)
Definition answer {R : Type} (w : world R) (query : str)
  (rows : outcome (list (hit R))) : Main.reply R :=
  match rows with
  | Raised e => Main.Error e
  | Returned [] => Main.No_results
  | Returned hits =>
      Main.Listing query
        (map (fun h =>
                (filename (h_row h), filepath (h_row h),
                 Main.content_preview
                   (match read_file w (filepath (h_row h)) with
                    | Some text => text
                    | None => []
                    end),
                 h_rank h))
             hits)
  end.

(** The dispatch of the interactive loop on the command word, for a line
    already cut in two: which query goes to the engine, and what is printed
    for its answer. *)
Definition dispatch {R : Type} (w : world R) (command query : str)
  : Main.reply R :=
  if str_eqb command (lit "search") || str_eqb command (lit "content")
  then answer w query
         (fts_match w (lit "content:" ++ Cli.quoted_query query) 10000)
  else if str_eqb command (lit "filename")
  then answer w query
         (fts_match w (lit "filename:" ++ Cli.quoted_query query) 10000)
  else if str_eqb command (lit "all")
  then answer w query (fts_match w (Cli.search_fts_query query) 10000)
  else Main.Unknown_command command.

(** The path of the image [name] in the numbered directory [d]. *)
Definition image_path (d name : str) : str :=
  Pages.base_dir ++ lit "/" ++ d ++ lit "/" ++ name.

(** ** A site with one image, used to evaluate the routes *)

Definition photo : str := lit "/home/jon/Documents/Epstein dump nov 12/007/DOC1.jpg".

Definition photo_text : str := lit "/data/TEXT/007/DOC1.txt".

Definition world_photo : world Z :=
  {| read_file := fun _ => None;
     fts_match := fun _ _ => Returned [];
     insert_raises := fun _ => false;
     connect_raises := false;
     is_file := fun path => str_eqb path photo;
     print_raises := fun _ => None;
     commit_raises := fun _ => None |}.

Definition site_photo : Pages.site :=
  {| Pages.path_exists := fun path => str_eqb path photo || str_eqb path photo_text;
     Pages.path_isdir := fun _ => true;
     Pages.file_text := fun path =>
       if str_eqb path photo_text then Some (lit "Flight log") else None;
     Pages.unquote := fun path => path |}.

End Props.

(* ===================================================================== *)
(** * Strings: membership, replacement, slices *)
(* ===================================================================== *)

Section StringFacts.
Import Py.

Lemma startswith_single (c : ascii) (s : str) :
  startswith s [c] = match s with [] => false | b :: _ => Ascii.eqb c b end.
Proof.
  unfold startswith. destruct s as [|b s']; simpl; [reflexivity|].
  apply andb_true_r.
Qed.

Lemma contains_single (c : ascii) (s : str) :
  contains [c] s = true <-> In c s.
Proof.
  induction s as [|b s' IH]; simpl.
  - split; [discriminate | tauto].
  - rewrite startswith_single, orb_true_iff, IH, Ascii.eqb_eq.
    split; intros [H|H]; auto.
Qed.

Lemma replace_single (c : ascii) (new s : str) :
  replace [c] new s = flat_map (fun x => if Ascii.eqb x c then new else [x]) s.
Proof.
  induction s as [|b s' IH].
  - reflexivity.
  - rewrite replace_equation_2.
    pose proof (startswith_single c (b :: s')) as E.
    destruct (startswith (b :: s') [c]); simpl in *.
    + rewrite (Ascii.eqb_sym b c), <- E, IH. reflexivity.
    + rewrite (Ascii.eqb_sym b c), <- E, IH. reflexivity.
Qed.

Lemma slice_nonneg {A : Type} (s : list A) (lo hi : Z) :
  0 <= lo <= len s -> 0 <= hi ->
  slice s (Some lo) (Some hi)
  = firstn (Z.to_nat (Z.min hi (len s) - lo)) (skipn (Z.to_nat lo) s).
Proof.
  intros Hlo Hhi. unfold slice, slice_index.
  destruct (lo <? 0) eqn:E1; [lia|].
  destruct (hi <? 0) eqn:E2; [lia|].
  rewrite (Z.min_l lo) by lia. reflexivity.
Qed.

Lemma slice_head {A : Type} (s : list A) (hi : Z) :
  0 <= hi -> slice s None (Some hi) = firstn (Z.to_nat hi) s.
Proof.
  intros Hhi. unfold slice, slice_index.
  destruct (hi <? 0) eqn:E; [lia|].
  simpl skipn. rewrite Z.sub_0_r.
  destruct (Z.le_ge_cases hi (len s)) as [H|H].
  - rewrite Z.min_l by lia. reflexivity.
  - rewrite Z.min_r by lia. unfold len in *.
    rewrite Nat2Z.id. rewrite firstn_all.
    symmetry. apply firstn_all2. lia.
Qed.

End StringFacts.

(* ===================================================================== *)
(** * Query construction (C1) *)
(* ===================================================================== *)

Section QueryConstruction.
Import Py.

Lemma escaped_query_spec (query : str) :
  replace [dquote] [dquote; dquote] query = Spec.double_quotes query.
Proof. apply replace_single. Qed.

Lemma cli_quoted_query_spec (query : str) :
  Cli.quoted_query query
  = if contains (lit " ") query then Spec.phrase query else query.
Proof.
  unfold Cli.quoted_query, Spec.phrase.
  destruct (contains (lit " ") query); [|reflexivity].
  now rewrite escaped_query_spec.
Qed.

Lemma web_quoted_query_spec (query : str) :
  Web.quoted_query query
  = if contains (lit " ") query then Spec.phrase query else query.
Proof.
  unfold Web.quoted_query, Spec.phrase.
  destruct (contains (lit " ") query); [|reflexivity].
  now rewrite escaped_query_spec.
Qed.

Lemma engine_receives_form {R : Type} (w : Db.world R) (query : str) :
  Spec.engine_receives w query
    (if contains (lit " ") query then Spec.phrase query else query).
Proof.
  unfold Spec.engine_receives. split.
  - intro limit.
    unfold Cli.search, Cli.search_content_only, Cli.search_filename_only,
      Cli.search_content_only_fts_query, Cli.search_filename_only_fts_query,
      Spec.in_both, Spec.in_content, Spec.in_filename.
    rewrite cli_quoted_query_spec.
    repeat split.
    unfold Cli.search_fts_query, Spec.phrase.
    destruct (contains (lit " ") query); [|reflexivity].
    now rewrite escaped_query_spec.
  - intros snippet_length search_type Hc. cbv zeta.
    unfold Web.search_database, Web.search_database_body, Web.fts_query,
      Spec.in_both, Spec.in_content, Spec.in_filename.
    rewrite Hc, web_quoted_query_spec.
    destruct (list_eq_dec ascii_dec search_type (lit "content")) as [->|H1];
      [reflexivity|].
    destruct (list_eq_dec ascii_dec search_type (lit "filename")) as [->|H2];
      [reflexivity|].
    destruct (list_eq_dec ascii_dec search_type (lit "all")); reflexivity.
Qed.

End QueryConstruction.

(** C1.  A query that contains a space reaches the full-text engine in phrase
    form: every double quote of the query doubled, the whole between double
    quotes.  A query without a space reaches it as it is.  This holds for
    [search], [search_content_only] and [search_filename_only] of the
    command-line module and for every search type of [search_database]:
    each of them returns what it makes of the answer of the engine to that
    string, to which only the field prefix is added. *)
Theorem C1_query_construction :
  forall (R : Type) (w : Db.world R) (query : Py.str),
    (Spec.has_space query -> Spec.engine_receives w query (Spec.phrase query))
    /\ (~ Spec.has_space query -> Spec.engine_receives w query query).
Proof.
  intros R w query. pose proof (engine_receives_form w query) as H.
  unfold Spec.has_space.
  split; intro Hs.
  - apply (contains_single " "%char) in Hs.
    change [" "%char] with (Py.lit " ") in Hs. now rewrite Hs in H.
  - destruct (Py.contains (Py.lit " ") query) eqn:E; [|exact H].
    exfalso. apply Hs. now apply (contains_single " "%char).
Qed.

Lemma C1_query_construction_witness :
  Spec.engine_receives Example.world0 (Py.lit "Clinton flew")
    (Spec.phrase (Py.lit "Clinton flew"))
  /\ Spec.engine_receives Example.world0 (Py.lit "Paris") (Py.lit "Paris").
Proof.
  split.
  - apply (proj1 (C1_query_construction Z Example.world0 (Py.lit "Clinton flew"))).
    unfold Spec.has_space. simpl. tauto.
  - apply (proj2 (C1_query_construction Z Example.world0 (Py.lit "Paris"))).
    unfold Spec.has_space. simpl.
    intros [H|[H|[H|[H|[H|H]]]]]; try discriminate H; exact H.
Defined.

(* ===================================================================== *)
(** * Occurrences and the scan of the pattern *)
(* ===================================================================== *)

Section Occurrences.
Import Py.

Lemma char_ieq_true (a b : ascii) : Re.char_ieq a b = true <-> lower a = lower b.
Proof. unfold Re.char_ieq. apply Ascii.eqb_eq. Qed.

Lemma ci_equal_length (q m : str) : Spec.ci_equal q m -> length q = length m.
Proof. intro H. induction H; simpl; congruence. Qed.

Lemma match_here_spec (q s : str) :
  Re.match_here q s = true
  <-> exists m post, s = m ++ post /\ Spec.ci_equal q m.
Proof.
  unfold Re.match_here. revert s.
  induction q as [|a q' IH]; intro s; simpl.
  - split; [|reflexivity]. intros _. exists [], s. split; [reflexivity|constructor].
  - destruct s as [|b s'].
    + split; [discriminate|]. intros (m & post & E & H).
      inversion H; subst. discriminate E.
    + rewrite andb_true_iff, char_ieq_true, IH. split.
      * intros (Hab & m & post & E & H). exists (b :: m), post.
        split; [simpl; congruence | constructor; assumption].
      * intros (m & post & E & H). inversion H as [|? b0 ? m0 Hab H']; subst.
        injection E as -> ->. split; [assumption|]. now exists m0, post.
Qed.

Lemma occurs_at_iff (q text : str) (i : nat) :
  Spec.occurs_at q text i
  <-> (i <= length text)%nat /\ Re.match_here q (skipn i text) = true.
Proof.
  unfold Spec.occurs_at. rewrite match_here_spec. split.
  - intros (pre & m & post & -> & <- & H). split.
    + rewrite length_app. lia.
    + exists m, post. split; [|assumption].
      rewrite skipn_app, skipn_all, Nat.sub_diag. reflexivity.
  - intros (Hi & m & post & E & H).
    exists (firstn i text), m, post. repeat split.
    + rewrite <- E. symmetry. apply firstn_skipn.
    + rewrite length_firstn. lia.
    + assumption.
Qed.

Lemma occurs_at_bounds (q text : str) (i : nat) :
  Spec.occurs_at q text i -> (i + length q <= length text)%nat.
Proof.
  intros (pre & m & post & -> & <- & H).
  rewrite (ci_equal_length _ _ H), !length_app. lia.
Qed.

Lemma occurs_at_cons (q : str) (c : ascii) (s : str) (i : nat) :
  Spec.occurs_at q (c :: s) (S i) <-> Spec.occurs_at q s i.
Proof. rewrite !occurs_at_iff. simpl. intuition lia. Qed.

Lemma occurs_at_head (q s : str) :
  Spec.occurs_at q s 0 <-> Re.match_here q s = true.
Proof. rewrite occurs_at_iff. simpl. intuition lia. Qed.

Lemma match_here_nil (q : str) : Re.match_here q [] = true <-> q = [].
Proof. unfold Re.match_here. destruct q; simpl; split; congruence. Qed.

(** The scan reports the first occurrence first, and nothing when the query
    does not occur. *)
Lemma finditer_from_head (q s : str) : forall pos : nat,
  (forall i, Spec.first_occurrence q s i ->
     exists rest,
       Re.finditer_from q pos s = (pos + i, pos + i + length q)%nat :: rest)
  /\ ((forall i, ~ Spec.occurs_at q s i) -> Re.finditer_from q pos s = []).
Proof.
  induction s as [|c s' IH]; intro pos.
  - rewrite Re.finditer_from_equation_1. split.
    + intros i [Hocc _]. apply occurs_at_iff in Hocc. destruct Hocc as [Hi Hm].
      simpl in Hi. assert (i = 0)%nat by lia. subst i. simpl in Hm.
      rewrite Hm. apply match_here_nil in Hm. subst q. simpl.
      rewrite !Nat.add_0_r. now eexists.
    + intros Hno. destruct (Re.match_here q []) eqn:E; [|reflexivity].
      exfalso. apply (Hno 0%nat). now apply occurs_at_head.
  - rewrite Re.finditer_from_equation_2.
    destruct (Re.match_here q (c :: s')) eqn:E.
    + split.
      * intros i [_ Hmin]. assert (i = 0)%nat as ->.
        { specialize (Hmin 0%nat (proj2 (occurs_at_head _ _) E)). lia. }
        rewrite !Nat.add_0_r. destruct q as [|a q']; simpl.
        -- rewrite Nat.add_0_r. now eexists.
        -- now eexists.
      * intros Hno. exfalso. apply (Hno 0%nat). now apply occurs_at_head.
    + simpl. destruct (IH (S pos)) as [IH1 IH2]. split.
      * intros i [Hocc Hmin]. destruct i as [|i'].
        { apply occurs_at_head in Hocc. congruence. }
        destruct (IH1 i') as [rest Hrest].
        { split; [now apply occurs_at_cons in Hocc|].
          intros j Hj. apply (occurs_at_cons q c) in Hj.
          specialize (Hmin _ Hj). lia. }
        exists rest. rewrite Hrest. f_equal. f_equal; lia.
      * intros Hno. apply IH2. intros i Hi.
        apply (Hno (S i)). now apply occurs_at_cons.
Qed.

Lemma finditer_first (q text : str) (i : nat) :
  Spec.first_occurrence q text i ->
  exists rest, Re.finditer q text = (i, i + length q)%nat :: rest.
Proof.
  intro H. destruct (finditer_from_head q text 0) as [H1 _].
  exact (H1 i H).
Qed.

Lemma finditer_none (q text : str) :
  (forall i, ~ Spec.occurs_at q text i) -> Re.finditer q text = [].
Proof. intro H. now apply (finditer_from_head q text 0). Qed.

(** A query that occurs has a first occurrence. *)
Lemma first_occurrence_exists (q text : str) : forall j : nat,
  Spec.occurs_at q text j -> exists i, Spec.first_occurrence q text i.
Proof.
  induction text as [|c s' IH]; intros j Hocc.
  - exists 0%nat. apply occurs_at_iff in Hocc. destruct Hocc as [Hj Hm].
    simpl in Hj. assert (j = 0)%nat by lia. subst j.
    split; [now apply occurs_at_head | intros; lia].
  - destruct (Re.match_here q (c :: s')) eqn:E.
    + exists 0%nat. split; [now apply occurs_at_head | intros; lia].
    + destruct j as [|j']; [apply occurs_at_head in Hocc; congruence|].
      apply occurs_at_cons in Hocc. destruct (IH j' Hocc) as [i' [Hi Hmin]].
      exists (S i'). split; [now apply occurs_at_cons|].
      intros k Hk. destruct k as [|k'].
      * apply occurs_at_head in Hk. congruence.
      * apply occurs_at_cons in Hk. specialize (Hmin k' Hk). lia.
Qed.

End Occurrences.

(** Two tests that settle, by evaluation, where a query first occurs in a
    given text and whether it occurs at all. *)
Section OccurrenceTests.
Import Py.

Lemma no_match_before_spec (q text : str) (n j : nat) :
  Spec.no_match_before q text n = true -> (j < n)%nat -> ~ Spec.occurs_at q text j.
Proof.
  unfold Spec.no_match_before. rewrite forallb_forall. intros H Hj Hocc.
  apply occurs_at_iff in Hocc. destruct Hocc as [_ Hm].
  specialize (H j). rewrite Hm in H. simpl in H.
  assert (false = true) by (apply H; apply in_seq; lia). discriminate.
Qed.

Lemma first_occurrence_test (q text : str) (i : nat) :
  (i <=? length text)%nat && Re.match_here q (skipn i text)
    && Spec.no_match_before q text i = true ->
  Spec.first_occurrence q text i.
Proof.
  rewrite !andb_true_iff, Nat.leb_le. intros [[Hi Hm] Hno]. split.
  - apply occurs_at_iff. split; assumption.
  - intros j Hj. destruct (Nat.le_gt_cases i j) as [H|H]; [exact H|].
    exfalso. exact (no_match_before_spec _ _ _ _ Hno H Hj).
Qed.

Lemma no_occurrence_test (q text : str) :
  Spec.no_match_before q text (S (length text)) = true ->
  forall i, ~ Spec.occurs_at q text i.
Proof.
  intros Hno i Hocc.
  assert (i <= length text)%nat by (apply occurs_at_iff in Hocc; tauto).
  apply (no_match_before_spec _ _ _ i Hno); [lia | exact Hocc].
Qed.

End OccurrenceTests.

(* ===================================================================== *)
(** * Snippets (C2, C3) *)
(* ===================================================================== *)

(** C2.  When the query occurs in the text (as literal text, up to case), the
    snippet is the part of the text from [max(0, start - w)] to
    [min(len(text), end + w)], where [start] and [end] delimit the first
    occurrence; "..." is put in front exactly when the left bound is above 0
    and behind exactly when the right bound is below the length of the text.
    The part of the text is Python's [text[a:b]]; for a window [w >= 0] it is
    the [b - a] characters that follow the first [a]. *)
Theorem C2_snippet_window :
  forall (query text : Py.str) (w : Z) (j : nat),
    Spec.occurs_at query text j ->
    exists i : nat,
      Spec.first_occurrence query text i
      /\ let start := Z.max 0 (Z.of_nat i - w) in
         let stop := Z.min (Py.len text) (Z.of_nat i + Py.len query + w) in
         Web.snippet query w text
         = (if 0 <? start then Web.ellipsis else [])
             ++ Py.slice text (Some start) (Some stop)
             ++ (if stop <? Py.len text then Web.ellipsis else [])
         /\ (0 <= w ->
             Py.slice text (Some start) (Some stop)
             = firstn (Z.to_nat (stop - start)) (skipn (Z.to_nat start) text)
             /\ Py.len (Py.slice text (Some start) (Some stop)) = stop - start).
Proof.
  intros query text w j Hocc.
  destruct (first_occurrence_exists _ _ _ Hocc) as [i Hfirst].
  exists i. split; [exact Hfirst|]. intros start stop.
  destruct (finditer_first _ _ _ Hfirst) as [rest Hscan].
  pose proof (occurs_at_bounds _ _ _ (proj1 Hfirst)) as Hb.
  assert (Hstop : stop = Z.min (Py.len text) (Z.of_nat (i + length query) + w)).
  { unfold stop, Py.len. f_equal. lia. }
  split.
  - unfold Web.snippet. rewrite Hscan. cbv zeta. rewrite <- Hstop. fold start.
    destruct (0 <? start), (stop <? Py.len text); simpl;
      rewrite ?app_nil_r, <- ?app_assoc; reflexivity.
  - intro Hw. unfold Py.len in *.
    assert (Hs : Py.slice text (Some start) (Some stop)
                 = firstn (Z.to_nat (stop - start)) (skipn (Z.to_nat start) text)).
    { rewrite slice_nonneg; unfold Py.len; try lia.
      f_equal. lia. }
    split; [exact Hs|].
    rewrite Hs, length_firstn, length_skipn. lia.
Qed.

Lemma C2_snippet_window_witness :
  exists i : nat,
    Spec.first_occurrence (Py.lit "PARIS") (Py.lit "Clinton flew to Paris today") i
    /\ Web.snippet (Py.lit "PARIS") 3 (Py.lit "Clinton flew to Paris today")
       = (if 0 <? Z.max 0 (Z.of_nat i - 3) then Web.ellipsis else [])
           ++ Py.slice (Py.lit "Clinton flew to Paris today")
                (Some (Z.max 0 (Z.of_nat i - 3)))
                (Some (Z.min 27 (Z.of_nat i + 5 + 3)))
           ++ (if Z.min 27 (Z.of_nat i + 5 + 3) <? 27 then Web.ellipsis else []).
Proof.
  assert (H : Spec.occurs_at (Py.lit "PARIS")
                (Py.lit "Clinton flew to Paris today") 16).
  { apply occurs_at_iff. split; [vm_compute; lia | vm_compute; reflexivity]. }
  destruct (C2_snippet_window (Py.lit "PARIS")
              (Py.lit "Clinton flew to Paris today") 3 16 H)
    as (i & Hfirst & Hsnippet & _).
  exists i. split; [exact Hfirst | exact Hsnippet].
Defined.

(** The snippet of the example, evaluated. *)
Example snippet_paris :
  Web.snippet (Py.lit "PARIS") 3 (Py.lit "Clinton flew to Paris today")
  = Py.lit "...to Paris to...".
Proof. vm_compute. reflexivity. Qed.

(** C3.  When the query occurs nowhere in the text, cutting the snippet does
    not raise: the row gets a result whose snippet is cut from the first
    [2 * w] characters of the text ([text[:2*w]], which for [w >= 0] is the
    first [2 * w] characters), followed by "..." exactly when the text is
    longer than [2 * w]. *)
Theorem C3_snippet_fallback :
  forall (query text : Py.str) (w : Z),
    (forall i, ~ Spec.occurs_at query text i) ->
    Web.snippet query w text
    = Py.slice text None (Some (2 * w))
        ++ (if 2 * w <? Py.len text then Web.ellipsis else [])
    /\ (0 <= w -> Py.slice text None (Some (2 * w)) = firstn (Z.to_nat (2 * w)) text)
    /\ (forall (R : Type) (wd : Db.world R) (h : Db.hit R),
          Web.full_content_of wd h = Some text ->
          exists r,
            Web.row_result wd query w h = Py.Returned r
            /\ Web.snippet_html r
               = Re.sub query Web.highlight (Web.snippet query w text)).
Proof.
  intros query text w Hno. repeat split.
  - unfold Web.snippet. rewrite (finditer_none _ _ Hno). cbv zeta.
    rewrite (Z.mul_comm w 2).
    destruct (2 * w <? Py.len text); [reflexivity|].
    now rewrite app_nil_r.
  - intro Hw. apply slice_head. lia.
  - intros R wd h Hfull. unfold Web.row_result. rewrite Hfull.
    eexists. split; reflexivity.
Qed.

Lemma C3_snippet_fallback_witness :
  (forall i, ~ Spec.occurs_at (Py.lit "Epstein") (Py.lit "Paris is lovely") i)
  /\ Web.snippet (Py.lit "Epstein") 4 (Py.lit "Paris is lovely")
     = Py.lit "Paris is...".
Proof.
  assert (H : forall i,
             ~ Spec.occurs_at (Py.lit "Epstein") (Py.lit "Paris is lovely") i).
  { apply no_occurrence_test. vm_compute. reflexivity. }
  split; [exact H|].
  rewrite (proj1 (C3_snippet_fallback _ _ 4 H)). vm_compute. reflexivity.
Defined.

(* ===================================================================== *)
(** * Highlighting (C4) *)
(* ===================================================================== *)

Section Highlighting.
Import Py.
Variable repl : str -> str.

Lemma firstn_length_app {A : Type} (m t : list A) : firstn (length m) (m ++ t) = m.
Proof. induction m; simpl; congruence. Qed.

Lemma skipn_length_app {A : Type} (m t : list A) : skipn (length m) (m ++ t) = t.
Proof. induction m; simpl; congruence. Qed.

Lemma match_here_app (q m t : str) : Spec.ci_equal q m -> Re.match_here q (m ++ t) = true.
Proof. intro H. apply match_here_spec. now exists m, t. Qed.

Lemma match_here_extend (q s t : str) :
  Re.match_here q s = true -> Re.match_here q (s ++ t) = true.
Proof.
  intro H. apply match_here_spec in H. destruct H as (m & post & -> & H).
  rewrite <- app_assoc. now apply match_here_app.
Qed.

(** One step of [re.sub] and of [finditer] on a non-empty pattern. *)
Lemma sub_match (q m t : str) :
  q <> [] -> Spec.ci_equal q m ->
  Re.sub q repl (m ++ t) = repl m ++ Re.sub q repl t.
Proof.
  intros Hq H. pose proof (match_here_app q m t H) as Hm.
  pose proof (ci_equal_length _ _ H) as Hlen.
  destruct q as [|a q']; [contradiction|].
  destruct m as [|c m']; [discriminate|]. simpl app in *.
  rewrite Re.sub_equation_2. rewrite Hm. simpl.
  simpl in Hlen. injection Hlen as Hlen. rewrite Hlen.
  now rewrite firstn_length_app, skipn_length_app.
Qed.

Lemma sub_skip (q : str) (c : ascii) (s : str) :
  Re.match_here q (c :: s) = false ->
  Re.sub q repl (c :: s) = c :: Re.sub q repl s.
Proof. intro H. rewrite Re.sub_equation_2, H. reflexivity. Qed.

Lemma sub_nil (q : str) : q <> [] -> Re.sub q repl [] = [].
Proof.
  intro Hq. rewrite Re.sub_equation_1.
  destruct (Re.match_here q []) eqn:E; [|reflexivity].
  apply match_here_nil in E. contradiction.
Qed.

Lemma finditer_match (q m t : str) (pos : nat) :
  q <> [] -> Spec.ci_equal q m ->
  Re.finditer_from q pos (m ++ t)
  = (pos, pos + length q)%nat :: Re.finditer_from q (pos + length q) t.
Proof.
  intros Hq H. pose proof (match_here_app q m t H) as Hm.
  pose proof (ci_equal_length _ _ H) as Hlen.
  destruct q as [|a q']; [contradiction|].
  destruct m as [|c m']; [discriminate|]. simpl app in *.
  rewrite Re.finditer_from_equation_2. rewrite Hm. simpl.
  simpl in Hlen. injection Hlen as Hlen. rewrite Hlen.
  now rewrite skipn_length_app.
Qed.

Lemma finditer_skip (q : str) (c : ascii) (s : str) (pos : nat) :
  Re.match_here q (c :: s) = false ->
  Re.finditer_from q pos (c :: s) = Re.finditer_from q (S pos) s.
Proof. intro H. rewrite Re.finditer_from_equation_2, H. reflexivity. Qed.

Lemma finditer_nil (q : str) (pos : nat) : q <> [] -> Re.finditer_from q pos [] = [].
Proof.
  intro Hq. rewrite Re.finditer_from_equation_1.
  destruct (Re.match_here q []) eqn:E; [|reflexivity].
  apply match_here_nil in E. contradiction.
Qed.

(** Every match the scan reports is replaced in place: the output is the
    substitution of what precedes the match, the replacement of the matched
    text, and the substitution of what follows. *)
Lemma scan_match_replaced (q : str) (Hq : q <> []) : forall (n : nat) (s : str),
  (length s <= n)%nat ->
  forall pos p e, In (p, e) (Re.finditer_from q pos s) ->
    exists pre m post,
      s = pre ++ m ++ post /\ p = (pos + length pre)%nat /\ Spec.ci_equal q m /\
      Re.sub q repl s = Re.sub q repl pre ++ repl m ++ Re.sub q repl post.
Proof.
  induction n as [|n IH]; intros s Hn pos p e Hin.
  - destruct s; [|simpl in Hn; lia].
    rewrite finditer_nil in Hin by assumption. destruct Hin.
  - destruct s as [|c s'].
    { rewrite finditer_nil in Hin by assumption. destruct Hin. }
    destruct (Re.match_here q (c :: s')) eqn:E.
    + apply match_here_spec in E. destruct E as (m & t & E & Hci).
      rewrite E in *. rewrite finditer_match in Hin by assumption.
      pose proof (ci_equal_length _ _ Hci) as Hlen.
      assert (length q <> 0)%nat by (destruct q; [contradiction|discriminate]).
      destruct Hin as [Hin|Hin].
      * injection Hin as <- <-. exists [], m, t. simpl.
        rewrite sub_nil by assumption. simpl.
        repeat split; auto; try lia. now apply sub_match.
      * apply IH in Hin.
        2:{ rewrite length_app in Hn. lia. }
        destruct Hin as (pre & m' & post & -> & -> & Hci' & Hsub).
        exists (m ++ pre), m', post. rewrite <- app_assoc.
        repeat split; auto.
        -- rewrite length_app. lia.
        -- rewrite (sub_match q m (pre ++ m' ++ post)) by assumption.
           rewrite (sub_match q m pre) by assumption.
           rewrite Hsub. now rewrite <- app_assoc.
    + rewrite finditer_skip in Hin by assumption.
      apply IH in Hin; [|simpl in Hn; lia].
      destruct Hin as (pre & m & post & -> & -> & Hci & Hsub).
      exists (c :: pre), m, post. repeat split; auto; try (simpl; lia).
      rewrite sub_skip by assumption. simpl app.
      rewrite sub_skip.
      * now rewrite Hsub.
      * destruct (Re.match_here q (c :: pre)) eqn:E'; [|reflexivity].
        apply (match_here_extend _ _ (m ++ post)) in E'.
        simpl in E'. congruence.
Qed.

(** Every occurrence starts at a match of the scan or inside one. *)
Lemma scan_covers (q : str) (Hq : q <> []) : forall (n : nat) (s : str),
  (length s <= n)%nat ->
  forall pos i, Spec.occurs_at q s i ->
    exists k,
      In (pos + k, pos + k + length q)%nat (Re.finditer_from q pos s)
      /\ (k <= i < k + length q)%nat.
Proof.
  assert (Hlq : (length q <> 0)%nat) by (destruct q; [contradiction|discriminate]).
  induction n as [|n IH]; intros s Hn pos i Hocc.
  - apply occurs_at_bounds in Hocc. lia.
  - destruct s as [|c s'].
    { apply occurs_at_bounds in Hocc. simpl in Hocc. lia. }
    destruct (Re.match_here q (c :: s')) eqn:E.
    + apply match_here_spec in E. destruct E as (m & t & E & Hci).
      rewrite E in *. rewrite finditer_match by assumption.
      pose proof (ci_equal_length _ _ Hci) as Hlen.
      destruct (Nat.lt_ge_cases i (length q)) as [Hi|Hi].
      * exists 0%nat. rewrite !Nat.add_0_r. split; [now left | lia].
      * assert (Hocc' : Spec.occurs_at q t (i - length q)).
        { apply occurs_at_iff in Hocc. destruct Hocc as [Hb Hm].
          apply occurs_at_iff. rewrite length_app in Hb. split; [lia|].
          rewrite <- Hm. rewrite <- (skipn_length_app m t) at 1.
          rewrite skipn_skipn.
          now replace (i - length q + length m)%nat with i by lia. }
        apply (IH t) with (pos := (pos + length q)%nat) in Hocc'.
        2:{ rewrite length_app in Hn. lia. }
        destruct Hocc' as (k & Hin & Hk).
        exists (length q + k)%nat. split; [|lia].
        right. replace (pos + (length q + k))%nat with (pos + length q + k)%nat by lia.
        exact Hin.
    + rewrite finditer_skip by assumption.
      destruct i as [|i'].
      { apply occurs_at_head in Hocc. congruence. }
      apply occurs_at_cons in Hocc.
      apply (IH s') with (pos := S pos) in Hocc; [|simpl in Hn; lia].
      destruct Hocc as (k & Hin & Hk).
      exists (S k). split; [|lia].
      replace (pos + S k)%nat with (S pos + k)%nat by lia. exact Hin.
Qed.

End Highlighting.

Lemma wrapped_occurs (q s out : Py.str) (i : nat) :
  Spec.wrapped q s out i -> Spec.occurs_at q s i.
Proof. intros (pre & m & post & E & Hl & Hci & _). now exists pre, m, post. Qed.

(** The snippet of a result is the highlighted snippet of the text the row
    was cut from. *)
Lemma row_result_snippet_html {R : Type} (wd : Db.world R) (query : Py.str)
  (w : Z) (h : Db.hit R) (r : Web.result R) :
  Web.row_result wd query w h = Py.Returned r ->
  exists text,
    Web.full_content_of wd h = Some text
    /\ Web.snippet_html r = Web.highlighted_snippet query w text.
Proof.
  unfold Web.row_result. destruct (Web.full_content_of wd h) as [text|].
  - intro H. injection H as <-. now exists text.
  - discriminate.
Qed.

(** C4, as the code has it.  In the final snippet text of a result, the
    highlighting scans from left to right and resumes after each match: every
    occurrence of the query (literal, up to case) is either wrapped in the
    highlight marker, in its original casing, or starts inside an occurrence
    that is wrapped.  So every occurrence is wrapped when no two occurrences
    overlap, and query "the" against "The theory" wraps both "The" and
    "the". *)
Theorem C4_highlight_scan :
  forall (query text : Py.str) (w : Z),
    query <> [] ->
    let s := Web.snippet query w text in
    let out := Web.highlighted_snippet query w text in
    (forall i, Spec.occurs_at query s i ->
       Spec.wrapped query s out i
       \/ exists p, Spec.wrapped query s out p /\ (p < i < p + length query)%nat)
    /\ ((forall i j, Spec.occurs_at query s i -> Spec.occurs_at query s j ->
           (i < j)%nat -> (i + length query <= j)%nat) ->
        forall i, Spec.occurs_at query s i -> Spec.wrapped query s out i)
    /\ Re.sub (Py.lit "the") Web.highlight (Py.lit "The theory")
       = Web.highlight (Py.lit "The") ++ Py.lit " "
           ++ Web.highlight (Py.lit "the") ++ Py.lit "ory".
Proof.
  intros query text w Hq s out.
  assert (D : forall i, Spec.occurs_at query s i ->
            Spec.wrapped query s out i
            \/ exists p, Spec.wrapped query s out p
                         /\ (p < i < p + length query)%nat).
  { intros i Hocc.
    destruct (scan_covers query Hq (length s) s (le_n _) 0%nat i Hocc)
      as (k & Hin & Hk).
    destruct (scan_match_replaced Web.highlight query Hq (length s) s (le_n _)
                _ _ _ Hin) as (pre & m & post & E & Hp & Hci & Hsub).
    simpl in Hp. subst k.
    assert (Hw : Spec.wrapped query s out (length pre)).
    { exists pre, m, post. repeat split; auto. }
    destruct (Nat.eq_dec (length pre) i) as [<-|Hne].
    - now left.
    - right. exists (length pre). split; [exact Hw | lia]. }
  split; [exact D|]. split.
  - intros Hsep i Hocc. destruct (D i Hocc) as [Hw|(p & Hw & Hp)]; [exact Hw|].
    pose proof (Hsep p i (wrapped_occurs _ _ _ _ Hw) Hocc). lia.
  - vm_compute. reflexivity.
Qed.

Lemma C4_highlight_scan_witness :
  Spec.wrapped (Py.lit "the")
    (Web.snippet (Py.lit "the") 1000 (Py.lit "The theory"))
    (Web.highlighted_snippet (Py.lit "the") 1000 (Py.lit "The theory")) 4
  \/ exists p,
       Spec.wrapped (Py.lit "the")
         (Web.snippet (Py.lit "the") 1000 (Py.lit "The theory"))
         (Web.highlighted_snippet (Py.lit "the") 1000 (Py.lit "The theory")) p
       /\ (p < 4 < p + length (Py.lit "the"))%nat.
Proof.
  assert (Hq : Py.lit "the" <> []) by discriminate.
  apply (proj1 (C4_highlight_scan (Py.lit "the") (Py.lit "The theory") 1000 Hq)).
  apply occurs_at_iff. split; [vm_compute; lia | vm_compute; reflexivity].
Defined.

(** C4 as it is worded fails when occurrences overlap: query "aa" occurs at
    position 1 of "aaa", and that occurrence is not wrapped. *)
Lemma C4_overlap_counterexample :
  Spec.occurs_at (Py.lit "aa") (Web.snippet (Py.lit "aa") 1000 (Py.lit "aaa")) 1
  /\ ~ Spec.wrapped (Py.lit "aa") (Web.snippet (Py.lit "aa") 1000 (Py.lit "aaa"))
         (Web.highlighted_snippet (Py.lit "aa") 1000 (Py.lit "aaa")) 1.
Proof.
  assert (Hs : Web.snippet (Py.lit "aa") 1000 (Py.lit "aaa") = Py.lit "aaa")
    by (vm_compute; reflexivity).
  unfold Web.highlighted_snippet. rewrite Hs. split.
  - apply occurs_at_iff. split; [simpl; lia | vm_compute; reflexivity].
  - intros (pre & m & post & E & Hl & Hci & Hout).
    destruct pre as [|x [|y pre]]; try discriminate Hl.
    inversion Hci as [|a b q' m' Hab Hci' Eq Em]; subst.
    inversion Hci' as [|a' b' q'' m'' Hab' Hci'' Eq' Em']; subst.
    inversion Hci''; subst.
    simpl in E. injection E as <- <- <- E.
    destruct post; [|discriminate E].
    vm_compute in Hout. discriminate Hout.
Qed.

(* ===================================================================== *)
(** * The batch indexer (C6, C7, C8) *)
(* ===================================================================== *)

Section Range.
Import Py.

Lemma range_up_step (i stop step : Z) :
  0 < step ->
  Cli.range_up i stop step
  = if i <? stop then i :: Cli.range_up (i + step) stop step else [].
Proof.
  intro Hs. rewrite Cli.range_up_equation_1.
  destruct (Z_lt_dec i stop) as [H|H]; simpl.
  - destruct (Z_lt_dec 0 step) as [H'|H']; [|lia].
    apply Z.ltb_lt in H. now rewrite H.
  - destruct (i <? stop) eqn:E; [apply Z.ltb_lt in E; lia | reflexivity].
Qed.

Lemma ceil_div_0 (b : Z) : 0 < b -> Spec.ceil_div 0 b = 0.
Proof. intro H. unfold Spec.ceil_div. apply Z.div_small. lia. Qed.

Lemma ceil_div_step (n b : Z) :
  0 < b -> 0 < n -> Spec.ceil_div n b = 1 + Spec.ceil_div (Z.max 0 (n - b)) b.
Proof.
  intros Hb Hn. unfold Spec.ceil_div.
  destruct (Z.le_gt_cases b n) as [H|H].
  - rewrite Z.max_r by lia.
    replace (n + b - 1) with (n - b + b - 1 + 1 * b) by lia.
    rewrite Z.div_add by lia. lia.
  - rewrite Z.max_l by lia.
    replace (n + b - 1) with (n - 1 + 1 * b) by lia.
    rewrite Z.div_add by lia.
    rewrite (Z.div_small (n - 1)) by lia.
    rewrite (Z.div_small (0 + b - 1)) by lia. lia.
Qed.

Lemma ceil_div_nonneg (n b : Z) : 0 < b -> 0 <= n -> 0 <= Spec.ceil_div n b.
Proof. intros Hb Hn. unfold Spec.ceil_div. apply Z.div_pos; lia. Qed.

(** The starts of the rounds are the multiples of the step below [stop],
    and there are [ceil (stop / step)] of them. *)
Lemma range_up_multiples (step : Z) (Hs : 0 < step) : forall (m : nat) (i stop : Z),
  stop - i <= Z.of_nat m * step ->
  Cli.range_up i stop step
  = map (fun k => i + Z.of_nat k * step)
        (seq 0 (Z.to_nat (Spec.ceil_div (Z.max 0 (stop - i)) step))).
Proof.
  induction m as [|m IH]; intros i stop Hm; rewrite range_up_step by assumption.
  - destruct (i <? stop) eqn:E; [apply Z.ltb_lt in E; lia|].
    apply Z.ltb_ge in E. rewrite Z.max_l by lia.
    now rewrite ceil_div_0.
  - destruct (i <? stop) eqn:E.
    + apply Z.ltb_lt in E. rewrite (Z.max_r 0 (stop - i)) by lia.
      rewrite ceil_div_step by lia.
      rewrite Z2Nat.inj_add by (try apply ceil_div_nonneg; lia).
      change (Z.to_nat 1) with 1%nat. simpl seq. simpl map.
      f_equal; [lia|].
      rewrite IH by lia. rewrite <- seq_shift, map_map.
      replace (stop - (i + step)) with (stop - i - step) by lia.
      apply map_ext. intro k. lia.
    + apply Z.ltb_ge in E. rewrite Z.max_l by lia.
      now rewrite ceil_div_0.
Qed.

Lemma range_multiples (n step : Z) :
  0 < step -> 0 <= n ->
  Cli.range 0 n step
  = Returned (map (fun k => Z.of_nat k * step)
                  (seq 0 (Z.to_nat (Spec.ceil_div n step)))).
Proof.
  intros Hs Hn. unfold Cli.range.
  destruct (step =? 0) eqn:E0; [apply Z.eqb_eq in E0; lia|].
  destruct (0 <? step) eqn:E1; [|apply Z.ltb_ge in E1; lia].
  rewrite (range_up_multiples step Hs (Z.to_nat n) 0 n) by nia.
  rewrite Z.sub_0_r, Z.max_r by lia. reflexivity.
Qed.

End Range.

Section Slices.
Import Py.
Context {A : Type}.

Lemma slice_between (l : list A) (a b : Z) :
  0 <= a <= b ->
  slice l (Some a) (Some b) = firstn (Z.to_nat (b - a)) (skipn (Z.to_nat a) l).
Proof.
  intros Hab. unfold slice, slice_index, len.
  destruct (a <? 0) eqn:Ea; [apply Z.ltb_lt in Ea; lia|].
  destruct (b <? 0) eqn:Eb; [apply Z.ltb_lt in Eb; lia|].
  destruct (Z.le_gt_cases a (Z.of_nat (length l))) as [Ha|Ha].
  - rewrite (Z.min_l a) by lia.
    destruct (Z.le_gt_cases b (Z.of_nat (length l))) as [Hb|Hb].
    + now rewrite (Z.min_l b) by lia.
    + rewrite (Z.min_r b) by lia.
      rewrite !firstn_all2; [reflexivity| |]; rewrite length_skipn; lia.
  - rewrite (Z.min_r a), (Z.min_r b) by lia.
    rewrite !skipn_all2 by lia. now rewrite !firstn_nil.
Qed.

Lemma firstn_plus (a b : nat) (l : list A) :
  firstn (a + b) l = firstn a l ++ firstn b (skipn a l).
Proof.
  revert l. induction a as [|a IH]; intro l; [reflexivity|].
  destruct l as [|x l]; simpl.
  - now rewrite firstn_nil.
  - now rewrite IH.
Qed.

(** The batch that starts at [k * b] continues the first [k * b] files. *)
Lemma firstn_next_batch (l : list A) (k : nat) (b : Z) :
  0 < b ->
  firstn (Z.to_nat (Z.of_nat (S k) * b)) l
  = firstn (Z.to_nat (Z.of_nat k * b)) l
      ++ slice l (Some (Z.of_nat k * b)) (Some (Z.of_nat k * b + b)).
Proof.
  intro Hb. rewrite slice_between by nia.
  replace (Z.of_nat k * b + b - Z.of_nat k * b) with b by lia.
  rewrite <- firstn_plus. f_equal. nia.
Qed.

End Slices.

Lemma firstn_seq_le (k n a : nat) : (k <= n)%nat -> firstn k (seq a n) = seq a k.
Proof.
  revert n a. induction k as [|k IH]; intros n a H; [reflexivity|].
  destruct n as [|n]; [lia|]. simpl. f_equal. apply IH. lia.
Qed.

Lemma ceil_div_covers (n b : Z) : 0 < b -> n <= Spec.ceil_div n b * b.
Proof.
  intro Hb. unfold Spec.ceil_div.
  pose proof (Z.div_mod (n + b - 1) b ltac:(lia)) as E.
  pose proof (Z.mod_pos_bound (n + b - 1) b Hb) as Hr. nia.
Qed.

Section Actions.
Import Py Db.
Context {A : Type}.

Lemma for_each_app (body : A -> Cli.action unit) (xs ys : list A)
  (st : Cli.state) :
  Cli.for_each body (xs ++ ys) st
  = match Cli.for_each body xs st with
    | (Returned _, st') => Cli.for_each body ys st'
    | (Raised e, st') => (Raised e, st')
    end.
Proof.
  revert st. induction xs as [|x xs IH]; intro st; [reflexivity|].
  cbn [app Cli.for_each]. unfold Cli.and_then.
  destruct (body x st) as [[u|e] st1]; [apply IH | reflexivity].
Qed.

End Actions.

Section Indexer.
Import Py Db.
Context {R : Type} (w : world R).
Variables (txt_files : list str) (batch_size sample_size : Z).
Hypothesis Hprint : Spec.prints_succeed w.
Hypothesis Hcommit : Spec.commits_succeed w.

Let total_files := len txt_files.

Lemma rows_of_app (xs ys : list str) :
  Spec.rows_of w sample_size (xs ++ ys)
  = Spec.rows_of w sample_size xs ++ Spec.rows_of w sample_size ys.
Proof. unfold Spec.rows_of. now rewrite map_app, filter_app. Qed.

Lemma rows_of_cons (x : str) (xs : list str) :
  Spec.rows_of w sample_size (x :: xs)
  = (if insert_raises w (Spec.row_of w sample_size x) then []
     else [Spec.row_of w sample_size x])
      ++ Spec.rows_of w sample_size xs.
Proof.
  unfold Spec.rows_of. simpl.
  now destruct (insert_raises w (Spec.row_of w sample_size x)).
Qed.

(** A [print] and a commit that do not raise. *)
Lemma print_succeeds (l : line) (st : Cli.state) :
  Cli.print w l st
  = (Returned tt,
     {| Cli.conn_of := Cli.conn_of st; Cli.stdout := Cli.stdout st ++ [l] |}).
Proof. unfold Cli.print. now rewrite Hprint. Qed.

Lemma commit_succeeds (st : Cli.state) :
  Cli.commit w st = (Returned tt, Cli.on_conn commit st).
Proof. unfold Cli.commit. now rewrite Hcommit. Qed.

(** What one file does to the connection and to the output. *)
Lemma index_file_effect (st : Cli.state) (j : Z) (path : str) :
  exists lines,
    Cli.index_file w total_files sample_size (j, path) st
    = (Returned tt,
       {| Cli.conn_of :=
            {| durable := durable (Cli.conn_of st);
               pending := pending (Cli.conn_of st)
                            ++ Spec.rows_of w sample_size [path];
               commits := commits (Cli.conn_of st) |};
          Cli.stdout := Cli.stdout st ++ lines |})
    /\ Spec.failures_logged w sample_size [path] lines.
Proof.
  unfold Cli.index_file, Cli._read_file_content_sample, Cli.try_except,
    Cli.and_then, Cli.lift, Cli.ret, Cli.execute_insert, Spec.failures_logged.
  rewrite rows_of_cons. unfold Spec.rows_of at 1. simpl filter. rewrite app_nil_r.
  unfold Spec.row_of. destruct st as [[d p n] out].
  destruct (Cli.read_sample w path sample_size) as [sample|e] eqn:Er;
    rewrite ?print_succeeds; cbv beta iota;
    match goal with |- context [insert_raises w ?r] =>
      destruct (insert_raises w r) eqn:Ei end;
    try destruct ((j mod 100 =? 0) || (j =? total_files));
    rewrite ?print_succeeds; unfold Cli.on_conn, execute_insert;
    cbn [Cli.conn_of Cli.stdout durable pending commits];
    rewrite <- ?app_assoc, ?app_nil_r;
    eexists; (split; [try reflexivity|]).
  all: try (rewrite <- (app_nil_r out) at 1; reflexivity).
  all: intros x [<-|[]]; rewrite ?Er, ?Ei; simpl;
    split; intro H; try discriminate H; auto.
  all: try (exfalso; exact (H sample eq_refl)).
Qed.

Lemma failures_logged_app (xs ys : list str) (l1 l2 : list line) :
  Spec.failures_logged w sample_size xs l1 ->
  Spec.failures_logged w sample_size ys l2 ->
  Spec.failures_logged w sample_size (xs ++ ys) (l1 ++ l2).
Proof.
  intros H1 H2 path Hin. apply in_app_or in Hin. destruct Hin as [Hin|Hin].
  - destruct (H1 path Hin). split; intro; apply in_or_app; left; auto.
  - destruct (H2 path Hin). split; intro; apply in_or_app; right; auto.
Qed.

Lemma failures_logged_more (xs : list str) (l l' : list line) :
  Spec.failures_logged w sample_size xs l ->
  Spec.failures_logged w sample_size xs (l ++ l').
Proof.
  intros H path Hin. destruct (H path Hin).
  split; intro; apply in_or_app; left; auto.
Qed.

(** What the inner loop does with a batch. *)
Lemma index_files_effect (batch : list str) : forall (j0 : Z) (st : Cli.state),
  exists lines,
    Cli.for_each (Cli.index_file w total_files sample_size)
      (Cli.enumerate batch j0) st
    = (Returned tt,
       {| Cli.conn_of :=
            {| durable := durable (Cli.conn_of st);
               pending := pending (Cli.conn_of st)
                            ++ Spec.rows_of w sample_size batch;
               commits := commits (Cli.conn_of st) |};
          Cli.stdout := Cli.stdout st ++ lines |})
    /\ Spec.failures_logged w sample_size batch lines.
Proof.
  induction batch as [|path batch IH]; intros j0 st.
  - exists []. simpl. split.
    + destruct st as [[d p n] out]. unfold Cli.ret, Spec.rows_of. simpl.
      now rewrite !app_nil_r.
    + intros path [].
  - cbn [Cli.enumerate Cli.for_each]. unfold Cli.and_then.
    destruct (index_file_effect st j0 path) as (l1 & E1 & F1).
    rewrite E1.
    destruct (IH (j0 + 1) {|
                Cli.conn_of :=
                  {| durable := durable (Cli.conn_of st);
                     pending := pending (Cli.conn_of st)
                                  ++ Spec.rows_of w sample_size [path];
                     commits := commits (Cli.conn_of st) |};
                Cli.stdout := Cli.stdout st ++ l1 |}) as (l2 & E2 & F2).
    rewrite E2. simpl. exists (l1 ++ l2). split.
    + rewrite <- !app_assoc. change (path :: batch) with ([path] ++ batch).
      now rewrite rows_of_app.
    + change (path :: batch) with ([path] ++ batch).
      now apply failures_logged_app.
Qed.

(** What one round of the outer loop does: the rows of the batch join the
    open transaction, then everything is committed. *)
Lemma index_batch_effect (st : Cli.state) (i : Z) :
  let batch := slice txt_files (Some i) (Some (i + batch_size)) in
  exists lines,
    Cli.index_batch w txt_files batch_size sample_size i st
    = (Returned tt,
       {| Cli.conn_of :=
            {| durable := visible (Cli.conn_of st)
                            ++ Spec.rows_of w sample_size batch;
               pending := [];
               commits := S (commits (Cli.conn_of st)) |};
          Cli.stdout := Cli.stdout st ++ lines |})
    /\ Spec.failures_logged w sample_size batch lines.
Proof.
  intro batch. unfold Cli.index_batch. fold batch. fold total_files.
  unfold Cli.and_then.
  destruct (index_files_effect batch (i + 1) st) as (l1 & E1 & F1).
  rewrite E1, commit_succeeds, print_succeeds.
  unfold Cli.on_conn, commit, visible. simpl.
  eexists. split.
  - rewrite <- !app_assoc. reflexivity.
  - now apply failures_logged_more.
Qed.

(** The state after [k] rounds. *)
Lemma rounds_effect (Hb : 0 < batch_size) : forall (k : nat) (st : Cli.state),
  exists st',
    Cli.for_each (Cli.index_batch w txt_files batch_size sample_size)
      (map (fun j => Z.of_nat j * batch_size) (seq 0 k)) st
    = (Returned tt, st')
    /\ let done := firstn (Z.to_nat (Z.of_nat k * batch_size)) txt_files in
       visible (Cli.conn_of st')
       = visible (Cli.conn_of st) ++ Spec.rows_of w sample_size done
       /\ commits (Cli.conn_of st') = (commits (Cli.conn_of st) + k)%nat
       /\ ((1 <= k)%nat -> pending (Cli.conn_of st') = [])
       /\ exists lines,
            Cli.stdout st' = Cli.stdout st ++ lines
            /\ Spec.failures_logged w sample_size done lines.
Proof.
  induction k as [|k IH]; intro st.
  - exists st. split; [reflexivity|]. simpl. unfold Spec.rows_of. simpl.
    rewrite app_nil_r.
    repeat split; try lia. exists []. rewrite app_nil_r.
    split; [reflexivity | intros path []].
  - destruct (IH st) as (st1 & E1 & Hv & Hc & _ & l1 & Ho & F1).
    destruct (index_batch_effect st1 (Z.of_nat k * batch_size))
      as (l2 & E2 & F2).
    eexists. split.
    + rewrite seq_S, map_app, for_each_app, E1.
      cbn [map Cli.for_each]. cbv beta. unfold Cli.and_then at 1.
      change (0 + k)%nat with k. rewrite E2. reflexivity.
    + cbv zeta. cbn [Cli.conn_of Cli.stdout commits pending].
      rewrite firstn_next_batch by assumption.
      rewrite rows_of_app. unfold visible at 1. cbn [durable pending].
      rewrite app_nil_r.
      rewrite Hv, Hc, Ho, <- !app_assoc.
      repeat split; try lia.
      exists (l1 ++ l2). split; [reflexivity|].
      now apply failures_logged_app.
Qed.

Lemma firstn_min_len {A : Type} (l : list A) (m : Z) :
  firstn (Z.to_nat (Z.min m (len l))) l = firstn (Z.to_nat m) l.
Proof.
  unfold len. destruct (Z.le_gt_cases m (Z.of_nat (length l))) as [H|H].
  - now rewrite Z.min_l by lia.
  - rewrite Z.min_r by lia. rewrite Nat2Z.id, firstn_all.
    symmetry. apply firstn_all2. lia.
Qed.

Let rounds : nat := Z.to_nat (Spec.ceil_div total_files batch_size).

Lemma total_files_nonneg : 0 <= total_files.
Proof. unfold total_files, len. lia. Qed.

(** The run comes as far as its [k]-th commit, and the state it is in right
    after it. *)
Lemma after_commit_effect (Hb : 0 < batch_size) (st : Cli.state) (k : nat) :
  (k <= rounds)%nat ->
  let st' := Spec.after_commit w txt_files batch_size sample_size st k in
  let done :=
    firstn (Z.to_nat (Z.min (Z.of_nat k * batch_size) total_files)) txt_files in
  Spec.first_rounds w txt_files batch_size sample_size k st
  = (Returned tt, st')
  /\ visible (Cli.conn_of st')
     = visible (Cli.conn_of st) ++ Spec.rows_of w sample_size done
  /\ commits (Cli.conn_of st') = (commits (Cli.conn_of st) + k)%nat
  /\ ((1 <= k)%nat -> pending (Cli.conn_of st') = [])
  /\ exists lines,
       Cli.stdout st'
       = Cli.stdout st ++ [Indexing_from; Found total_files] ++ lines
       /\ Spec.failures_logged w sample_size done lines.
Proof.
  intros Hk. cbv zeta. unfold Spec.after_commit, Spec.first_rounds.
  fold total_files. unfold Cli.and_then, Cli.lift.
  rewrite !print_succeeds.
  rewrite (range_multiples total_files batch_size Hb total_files_nonneg).
  fold rounds. rewrite firstn_map, firstn_seq_le by exact Hk.
  pose proof (firstn_min_len txt_files (Z.of_nat k * batch_size)) as Hmin.
  fold total_files in Hmin. rewrite Hmin.
  match goal with |- context [Cli.for_each _ _ ?s] =>
    destruct (rounds_effect Hb k s) as (st' & E & Hv & Hc & Hp & lines & Ho & F)
  end.
  rewrite E. cbn [snd]. split; [reflexivity|].
  repeat split; try assumption.
  exists lines. split; [|exact F].
  rewrite Ho. simpl. now rewrite <- !app_assoc.
Qed.

(** A run with a positive batch size returns, and ends in the state left by
    its last commit, plus the closing message. *)
Lemma index_text_files_run (Hb : 0 < batch_size) (st : Cli.state) :
  Cli.index_text_files w txt_files batch_size sample_size st
  = (Returned Cli.NoneV,
     let st' := Spec.after_commit w txt_files batch_size sample_size st rounds in
     {| Cli.conn_of := Cli.conn_of st';
        Cli.stdout := Cli.stdout st' ++ [Indexing_complete total_files] |}).
Proof.
  destruct (after_commit_effect Hb st rounds (le_n _)) as (E & _).
  cbv zeta in *. revert E.
  unfold Cli.index_text_files, Spec.first_rounds. fold total_files.
  unfold Cli.and_then, Cli.lift, Cli.ret.
  rewrite !print_succeeds.
  rewrite (range_multiples total_files batch_size Hb total_files_nonneg).
  fold rounds. rewrite firstn_all2 by (rewrite length_map, length_seq; lia).
  intro E. rewrite E, print_succeeds. reflexivity.
Qed.

Lemma all_files_done (Hb : 0 < batch_size) :
  firstn (Z.to_nat (Z.min (Z.of_nat rounds * batch_size) total_files)) txt_files
  = txt_files.
Proof.
  unfold rounds. rewrite Z2Nat.id
    by (apply ceil_div_nonneg; [assumption | apply total_files_nonneg]).
  pose proof (ceil_div_covers total_files batch_size Hb).
  rewrite Z.min_r by lia. unfold total_files, len.
  rewrite Nat2Z.id. apply firstn_all.
Qed.

End Indexer.

(** The whole run, for a positive batch size, when no [print] and no commit
    raises. *)
Lemma index_text_files_summary {R : Type} (w : Db.world R)
  (txt_files : list Py.str) (batch_size sample_size : Z) (st : Cli.state) :
  Spec.prints_succeed w -> Spec.commits_succeed w ->
  0 < batch_size ->
  exists st' lines,
    Cli.index_text_files w txt_files batch_size sample_size st
    = (Py.Returned Cli.NoneV, st')
    /\ Db.visible (Cli.conn_of st')
       = Db.visible (Cli.conn_of st) ++ Spec.rows_of w sample_size txt_files
    /\ Db.commits (Cli.conn_of st')
       = (Db.commits (Cli.conn_of st)
          + Z.to_nat (Spec.ceil_div (Py.len txt_files) batch_size))%nat
    /\ Cli.stdout st'
       = Cli.stdout st
           ++ [Db.Indexing_from; Db.Found (Py.len txt_files)]
           ++ lines ++ [Db.Indexing_complete (Py.len txt_files)]
    /\ Spec.failures_logged w sample_size txt_files lines.
Proof.
  intros Hp Hc Hb.
  destruct (after_commit_effect w txt_files batch_size sample_size Hp Hc Hb st
              (Z.to_nat (Spec.ceil_div (Py.len txt_files) batch_size))
              (le_n _)) as (_ & Hv & Hn & _ & lines & Ho & F).
  rewrite all_files_done in Hv, F by assumption.
  eexists. exists lines. split; [now apply index_text_files_run|].
  cbv zeta. cbn [Cli.conn_of Cli.stdout].
  split; [exact Hv|]. split; [exact Hn|]. split; [|exact F].
  rewrite Ho. now rewrite <- !app_assoc.
Qed.

(** ** Runs in which a [print] or a commit may raise *)

Section AnyWorld.
Import Py Db.
Context {R : Type} (w : world R).

Lemma in_firstn {A : Type} (n : nat) (l : list A) (x : A) :
  In x (firstn n l) -> In x l.
Proof.
  intro H. rewrite <- (firstn_skipn n l). apply in_or_app. now left.
Qed.

Lemma in_skipn {A : Type} (n : nat) (l : list A) (x : A) :
  In x (skipn n l) -> In x l.
Proof.
  intro H. rewrite <- (firstn_skipn n l). apply in_or_app. now right.
Qed.

Lemma slice_incl {A : Type} (l : list A) (lo hi : option Z) (x : A) :
  In x (slice l lo hi) -> In x l.
Proof.
  unfold slice. intro H. apply in_firstn in H. now apply in_skipn in H.
Qed.

Lemma in_enumerate {A : Type} (xs : list A) : forall (first j : Z) (x : A),
  In (j, x) (Cli.enumerate xs first) -> In x xs.
Proof.
  induction xs as [|y xs IH]; intros first j x H; [destruct H|].
  destruct H as [H|H].
  - injection H as _ ->. now left.
  - right. exact (IH _ _ _ H).
Qed.

(** A loop keeps what each of its rounds keeps. *)
Lemma for_each_keeps {A : Type} (P : Cli.state -> Cli.state -> Prop)
  (body : A -> Cli.action unit) (xs : list A) :
  (forall st, P st st) ->
  (forall a b c, P a b -> P b c -> P a c) ->
  (forall x st, In x xs -> P st (snd (body x st))) ->
  forall st, P st (snd (Cli.for_each body xs st)).
Proof.
  intros Hrefl Htrans. induction xs as [|x xs IH]; intros Hbody st.
  - apply Hrefl.
  - cbn [Cli.for_each]. unfold Cli.and_then.
    pose proof (Hbody x st (or_introl eq_refl)) as Hx.
    destruct (body x st) as [[u|e] st1]; cbn [snd] in *; [|exact Hx].
    apply (Htrans _ st1); [exact Hx|].
    apply IH. intros y st' Hy. apply Hbody. now right.
Qed.

(** A loop raises when one of its rounds raises whatever the state. *)
Lemma for_each_aborts {A : Type} (body : A -> Cli.action unit)
  (xs : list A) (x : A) :
  In x xs ->
  (forall st, exists e st', body x st = (Raised e, st')) ->
  forall st, exists e st', Cli.for_each body xs st = (Raised e, st').
Proof.
  intros Hin Hx. induction xs as [|y xs IH]; [destruct Hin|]. intro st.
  cbn [Cli.for_each]. unfold Cli.and_then.
  destruct Hin as [->|Hin].
  - destruct (Hx st) as (e & st' & E). rewrite E. now exists e, st'.
  - destruct (body y st) as [[u|e] st1].
    + exact (IH Hin st1).
    + now exists e, st1.
Qed.

Lemma print_keeps_conn (l : line) (st : Cli.state) :
  Cli.conn_of (snd (Cli.print w l st)) = Cli.conn_of st.
Proof. unfold Cli.print. now destruct (print_raises w l). Qed.

(** What a [print] raises is what the output refuses. *)
Lemma print_raised (l : line) (st st' : Cli.state) (e : exn) :
  Cli.print w l st = (Raised e, st') -> print_raises w l = Some e.
Proof.
  unfold Cli.print. destruct (print_raises w l); [|discriminate].
  now intros [= -> _].
Qed.

(** [_read_file_content_sample] leaves the connection alone, and returns
    the sample read or the empty string. *)
Lemma read_sample_keeps_conn (path : str) (sample_size : Z) (st : Cli.state) :
  Cli.conn_of (snd (Cli._read_file_content_sample w path sample_size st))
  = Cli.conn_of st.
Proof.
  unfold Cli._read_file_content_sample, Cli.try_except, Cli.lift,
    Cli.and_then, Cli.ret.
  destruct (Cli.read_sample w path sample_size); [reflexivity|].
  pose proof (print_keeps_conn (Error_reading path) st) as H.
  destruct (Cli.print w (Error_reading path) st) as [[u|e'] st1]; exact H.
Qed.

Lemma read_sample_returned (path : str) (sample_size : Z)
  (st st' : Cli.state) (sample : str) :
  Cli._read_file_content_sample w path sample_size st = (Returned sample, st') ->
  sample = match Cli.read_sample w path sample_size with
           | Returned s => s
           | Raised _ => []
           end.
Proof.
  unfold Cli._read_file_content_sample, Cli.try_except, Cli.lift,
    Cli.and_then, Cli.ret.
  destruct (Cli.read_sample w path sample_size); [now intros [= <- _]|].
  destruct (Cli.print w (Error_reading path) st) as [[u|e'] st1];
    [now intros [= <- _] | discriminate].
Qed.

(** One file adds at most its own row to the open transaction, and nothing
    else changes on the connection. *)
Lemma index_file_conn (total_files sample_size j : Z) (path : str)
  (st : Cli.state) :
  let c := Cli.conn_of st in
  let c' := Cli.conn_of (snd (Cli.index_file w total_files sample_size (j, path) st)) in
  c' = c \/ c' = execute_insert c (Spec.row_of w sample_size path).
Proof.
  cbv zeta. unfold Cli.index_file, Cli.try_except, Cli.and_then.
  pose proof (read_sample_keeps_conn path sample_size st) as Hc.
  pose proof (read_sample_returned path sample_size st) as Hs.
  destruct (Cli._read_file_content_sample w path sample_size st)
    as [[sample|e] st1]; cbn [snd] in Hc.
  - rewrite (Hs st1 sample eq_refl). fold (Spec.row_of w sample_size path).
    unfold Cli.execute_insert.
    destruct (insert_raises w (Spec.row_of w sample_size path)).
    + rewrite print_keeps_conn. now left.
    + destruct ((j mod 100 =? 0) || (j =? total_files)).
      * match goal with |- context [Cli.print w ?l ?s] =>
          pose proof (print_keeps_conn l s) as Hp;
          destruct (Cli.print w l s) as [[u|e] st2] end;
          cbn [snd] in *.
        -- right. rewrite Hp. unfold Cli.on_conn. cbn [Cli.conn_of].
           now rewrite Hc.
        -- rewrite print_keeps_conn, Hp. right. unfold Cli.on_conn.
           cbn [Cli.conn_of]. now rewrite Hc.
      * right. unfold Cli.ret, Cli.on_conn. cbn [snd Cli.conn_of].
        now rewrite Hc.
  - rewrite print_keeps_conn. now left.
Qed.

(** The rows of a connection after a piece of the run: those it had, and
    rows built for files of the list [files]. *)
Let from_files (sample_size : Z) (files : list str) (st st' : Cli.state) : Prop :=
  forall r, In r (visible (Cli.conn_of st')) ->
    In r (visible (Cli.conn_of st))
    \/ exists path, In path files /\ r = Spec.row_of w sample_size path.

Lemma from_files_refl (sample_size : Z) (files : list str) (st : Cli.state) :
  from_files sample_size files st st.
Proof. intros r H. now left. Qed.

Lemma from_files_trans (sample_size : Z) (files : list str)
  (a b c : Cli.state) :
  from_files sample_size files a b -> from_files sample_size files b c ->
  from_files sample_size files a c.
Proof.
  intros Hab Hbc r H. destruct (Hbc r H) as [H'|H']; [|now right].
  exact (Hab r H').
Qed.

Lemma from_files_same_conn (sample_size : Z) (files : list str)
  (st st' : Cli.state) :
  visible (Cli.conn_of st') = visible (Cli.conn_of st) ->
  from_files sample_size files st st'.
Proof. intros E r H. left. now rewrite <- E. Qed.

Lemma commit_keeps_visible (st : Cli.state) :
  visible (Cli.conn_of (snd (Cli.commit w st))) = visible (Cli.conn_of st).
Proof.
  unfold Cli.commit. destruct (commit_raises w (Cli.conn_of st));
    [reflexivity|].
  unfold Cli.on_conn, commit, visible. simpl. now rewrite app_nil_r.
Qed.

Lemma index_batch_from_files (txt_files : list str)
  (batch_size sample_size i : Z) (st : Cli.state) :
  from_files sample_size txt_files st
    (snd (Cli.index_batch w txt_files batch_size sample_size i st)).
Proof.
  unfold Cli.index_batch, Cli.and_then.
  set (batch := slice txt_files (Some i) (Some (i + batch_size))).
  pose proof (for_each_keeps (from_files sample_size txt_files)
                (Cli.index_file w (len txt_files) sample_size)
                (Cli.enumerate batch (i + 1))
                (from_files_refl sample_size txt_files)
                (from_files_trans sample_size txt_files)) as Hloop.
  assert (Hbody : forall x st0,
            In x (Cli.enumerate batch (i + 1)) ->
            from_files sample_size txt_files st0
              (snd (Cli.index_file w (len txt_files) sample_size x st0))).
  { intros [j path] st0 Hin r Hr.
    apply in_enumerate in Hin. apply slice_incl in Hin.
    destruct (index_file_conn (len txt_files) sample_size j path st0)
      as [E|E]; rewrite E in Hr.
    - now left.
    - unfold visible, execute_insert in Hr. cbn [durable pending] in Hr.
      rewrite app_assoc in Hr. apply in_app_or in Hr.
      destruct Hr as [Hr|[<-|[]]]; [now left|].
      right. now exists path. }
  specialize (Hloop Hbody st).
  destruct (Cli.for_each _ _ st) as [[u|e] st1]; cbn [snd] in *;
    [|exact Hloop].
  apply (from_files_trans _ _ _ st1); [exact Hloop|].
  pose proof (commit_keeps_visible st1) as Hc.
  destruct (Cli.commit w st1) as [[u'|e] st2]; cbn [snd] in *.
  - apply from_files_same_conn. now rewrite print_keeps_conn.
  - now apply from_files_same_conn.
Qed.

(** Whatever happens in a run, the rows it leaves on the connection are
    those that were there and rows built for enumerated files. *)
Lemma index_text_files_from_files (txt_files : list str)
  (batch_size sample_size : Z) (st : Cli.state) :
  from_files sample_size txt_files st
    (snd (Cli.index_text_files w txt_files batch_size sample_size st)).
Proof.
  unfold Cli.index_text_files, Cli.and_then, Cli.lift, Cli.ret.
  pose proof (print_keeps_conn Indexing_from st) as H1.
  destruct (Cli.print w Indexing_from st) as [[u1|e1] st1]; cbn [snd] in *;
    [|apply from_files_same_conn; cbn [snd]; congruence].
  pose proof (print_keeps_conn (Found (len txt_files)) st1) as H2.
  destruct (Cli.print w (Found (len txt_files)) st1) as [[u2|e2] st2];
    cbn [snd] in *; [|apply from_files_same_conn; cbn [snd]; congruence].
  destruct (Cli.range 0 (len txt_files) batch_size) as [starts|e3];
    [|apply from_files_same_conn; cbn [snd]; congruence].
  pose proof (for_each_keeps (from_files sample_size txt_files)
                (Cli.index_batch w txt_files batch_size sample_size) starts
                (from_files_refl sample_size txt_files)
                (from_files_trans sample_size txt_files)
                (fun i st0 _ =>
                   index_batch_from_files txt_files batch_size sample_size
                     i st0) st2) as Hloop.
  assert (H02 : from_files sample_size txt_files st st2)
    by (apply from_files_same_conn; congruence).
  destruct (Cli.for_each _ starts st2) as [[u|e] st3]; cbn [snd] in *.
  - pose proof (print_keeps_conn (Indexing_complete (len txt_files)) st3) as H4.
    destruct (Cli.print w (Indexing_complete (len txt_files)) st3)
      as [[u4|e4] st4]; cbn [snd] in *;
      (apply (from_files_trans _ _ _ st2); [exact H02|];
       apply (from_files_trans _ _ _ st3); [exact Hloop|];
       apply from_files_same_conn; congruence).
  - apply (from_files_trans _ _ _ st2); [exact H02 | exact Hloop].
Qed.

(** [index_text_files] has no [return] statement. *)
Lemma index_text_files_returns_none (txt_files : list str)
  (batch_size sample_size : Z) (st st' : Cli.state) (v : Cli.value) :
  Cli.index_text_files w txt_files batch_size sample_size st
  = (Returned v, st') ->
  v = Cli.NoneV.
Proof.
  unfold Cli.index_text_files, Cli.and_then, Cli.lift, Cli.ret.
  destruct (Cli.print w Indexing_from st) as [[u1|e1] st1]; [|discriminate].
  destruct (Cli.print w (Found (len txt_files)) st1) as [[u2|e2] st2];
    [|discriminate].
  destruct (Cli.range 0 (len txt_files) batch_size) as [starts|e3];
    [|discriminate].
  destruct (Cli.for_each _ starts st2) as [[u|e] st3]; [|discriminate].
  destruct (Cli.print w (Indexing_complete (len txt_files)) st3)
    as [[u4|e4] st4]; [|discriminate].
  now intros [= <- _].
Qed.

Lemma index_file_aborts (total_files sample_size j : Z) (path : str) :
  Spec.unreportable w sample_size path ->
  forall st, exists e st',
    Cli.index_file w total_files sample_size (j, path) st = (Raised e, st').
Proof.
  intros [Hp Hf] st.
  assert (Hhandler : forall st0, exists e st',
            Cli.print w (Error_processing path) st0 = (Raised e, st')).
  { intro st0. unfold Cli.print.
    destruct (print_raises w (Error_processing path)) as [e|];
      [now exists e, st0 | contradiction]. }
  unfold Cli.index_file, Cli.try_except, Cli.and_then.
  pose proof (read_sample_returned path sample_size st) as Hs.
  destruct (Cli._read_file_content_sample w path sample_size st)
    as [[sample|e] st1] eqn:Er; [|apply Hhandler].
  rewrite (Hs st1 sample eq_refl). fold (Spec.row_of w sample_size path).
  unfold Cli.execute_insert.
  destruct Hf as [Hi|[Hread Hpr]].
  - rewrite Hi. apply Hhandler.
  - exfalso. revert Er.
    unfold Cli._read_file_content_sample, Cli.try_except, Cli.lift,
      Cli.and_then, Cli.ret, Cli.print.
    destruct (Cli.read_sample w path sample_size) as [s|e0];
      [exact (fun _ => Hread s eq_refl)|].
    destruct (print_raises w (Error_reading path)); [discriminate|].
    contradiction.
Qed.

Lemma enumerate_in {A : Type} (xs : list A) (x : A) : forall first : Z,
  In x xs -> exists j, In (j, x) (Cli.enumerate xs first).
Proof.
  induction xs as [|y xs IH]; intros first H; [destruct H|].
  destruct H as [->|H].
  - exists first. now left.
  - destruct (IH (first + 1) H) as [j Hj]. exists j. now right.
Qed.

(** Every file is in the batch of one of the rounds. *)
Lemma file_in_a_batch (txt_files : list str) (batch_size : Z) (path : str) :
  0 < batch_size -> In path txt_files ->
  exists i,
    In i (map (fun k => Z.of_nat k * batch_size)
            (seq 0 (Z.to_nat (Spec.ceil_div (len txt_files) batch_size))))
    /\ In path (slice txt_files (Some i) (Some (i + batch_size))).
Proof.
  intros Hb Hin.
  set (rounds := Z.to_nat (Spec.ceil_div (len txt_files) batch_size)).
  assert (Hall : In path (firstn (Z.to_nat (Z.of_nat rounds * batch_size))
                            txt_files)).
  { rewrite firstn_all2; [exact Hin|]. unfold rounds.
    rewrite Z2Nat.id by (apply ceil_div_nonneg; unfold len; lia).
    pose proof (ceil_div_covers (len txt_files) batch_size Hb).
    unfold len in *. lia. }
  clearbody rounds. induction rounds as [|k IH].
  - simpl in Hall. destruct Hall.
  - rewrite firstn_next_batch in Hall by assumption.
    apply in_app_or in Hall. destruct Hall as [Hall|Hall].
    + destruct (IH Hall) as (i & Hi & Hp). exists i. split; [|exact Hp].
      rewrite seq_S, map_app. apply in_or_app. now left.
    + exists (Z.of_nat k * batch_size). split; [|exact Hall].
      rewrite seq_S, map_app. apply in_or_app. right. now left.
Qed.

(** A file whose failure cannot be reported ends the run with an
    exception. *)
Lemma unreportable_failure_aborts (txt_files : list str)
  (batch_size sample_size : Z) (path : str) (st : Cli.state) :
  0 < batch_size -> In path txt_files -> Spec.unreportable w sample_size path ->
  exists e st',
    Cli.index_text_files w txt_files batch_size sample_size st
    = (Raised e, st').
Proof.
  intros Hb Hin Hu.
  destruct (file_in_a_batch txt_files batch_size path Hb Hin)
    as (i & Hi & Hp).
  assert (Hbatch : forall st0, exists e st',
            Cli.index_batch w txt_files batch_size sample_size i st0
            = (Raised e, st')).
  { intro st0. unfold Cli.index_batch, Cli.and_then.
    destruct (enumerate_in _ path (i + 1) Hp) as [j Hj].
    destruct (for_each_aborts (Cli.index_file w (len txt_files) sample_size)
                _ (j, path) Hj
                (index_file_aborts (len txt_files) sample_size j path Hu) st0)
      as (e & st' & E).
    rewrite E. now exists e, st'. }
  unfold Cli.index_text_files, Cli.and_then, Cli.lift, Cli.ret.
  destruct (Cli.print w Indexing_from st) as [[u1|e1] st1];
    [|now exists e1, st1].
  destruct (Cli.print w (Found (len txt_files)) st1) as [[u2|e2] st2];
    [|now exists e2, st2].
  rewrite (range_multiples (len txt_files) batch_size Hb)
    by (unfold len; lia).
  destruct (for_each_aborts
              (Cli.index_batch w txt_files batch_size sample_size)
              _ i Hi Hbatch st2) as (e & st' & E).
  rewrite E. now exists e, st'.
Qed.

End AnyWorld.

(** A batch size of zero makes [range] raise before anything is indexed; a
    negative one leaves the loop without rounds. *)
Lemma index_text_files_zero_batch {R : Type} (w : Db.world R)
  (txt_files : list Py.str) (sample_size : Z) (st : Cli.state) :
  Spec.prints_succeed w ->
  fst (Cli.index_text_files w txt_files 0 sample_size st)
  = Py.Raised Py.ValueError.
Proof.
  intro Hp. unfold Cli.index_text_files, Cli.and_then.
  rewrite !print_succeeds by assumption. reflexivity.
Qed.

Lemma range_negative_step (n step : Z) :
  0 <= n -> step < 0 -> Cli.range 0 n step = Py.Returned [].
Proof.
  intros Hn Hs. unfold Cli.range.
  destruct (step =? 0) eqn:E0; [apply Z.eqb_eq in E0; lia|].
  destruct (0 <? step) eqn:E1; [apply Z.ltb_lt in E1; lia|].
  rewrite Cli.range_down_equation_1.
  destruct (Z_lt_dec n 0) as [H|H]; [lia | reflexivity].
Qed.

Lemma index_text_files_negative_batch {R : Type} (w : Db.world R)
  (txt_files : list Py.str) (batch_size sample_size : Z) (st : Cli.state) :
  Spec.prints_succeed w ->
  batch_size < 0 ->
  exists st',
    Cli.index_text_files w txt_files batch_size sample_size st
    = (Py.Returned Cli.NoneV, st')
    /\ Cli.conn_of st' = Cli.conn_of st.
Proof.
  intros Hp Hb. unfold Cli.index_text_files, Cli.and_then, Cli.lift.
  rewrite !print_succeeds by assumption.
  rewrite range_negative_step by (unfold Py.len; lia).
  cbn [Cli.for_each]. unfold Cli.ret.
  rewrite print_succeeds by assumption.
  eexists. split; reflexivity.
Qed.










(* ===================================================================== *)
(** * Stale paths (C5) *)
(* ===================================================================== *)

Section StalePaths.
Import Py Db.
Context {R : Type} (w : world R).

(** The web module falls back on the indexed sample. *)
Lemma web_stale_path_uses_sample (query : str) (snippet_length : Z)
  (h : hit R) (sample : str) :
  read_file w (filepath (h_row h)) = None ->
  content (h_row h) = Some sample ->
  Web.row_result w query snippet_length h
  = Returned {| Web.file_path := filepath (h_row h);
                Web.file_name := filename (h_row h);
                Web.snippet_html :=
                  Web.highlighted_snippet query snippet_length sample;
                Web.rank := h_rank h;
                Web.preview := Web.content_preview sample |}.
Proof.
  intros Hr Hc. unfold Web.row_result, Web.full_content_of.
  now rewrite Hr, Hc.
Qed.

(** The command-line module does not: the content of the result is the empty
    string, whatever the sample. *)
Lemma cli_stale_path_empty_content (hits : list (hit R)) :
  (forall h, In h hits -> read_file w (filepath (h_row h)) = None) ->
  Cli.full_results w hits
  = map (fun h => (filename (h_row h), filepath (h_row h), [], h_rank h)) hits.
Proof.
  intro H. unfold Cli.full_results. apply map_ext_in. intros h Hin.
  unfold Cli.load_full_content. now rewrite (H h Hin).
Qed.

End StalePaths.

(** C5, at a hit whose file is gone.  The query succeeds and the hit gets a
    result in both modules.  In the web module the result is cut from the
    indexed sample ("Paris in the spring").  In the command-line module the
    content of the result is the empty string: the sample is not used. *)
Theorem C5_stale_path_content :
  Db.read_file Example.world0 Example.file_gone = None
  /\ Cli.search_content_only Example.world0 (Py.lit "Paris") 10000
     = Py.Returned
         [ (Py.lit "a.txt", Example.file_a, Py.lit "Clinton flew to Paris", -2);
           (Py.lit "gone.txt", Example.file_gone, [], -1) ]
  /\ (exists r_a r_gone,
        Web.search_database Example.world0 (Py.lit "Paris") 5 (Py.lit "content")
        = (Py.Returned [r_a; r_gone], [Web.Connect; Web.Close])
        /\ Web.file_path r_gone = Example.file_gone
        /\ Web.preview r_gone = Py.lit "Paris in the spring"
        /\ Web.snippet_html r_gone
           = Web.highlight (Py.lit "Paris") ++ Py.lit " in t...").
Proof.
  split; [vm_compute; reflexivity|].
  split; [vm_compute; reflexivity|].
  eexists. eexists. split; [vm_compute; reflexivity|].
  repeat split.
Qed.

(* ===================================================================== *)
(** * Image route (C9) *)
(* ===================================================================== *)

Section ViewImage.
Import Py Db.
Context {R : Type} (w : world R).

Lemma int_digits_decimal (s : str) : forall acc : Z,
  forallb is_decimal_char s = true ->
  exists n, int_digits acc s = Returned n.
Proof.
  induction s as [|c s IH]; intros acc H; simpl in *.
  - now exists acc.
  - apply andb_true_iff in H. destruct H as [Hc Hs]. rewrite Hc. now apply IH.
Qed.

Lemma isdigit_decimal (s : str) :
  s <> [] -> forallb is_decimal_char s = true -> isdigit s = true.
Proof.
  intros Hne H. destruct s as [|c s]; [contradiction|].
  unfold isdigit. rewrite forallb_forall in *. intros x Hx.
  unfold is_digit_char. now rewrite (H x Hx).
Qed.

(** The answers of [view_image], case by case. *)
Lemma view_image_not_digits (dir_num filename : str) :
  isdigit dir_num = false ->
  Web.view_image w dir_num filename = Returned (Web.Status 400 (lit "Invalid directory")).
Proof. intro H. unfold Web.view_image, Web.invalid_directory. now rewrite H. Qed.

Lemma view_image_out_of_range (dir_num filename : str) (n : Z) :
  isdigit dir_num = true -> int dir_num = Returned n -> n < 1 \/ 12 < n ->
  Web.view_image w dir_num filename = Returned (Web.Status 400 (lit "Invalid directory")).
Proof.
  intros Hd Hn Hr. unfold Web.view_image, Web.invalid_directory.
  rewrite Hd, Hn. simpl.
  destruct (n <? 1) eqn:E1; simpl; [reflexivity|].
  destruct (12 <? n) eqn:E2; simpl; [reflexivity|].
  apply Z.ltb_ge in E1, E2. lia.
Qed.

Lemma view_image_in_range (dir_num filename : str) (n : Z) :
  isdigit dir_num = true -> int dir_num = Returned n -> 1 <= n <= 12 ->
  Web.view_image w dir_num filename
  = if contains (lit "..") filename || startswith filename (lit "/")
    then Returned (Web.Status 400 (lit "Invalid filename"))
    else
      let full_path :=
        Web.path_join (lit "/home/jon/Documents/Epstein dump nov 12/" ++ dir_num)
          filename in
      if is_file w full_path then Returned (Web.Send_file full_path)
      else Returned (Web.Status 404 (lit "File not found")).
Proof.
  intros Hd Hn Hr. unfold Web.view_image, Web.invalid_directory.
  rewrite Hd, Hn. simpl.
  destruct (n <? 1) eqn:E1; [apply Z.ltb_lt in E1; lia|]. simpl.
  destruct (12 <? n) eqn:E2; [apply Z.ltb_lt in E2; lia|]. simpl.
  reflexivity.
Qed.

(** A directory token made of digit characters of which one is not a decimal
    digit passes [isdigit] and makes [int] raise. *)
Lemma view_image_digit_not_decimal (c : ascii) (filename : str) :
  is_digit_char c = true -> is_decimal_char c = false ->
  Web.view_image w [c] filename = Raised ValueError.
Proof.
  intros Hd Hn. unfold Web.view_image, Web.invalid_directory, isdigit.
  simpl. rewrite Hd. simpl. now rewrite Hn.
Qed.

End ViewImage.

(** The tokens and file names listed by the specification. *)
Lemma view_image_listed_tokens {R : Type} (w : Db.world R) :
  (forall d, In d [Py.lit "000"; Py.lit "13"; Py.lit "abc"; Py.lit "-1"] ->
     Web.view_image w d (Py.lit "photo.jpg")
     = Py.Returned (Web.Status 400 (Py.lit "Invalid directory")))
  /\ (forall d,
        In d [Py.lit "001"; Py.lit "002"; Py.lit "003"; Py.lit "004";
              Py.lit "005"; Py.lit "006"; Py.lit "007"; Py.lit "008";
              Py.lit "009"; Py.lit "010"; Py.lit "011"; Py.lit "012"] ->
        Web.invalid_directory d = Py.Returned false
        /\ Web.view_image w d (Py.lit "../../etc/passwd")
           = Py.Returned (Web.Status 400 (Py.lit "Invalid filename"))
        /\ Web.view_image w d (Py.lit "/etc/passwd")
           = Py.Returned (Web.Status 400 (Py.lit "Invalid filename"))
        /\ forall body, Web.view_image w d (Py.lit "photo.jpg")
                        <> Py.Returned (Web.Status 400 body)).
Proof.
  split.
  - intros d Hd. simpl in Hd.
    repeat (destruct Hd as [<-|Hd]; [reflexivity|]). destruct Hd.
  - intros d Hd. simpl in Hd.
    repeat (destruct Hd as [<-|Hd];
            [ repeat split; try reflexivity; intro body; unfold Web.view_image;
              simpl; destruct (Db.is_file w _); discriminate |]).
    destruct Hd.
Qed.

(** C9, where the code departs from it.  The directory token made of the one
    character U+00B2 (superscript two) is a digit string for [isdigit], but
    [int] raises [ValueError] on it: [view_image] answers neither 400 nor 404,
    the exception escapes the view. *)
Theorem C9_view_image_superscript_digit :
  forall (R : Type) (w : Db.world R) (filename : Py.str),
    Py.isdigit [Example.superscript_two] = true
    /\ Py.int [Example.superscript_two] = Py.Raised Py.ValueError
    /\ Web.view_image w [Example.superscript_two] filename
       = Py.Raised Py.ValueError.
Proof.
  intros R w filename. repeat split.
Qed.

(* ===================================================================== *)
(** * Exceptions in [search_database] (C10) *)
(* ===================================================================== *)

Section SearchDatabase.
Import Py Db.
Context {R : Type} (w : world R).

Lemma for_each_raises {A B : Type} (f : A -> outcome B) (xs : list A) (x : A)
  (e : exn) :
  In x xs -> f x = Raised e -> exists e', for_each f xs = Raised e'.
Proof.
  induction xs as [|y ys IH]; intros Hin Hx; [destruct Hin|].
  simpl. destruct Hin as [->|Hin].
  - rewrite Hx. simpl. now exists e.
  - destruct (f y) as [b|e0]; simpl; [|now exists e0].
    destruct (IH Hin Hx) as [e' He']. rewrite He'. simpl. now exists e'.
Qed.

(** The call to [sqlite3.connect] stands before the [try]: when it raises,
    the exception escapes, and no connection was opened. *)
Lemma search_database_connect_raises (query : str) (snippet_length : Z)
  (search_type : str) :
  connect_raises w = true ->
  Web.search_database w query snippet_length search_type
  = (Raised OperationalError, []).
Proof. intro H. unfold Web.search_database. now rewrite H. Qed.

End SearchDatabase.

(** C10.  Once its connection is open, [search_database] returns a list for
    every query, snippet length and search type, and closes the connection.
    Whatever raises between [try] and [except], be it the engine rejecting
    the query or the processing of a row, yields the empty list; otherwise
    the list is the one the body built. *)
Theorem C10_search_database_total :
  forall (R : Type) (w : Db.world R) (query : Py.str) (snippet_length : Z)
         (search_type : Py.str),
    Db.connect_raises w = false ->
    exists results,
      Web.search_database w query snippet_length search_type
      = (Py.Returned results, [Web.Connect; Web.Close])
      /\ (forall e,
            Web.search_database_body w query snippet_length search_type
            = Py.Raised e -> results = [])
      /\ (forall rs,
            Web.search_database_body w query snippet_length search_type
            = Py.Returned rs -> results = rs)
      /\ (forall e,
            Db.fts_match w (Web.fts_query query search_type) 10000 = Py.Raised e ->
            results = [])
      /\ (forall rows h,
            Db.fts_match w (Web.fts_query query search_type) 10000
            = Py.Returned rows ->
            In h rows -> Web.full_content_of w h = None -> results = []).
Proof.
  intros R w query snippet_length search_type Hc.
  unfold Web.search_database. rewrite Hc.
  destruct (Web.search_database_body w query snippet_length search_type)
    as [rs|e0] eqn:Hbody; simpl.
  - exists rs. split; [reflexivity|]. split; [discriminate|].
    split; [now intros rs' [= ->]|].
    unfold Web.search_database_body in Hbody. split.
    + intros e He. rewrite He in Hbody. discriminate Hbody.
    + intros rows h Hrows Hin Hnone. rewrite Hrows in Hbody. simpl in Hbody.
      destruct (for_each_raises (Web.row_result w query snippet_length)
                  rows h Py.TypeError Hin) as [e' He'].
      * unfold Web.row_result. now rewrite Hnone.
      * rewrite He' in Hbody. discriminate Hbody.
  - exists []. repeat split; try reflexivity. discriminate.
Qed.

Lemma C10_search_database_total_witness :
  exists results,
    Web.search_database Example.world0 (Py.lit "AND") 1000 (Py.lit "all")
    = (Py.Returned results, [Web.Connect; Web.Close])
    /\ results = [].
Proof.
  destruct (C10_search_database_total Z Example.world0 (Py.lit "AND") 1000
              (Py.lit "all")) as (results & Hrun & _ & _ & Hengine & _).
  - reflexivity.
  - exists results. split; [exact Hrun|].
    apply (Hengine Py.OperationalError). vm_compute. reflexivity.
Defined.

(* ===================================================================== *)
(** * Further properties of the indexer *)
(* ===================================================================== *)

Section IndexerMore.
Import Py Db.

Lemma basename_acc_spec (s : str) : forall acc : str,
  ~ In "/"%char acc ->
  ~ In "/"%char (basename_acc acc s)
  /\ exists dir,
       acc ++ s = dir ++ basename_acc acc s
       /\ (dir = [] \/ exists dir', dir = dir' ++ ["/"%char]).
Proof.
  induction s as [|c s IH]; intros acc Hacc; simpl.
  - split; [exact Hacc|]. exists []. rewrite app_nil_r. auto.
  - destruct (Ascii.eqb c "/"%char) eqn:E.
    + apply Ascii.eqb_eq in E. subst c.
      destruct (IH [] (fun H => H)) as (Hno & dir & Hd & Hdir).
      split; [exact Hno|]. exists ((acc ++ ["/"%char]) ++ dir).
      simpl in Hd. split.
      * rewrite <- !app_assoc. simpl. now rewrite <- Hd.
      * right. destruct Hdir as [->|[dir' ->]].
        -- exists acc. now rewrite app_nil_r.
        -- exists ((acc ++ ["/"%char]) ++ dir'). now rewrite <- !app_assoc.
    + destruct (IH (acc ++ [c])) as (Hno & dir & Hd & Hdir).
      * intro H. apply in_app_or in H. destruct H as [H|[H|[]]]; [auto|].
        subst c. discriminate E.
      * split; [exact Hno|]. exists dir. split; [|exact Hdir].
        rewrite <- Hd, <- app_assoc. reflexivity.
Qed.

(** [os.path.basename]: no slash in the name, and the path is the name
    behind nothing or behind a directory part that ends in a slash. *)
Lemma basename_spec (path : str) :
  ~ In "/"%char (basename path)
  /\ exists dir,
       path = dir ++ basename path
       /\ (dir = [] \/ exists dir', dir = dir' ++ ["/"%char]).
Proof. exact (basename_acc_spec path [] (fun H => H)). Qed.

Lemma read_upto_bound (n : Z) (text : str) :
  0 <= n -> len (Cli.read_upto n text) <= n.
Proof.
  intro Hn. unfold Cli.read_upto, len.
  destruct (n <? 0) eqn:E; [apply Z.ltb_lt in E; lia|].
  pose proof (firstn_le_length (Z.to_nat n) text). lia.
Qed.

Lemma read_upto_prefix (n : Z) (text : str) :
  exists rest, text = Cli.read_upto n text ++ rest.
Proof.
  unfold Cli.read_upto. destruct (n <? 0).
  - exists []. now rewrite app_nil_r.
  - exists (skipn (Z.to_nat n) text). symmetry. apply firstn_skipn.
Qed.

End IndexerMore.

(** X1.  Every row a run of the indexer adds to the table comes from one of
    the enumerated files: its path is that file's path, its name is the last
    component of the path, and its sample is a string that starts the file's
    text (the empty string when the file cannot be read) and has at most
    [sample_size] characters when [sample_size] is not negative. *)
Theorem indexed_rows_shape :
  forall (R : Type) (w : Db.world R) (txt_files : list Py.str)
         (batch_size sample_size : Z) (st st' : Cli.state) (r : Db.row),
    0 < batch_size ->
    Cli.index_text_files w txt_files batch_size sample_size st
    = (Py.Returned Cli.NoneV, st') ->
    In r (Db.visible (Cli.conn_of st')) ->
    In r (Db.visible (Cli.conn_of st))
    \/ (In (Db.filepath r) txt_files
        /\ Db.filename r = Py.basename (Db.filepath r)
        /\ ~ In "/"%char (Db.filename r)
        /\ exists sample,
             Db.content r = Some sample
             /\ (0 <= sample_size -> Py.len sample <= sample_size)
             /\ match Db.read_file w (Db.filepath r) with
                | Some text => exists rest, text = sample ++ rest
                | None => sample = []
                end).
Proof.
  intros R w txt_files batch_size sample_size st st' r Hb Hrun Hin.
  pose proof (index_text_files_from_files w txt_files batch_size sample_size st)
    as H.
  rewrite Hrun in H. cbn [snd] in H.
  destruct (H r Hin) as [Hold|(path & Hpath & ->)]; [now left|].
  right. unfold Spec.row_of, Cli.read_sample.
  cbn [Db.filepath Db.filename Db.content].
  split; [exact Hpath|]. split; [reflexivity|].
  split; [apply basename_spec|].
  eexists. split; [reflexivity|].
  destruct (Db.read_file w path) as [text|].
  - destruct (_ || _).
    + split; [intro Hs; exact Hs | now exists text].
    + split; [apply read_upto_bound | apply read_upto_prefix].
  - split; [intro Hs; exact Hs | reflexivity].
Qed.

Lemma indexed_rows_shape_witness :
  In Example.row_b (Db.visible (Cli.conn_of Example.fresh))
  \/ (In (Db.filepath Example.row_b) [Example.file_a; Example.file_b]
      /\ Db.filename Example.row_b = Py.basename (Db.filepath Example.row_b)
      /\ ~ In "/"%char (Db.filename Example.row_b)
      /\ exists sample,
           Db.content Example.row_b = Some sample
           /\ (0 <= 10240 -> Py.len sample <= 10240)
           /\ match Db.read_file Example.world0 (Db.filepath Example.row_b) with
              | Some text => exists rest, text = sample ++ rest
              | None => sample = []
              end).
Proof.
  apply (indexed_rows_shape Z Example.world0 [Example.file_a; Example.file_b]
           100 10240 Example.fresh
           (snd (Cli.index_text_files Example.world0
                   [Example.file_a; Example.file_b] 100 10240 Example.fresh))).
  - lia.
  - vm_compute. reflexivity.
  - vm_compute. right. left. reflexivity.
Defined.



(** X3.  A batch size that is not positive indexes nothing, whatever the
    files and whatever becomes of the messages: the connection is left as it
    was.  When the two opening messages are printed, with 0 the call raises
    [ValueError] before the first file is read; with a negative size it
    comes to the closing message after no round at all, and returns when
    that message is printed.  The call returns only for a negative size, and
    an exception it raises is that [ValueError] or the exception of a
    [print]. *)
Theorem nonpositive_batch_indexes_nothing :
  forall (R : Type) (w : Db.world R) (txt_files : list Py.str)
         (batch_size sample_size : Z) (st : Cli.state),
    batch_size <= 0 ->
    Cli.conn_of (snd (Cli.index_text_files w txt_files batch_size sample_size st))
    = Cli.conn_of st
    /\ (Db.print_raises w Db.Indexing_from = None ->
        Db.print_raises w (Db.Found (Py.len txt_files)) = None ->
        (batch_size < 0 ->
         Db.print_raises w (Db.Indexing_complete (Py.len txt_files)) = None) ->
        fst (Cli.index_text_files w txt_files batch_size sample_size st)
        = (if batch_size =? 0 then Py.Raised Py.ValueError
           else Py.Returned Cli.NoneV))
    /\ (forall v,
          fst (Cli.index_text_files w txt_files batch_size sample_size st)
          = Py.Returned v ->
          v = Cli.NoneV /\ batch_size < 0)
    /\ (forall e,
          fst (Cli.index_text_files w txt_files batch_size sample_size st)
          = Py.Raised e ->
          (batch_size = 0 /\ e = Py.ValueError)
          \/ exists l, Db.print_raises w l = Some e).
Proof.
  intros R w txt_files batch_size sample_size st Hb.
  assert (Hrange : Cli.range 0 (Py.len txt_files) batch_size
                   = if batch_size =? 0 then Py.Raised Py.ValueError
                     else Py.Returned []).
  { destruct (batch_size =? 0) eqn:E0.
    - apply Z.eqb_eq in E0. subst batch_size. reflexivity.
    - apply Z.eqb_neq in E0. apply range_negative_step; unfold Py.len; lia. }
  unfold Cli.index_text_files, Cli.and_then, Cli.lift, Cli.ret, Cli.print.
  rewrite Hrange.
  destruct (Db.print_raises w Db.Indexing_from) as [e1|] eqn:E1.
  { cbn [fst snd]. split; [reflexivity|]. split; [discriminate|].
    split; [discriminate|].
    intros e [= <-]. right. now exists Db.Indexing_from. }
  destruct (Db.print_raises w (Db.Found (Py.len txt_files))) as [e2|] eqn:E2.
  { cbn [fst snd Cli.conn_of]. split; [reflexivity|].
    split; [intros _ H; discriminate H|]. split; [discriminate|].
    intros e [= <-]. right. now exists (Db.Found (Py.len txt_files)). }
  destruct (batch_size =? 0) eqn:E0.
  { apply Z.eqb_eq in E0. cbn [fst snd Cli.conn_of].
    split; [reflexivity|]. split; [reflexivity|]. split; [discriminate|].
    intros e [= <-]. now left. }
  apply Z.eqb_neq in E0. cbn [Cli.for_each]. unfold Cli.ret.
  assert (Hneg : batch_size < 0) by lia.
  destruct (Db.print_raises w (Db.Indexing_complete (Py.len txt_files)))
    as [e3|] eqn:E3; cbn [fst snd Cli.conn_of].
  - split; [reflexivity|].
    split; [intros _ _ H; specialize (H Hneg); discriminate H|].
    split; [discriminate|].
    intros e [= <-]. right.
    now exists (Db.Indexing_complete (Py.len txt_files)).
  - split; [reflexivity|]. split; [reflexivity|].
    split; [|discriminate].
    intros v0 [= <-]. now split.
Qed.

Lemma nonpositive_batch_indexes_nothing_witness :
  Cli.conn_of
    (snd (Cli.index_text_files Example.world0
            [Example.file_a; Example.file_b] (-5) 10240 Example.fresh))
  = Cli.conn_of Example.fresh
  /\ fst (Cli.index_text_files Example.world0
            [Example.file_a; Example.file_b] (-5) 10240 Example.fresh)
     = Py.Returned Cli.NoneV.
Proof.
  assert (Hb : -5 <= 0) by lia.
  destruct (nonpositive_batch_indexes_nothing Z Example.world0
              [Example.file_a; Example.file_b] (-5) 10240 Example.fresh Hb)
    as (Hc & Hr & _).
  split; [exact Hc|]. now apply Hr.
Defined.

(* ===================================================================== *)
(** * Further properties of the query construction *)
(* ===================================================================== *)

Section QuotingMore.
Import Py.

Lemma undouble_double_quotes (query : str) :
  Props.undouble (Spec.double_quotes query) = query.
Proof.
  induction query as [|c q IH]; [reflexivity|].
  unfold Spec.double_quotes in *. simpl flat_map.
  destruct (Ascii.eqb c dquote) eqn:E.
  - apply Ascii.eqb_eq in E. subst c. simpl. now rewrite IH.
  - simpl app. simpl Props.undouble. rewrite E. simpl andb.
    rewrite IH. destruct (flat_map _ q) eqn:Eq; [|reflexivity].
    rewrite <- IH. reflexivity.
Qed.

Lemma double_quotes_keeps_space (query : str) :
  In " "%char query -> In " "%char (Spec.double_quotes query).
Proof.
  intro H. unfold Spec.double_quotes. apply in_flat_map.
  exists " "%char. split; [exact H|]. simpl. now left.
Qed.

End QuotingMore.

(** X4.  The escaping of a phrase loses nothing: reading each doubled quote
    of the escaped query as one quote gives the query back, and two
    different queries never reach the engine as the same string. *)
Theorem quoted_query_injective :
  forall query1 query2 : Py.str,
    Props.undouble (Py.replace [Py.dquote] [Py.dquote; Py.dquote] query1) = query1
    /\ (Cli.quoted_query query1 = Cli.quoted_query query2 -> query1 = query2)
    /\ (Web.quoted_query query1 = Web.quoted_query query2 -> query1 = query2).
Proof.
  intros query1 query2.
  split; [rewrite escaped_query_spec; apply undouble_double_quotes|].
  assert (H : forall a b,
             (if Py.contains (Py.lit " ") a then Spec.phrase a else a)
             = (if Py.contains (Py.lit " ") b then Spec.phrase b else b) ->
             a = b).
  { assert (Hmixed : forall a b, Py.contains (Py.lit " ") a = true ->
                       Py.contains (Py.lit " ") b = false ->
                       Spec.phrase a <> b).
    { intros a b Ha Hb E. subst b.
      apply (contains_single " "%char) in Ha.
      assert (In " "%char (Spec.phrase a)).
      { unfold Spec.phrase. apply in_or_app. right. apply in_or_app. left.
        now apply double_quotes_keeps_space. }
      apply (contains_single " "%char) in H.
      change [" "%char] with (Py.lit " ") in H. congruence. }
    intros a b.
    destruct (Py.contains (Py.lit " ") a) eqn:Ea,
             (Py.contains (Py.lit " ") b) eqn:Eb; intro E.
    - unfold Spec.phrase in E. simpl in E. injection E as E.
      apply app_inv_tail in E.
      rewrite <- (undouble_double_quotes a), <- (undouble_double_quotes b).
      now rewrite E.
    - exfalso. exact (Hmixed a b Ea Eb E).
    - exfalso. exact (Hmixed b a Eb Ea (eq_sym E)).
    - exact E. }
  split; intro E; apply H.
  - now rewrite <- !cli_quoted_query_spec.
  - now rewrite <- !web_quoted_query_spec.
Qed.

Lemma quoted_query_injective_witness :
  Py.lit "say hi" = Py.lit "say hi".
Proof.
  apply (proj1 (proj2 (quoted_query_injective (Py.lit "say hi") (Py.lit "say hi")))).
  reflexivity.
Defined.

(** X5.  The two modules build the same engine query for the same scope, and
    the query of scope "both" is the content query and the filename query
    joined by [OR]. *)
Theorem scopes_agree :
  forall query : Py.str,
    Cli.search_fts_query query
    = Cli.search_content_only_fts_query query ++ Py.lit " OR "
        ++ Cli.search_filename_only_fts_query query
    /\ Web.fts_query query (Py.lit "content")
       = Cli.search_content_only_fts_query query
    /\ Web.fts_query query (Py.lit "filename")
       = Cli.search_filename_only_fts_query query
    /\ Web.fts_query query (Py.lit "all") = Cli.search_fts_query query.
Proof.
  intro query.
  assert (H : Cli.search_fts_query query
              = Cli.search_content_only_fts_query query ++ Py.lit " OR "
                  ++ Cli.search_filename_only_fts_query query).
  { unfold Cli.search_fts_query, Cli.search_content_only_fts_query,
      Cli.search_filename_only_fts_query, Cli.quoted_query.
    destruct (Py.contains (Py.lit " ") query); cbv zeta;
      rewrite <- ?app_assoc; reflexivity. }
  split; [exact H|]. split; [reflexivity|]. split; [reflexivity|].
  rewrite H. unfold Web.fts_query, Cli.search_content_only_fts_query,
    Cli.search_filename_only_fts_query.
  simpl. rewrite <- ?app_assoc. reflexivity.
Qed.

(* ===================================================================== *)
(** * The interactive loop *)
(* ===================================================================== *)

Section Stripping.
Import Py PyExt.

Lemma lstrip_blanks (blanks s : str) :
  forallb is_space blanks = true -> lstrip (blanks ++ s) = lstrip s.
Proof.
  induction blanks as [|b bs IH]; intro H; [reflexivity|].
  simpl in *. apply andb_true_iff in H. destruct H as [Hb Hbs].
  rewrite Hb. now apply IH.
Qed.

Lemma lstrip_head (s : str) : is_space (hd " "%char s) = false -> lstrip s = s.
Proof. destruct s as [|c s]; simpl; intro H; [reflexivity | now rewrite H]. Qed.

Lemma hd_app (a b : str) (d : ascii) : a <> [] -> hd d (a ++ b) = hd d a.
Proof. destruct a; [contradiction | reflexivity]. Qed.

Lemma hd_rev (s : str) (d : ascii) : hd d (rev s) = last s d.
Proof.
  induction s as [|c s IH] using rev_ind; [reflexivity|].
  rewrite rev_unit, last_last. reflexivity.
Qed.

Lemma forallb_rev_true {A : Type} (f : A -> bool) (l : list A) :
  forallb f l = true -> forallb f (rev l) = true.
Proof.
  rewrite !forallb_forall. intros H x Hx. apply H. now apply in_rev.
Qed.

Lemma not_blank_nonempty (s : str) :
  is_space (hd " "%char s) = false -> s <> [].
Proof. destruct s; [discriminate | discriminate]. Qed.

(** Blanks around a text that neither starts nor ends with a blank are
    what [strip] removes. *)
Lemma strip_padding (before s after : str) :
  forallb is_space before = true -> forallb is_space after = true ->
  is_space (hd " "%char s) = false -> is_space (last s " "%char) = false ->
  strip (before ++ s ++ after) = s.
Proof.
  intros Hb Ha Hh Hl. unfold strip, rstrip.
  rewrite (lstrip_blanks before) by assumption.
  pose proof (not_blank_nonempty s Hh) as Hne.
  rewrite (lstrip_head (s ++ after))
    by (rewrite hd_app by assumption; assumption).
  rewrite rev_app_distr, (lstrip_blanks (rev after))
    by (now apply forallb_rev_true).
  rewrite (lstrip_head (rev s)) by (now rewrite hd_rev).
  apply rev_involutive.
Qed.

Lemma cut_at_space_none (s : str) : ~ In " "%char s -> cut_at_space s = None.
Proof.
  induction s as [|c s IH]; intro H; [reflexivity|]. simpl.
  destruct (Ascii.eqb c " "%char) eqn:E.
  - apply Ascii.eqb_eq in E. subst c. exfalso. apply H. now left.
  - rewrite IH; [reflexivity|]. intro Hin. apply H. now right.
Qed.

Lemma cut_at_space_first (word rest : str) :
  ~ In " "%char word -> cut_at_space (word ++ " "%char :: rest) = Some (word, rest).
Proof.
  induction word as [|c word IH]; intro H; [reflexivity|]. simpl.
  destruct (Ascii.eqb c " "%char) eqn:E.
  - apply Ascii.eqb_eq in E. subst c. exfalso. apply H. now left.
  - rewrite IH; [reflexivity|]. intro Hin. apply H. now right.
Qed.

Lemma cut_at_space_some (s before after : str) :
  cut_at_space s = Some (before, after) ->
  s = before ++ " "%char :: after /\ ~ In " "%char before.
Proof.
  revert before. induction s as [|c s IH]; intros before H; [discriminate|].
  simpl in H. destruct (Ascii.eqb c " "%char) eqn:E.
  - apply Ascii.eqb_eq in E. subst c. injection H as <- <-. split; auto.
  - destruct (cut_at_space s) as [[b a]|]; [|discriminate].
    injection H as <- <-. destruct (IH b eq_refl) as [-> Hb]. split; [reflexivity|].
    intros [->|Hin]; [discriminate E | auto].
Qed.

Lemma lower_space_only (c : ascii) : lower c = " "%char -> c = " "%char.
Proof.
  destruct c as [[] [] [] [] [] [] [] []]; vm_compute; intro H;
    solve [reflexivity | discriminate H].
Qed.

End Stripping.

Section Loop.
Import Py PyExt Db.
Context {R : Type} (w : world R).

Lemma str_eqb_eq (a b : str) : str_eqb a b = true <-> a = b.
Proof.
  unfold str_eqb. destruct (list_eq_dec ascii_dec a b); split; congruence.
Qed.

Lemma in_list_In (x : str) (l : list str) : in_list x l = true <-> In x l.
Proof.
  unfold in_list. rewrite existsb_exists. split.
  - intros (y & Hy & E). apply str_eqb_eq in E. now subst y.
  - intro H. exists x. split; [exact H | now apply str_eqb_eq].
Qed.

Lemma quit_word_no_space (x : str) : In x Props.quit_words -> ~ In " "%char x.
Proof.
  intros [<-|[<-|[<-|[]]]] H; simpl in H;
    repeat (destruct H as [H|H]; [discriminate H|]); exact H.
Qed.

Lemma lower_str_space (s : str) : In " "%char (lower_str s) <-> In " "%char s.
Proof.
  unfold lower_str. rewrite in_map_iff. split.
  - intros (c & Hc & Hin). apply lower_space_only in Hc. now subst c.
  - intro H. exists " "%char. split; [reflexivity | exact H].
Qed.

(** What [show] prints for the result of one of the three searches. *)
Lemma show_search (query fts_query : str) (limit : Z) :
  Main.show query
    (results <- fts_match w fts_query limit ;;
     Returned (Cli.full_results w results))
  = Props.answer w query (fts_match w fts_query limit).
Proof.
  destruct (fts_match w fts_query limit) as [[|h hits]|e]; try reflexivity.
  unfold Props.answer, Main.show, Cli.full_results, Cli.load_full_content.
  simpl. do 2 f_equal. rewrite map_map. reflexivity.
Qed.

Lemma answer_cases (query : str) (rows : outcome (list (hit R))) :
  match Props.answer w query rows with
  | Main.Error _ | Main.No_results | Main.Listing _ _ => True
  | _ => False
  end.
Proof. destruct rows as [[|h hits]|e]; exact I. Qed.

Lemma command_step_unfold (line : str) :
  Main.command_step w line
  = let user_input := strip line in
    if in_list (lower_str user_input) Props.quit_words then Main.Break
    else
      match user_input with
      | [] => Main.Continue_silently
      | _ =>
          match cut_at_space user_input with
          | Some (command_word, query) =>
              Props.dispatch w (lower_str command_word) query
          | None => Main.Usage
          end
      end.
Proof.
  unfold Main.command_step, Props.dispatch, split_once. cbv zeta.
  change [lit "quit"; lit "exit"; lit "q"] with Props.quit_words.
  destruct (in_list (lower_str (strip line)) Props.quit_words); [reflexivity|].
  destruct (strip line) as [|c u]; [reflexivity|].
  destruct (cut_at_space (c :: u)) as [[command_word query]|]; [|reflexivity].
  unfold Cli.search_content_only, Cli.search_filename_only, Cli.search,
    Cli.search_content_only_fts_query, Cli.search_filename_only_fts_query.
  rewrite !show_search.
  destruct (str_eqb (lower_str command_word) (lit "search")); [reflexivity|].
  destruct (str_eqb (lower_str command_word) (lit "content")); reflexivity.
Qed.

Lemma dispatch_cases (command query : str) :
  match Props.dispatch w command query with
  | Main.Error _ | Main.No_results | Main.Listing _ _
  | Main.Unknown_command _ => True
  | _ => False
  end.
Proof.
  unfold Props.dispatch.
  destruct (str_eqb command (lit "search") || str_eqb command (lit "content")).
  { pose proof (answer_cases query
      (fts_match w (lit "content:" ++ Cli.quoted_query query) 10000)) as H.
    destruct (Props.answer w query _); auto. }
  destruct (str_eqb command (lit "filename")).
  { pose proof (answer_cases query
      (fts_match w (lit "filename:" ++ Cli.quoted_query query) 10000)) as H.
    destruct (Props.answer w query _); auto. }
  destruct (str_eqb command (lit "all")); [|exact I].
  pose proof (answer_cases query
    (fts_match w (Cli.search_fts_query query) 10000)) as H.
  destruct (Props.answer w query _); auto.
Qed.

End Loop.

Section LoopLines.
Import Py PyExt Db.

Lemma lower_blank (c : ascii) : is_space c = true -> lower c = c.
Proof.
  destruct c as [[] [] [] [] [] [] [] []]; vm_compute; intro H;
    solve [reflexivity | discriminate H].
Qed.

Lemma hd_lower_str (s : str) : hd " "%char (lower_str s) = lower (hd " "%char s).
Proof. destruct s; reflexivity. Qed.

Lemma last_lower_str (s : str) :
  last (lower_str s) " "%char = lower (last s " "%char).
Proof.
  induction s as [|c s IH] using rev_ind; [reflexivity|].
  unfold lower_str in *. rewrite map_app. simpl map. now rewrite !last_last.
Qed.

Lemma not_blank_lower (c : ascii) : is_space (lower c) = false -> is_space c = false.
Proof.
  intro H. destruct (is_space c) eqn:E; [|reflexivity].
  rewrite (lower_blank c E) in H. congruence.
Qed.

Lemma quit_word_ends (word : str) :
  In (lower_str word) Props.quit_words ->
  is_space (hd " "%char word) = false /\ is_space (last word " "%char) = false.
Proof.
  intro H. split; apply not_blank_lower.
  - rewrite <- hd_lower_str. destruct H as [<-|[<-|[<-|[]]]]; reflexivity.
  - rewrite <- last_lower_str. destruct H as [<-|[<-|[<-|[]]]]; reflexivity.
Qed.

End LoopLines.

(** X6.  One round of the interactive loop of [main], by the line typed.
    The loop ends exactly when the line, without the blanks at its ends and in
    lower case, is [quit], [exit] or [q]; so these words end it in any letter
    case and with any blanks around.  An empty or blank line is passed over
    in silence.  A line of one word that is no such word gets the usage
    message, and no search is run. *)
Theorem command_line_classes :
  forall (R : Type) (w : Db.world R) (line : Py.str),
    (Main.command_step w line = Main.Break
     <-> In (PyExt.lower_str (PyExt.strip line)) Props.quit_words)
    /\ (Main.command_step w line = Main.Continue_silently
        <-> PyExt.strip line = [])
    /\ (Main.command_step w line = Main.Usage
        <-> PyExt.strip line <> []
            /\ ~ In (PyExt.lower_str (PyExt.strip line)) Props.quit_words
            /\ ~ In " "%char (PyExt.strip line))
    /\ (forall before word after : Py.str,
          forallb PyExt.is_space before = true ->
          forallb PyExt.is_space after = true ->
          In (PyExt.lower_str word) Props.quit_words ->
          Main.command_step w (before ++ word ++ after) = Main.Break).
Proof.
  intros R w line.
  assert (Hcases : forall l : Py.str,
    (Main.command_step w l = Main.Break
     <-> In (PyExt.lower_str (PyExt.strip l)) Props.quit_words)
    /\ (Main.command_step w l = Main.Continue_silently
        <-> PyExt.strip l = [])
    /\ (Main.command_step w l = Main.Usage
        <-> PyExt.strip l <> []
            /\ ~ In (PyExt.lower_str (PyExt.strip l)) Props.quit_words
            /\ ~ In " "%char (PyExt.strip l))).
  { intro l. rewrite command_step_unfold. cbv zeta.
    rewrite <- in_list_In.
    destruct (PyExt.in_list (PyExt.lower_str (PyExt.strip l)) Props.quit_words)
      eqn:Eq.
    { split; [tauto|]. split.
      - split; [discriminate|]. intro E. rewrite E in Eq. discriminate Eq.
      - split; [discriminate|]. intros (_ & H & _). congruence. }
    destruct (PyExt.strip l) as [|c u] eqn:Eu.
    { split; [split; [discriminate | congruence]|].
      split; [tauto|]. split; [discriminate | tauto]. }
    destruct (PyExt.cut_at_space (c :: u)) as [[command_word query]|] eqn:Ec.
    - pose proof (dispatch_cases w (PyExt.lower_str command_word) query) as Hd.
      apply cut_at_space_some in Ec. destruct Ec as [Ecut _].
      split; [split; [intro E; rewrite E in Hd; destruct Hd | congruence]|].
      split; [split; [intro E; rewrite E in Hd; destruct Hd | discriminate]|].
      split; [intro E; rewrite E in Hd; destruct Hd|].
      intros (_ & _ & Hno). exfalso. apply Hno. rewrite Ecut.
      apply in_or_app. right. now left.
    - split; [split; [discriminate | congruence]|].
      split; [split; [discriminate | discriminate]|].
      split; [|reflexivity]. intros _. split; [discriminate|].
      split; [congruence|].
      intro Hin. apply in_split in Hin. destruct Hin as (a & b & Hab).
      revert Ec. rewrite Hab. clear. revert b.
      induction a as [|x a IH]; intro b; simpl.
      + discriminate.
      + destruct (Ascii.eqb x " "%char); [discriminate|].
        specialize (IH b). destruct (PyExt.cut_at_space (a ++ " "%char :: b))
          as [[p q]|]; [discriminate | congruence]. }
  destruct (Hcases line) as (H1 & H2 & H3).
  split; [exact H1|]. split; [exact H2|]. split; [exact H3|].
  intros before word after Hb Ha Hw.
  apply (proj1 (Hcases (before ++ word ++ after))).
  destruct (quit_word_ends word Hw) as [Hh Hl].
  now rewrite strip_padding.
Qed.

Lemma command_line_classes_witness :
  Main.command_step Example.world0 (Py.lit "  " ++ Py.lit "Quit" ++ Py.lit " ")
  = Main.Break.
Proof.
  apply (proj2 (proj2 (proj2 (command_line_classes Z Example.world0 [])))).
  - reflexivity.
  - reflexivity.
  - vm_compute. left. reflexivity.
Defined.



(* ===================================================================== *)
(** * Further properties of snippets and highlighting *)
(* ===================================================================== *)

Section SnippetsMore.
Import Py.

Lemma forallb_false {A : Type} (f : A -> bool) (l : list A) :
  forallb f l = false -> exists x, In x l /\ f x = false.
Proof.
  induction l as [|a l IH]; simpl; [discriminate|].
  destruct (f a) eqn:E; simpl.
  - intro H. destruct (IH H) as (x & Hx & Hf). exists x. auto.
  - intros _. exists a. auto.
Qed.

(** The query occurs somewhere in the text, or nowhere. *)
Lemma occurrence_dec (q text : str) :
  (exists j, Spec.occurs_at q text j) \/ (forall j, ~ Spec.occurs_at q text j).
Proof.
  destruct (Spec.no_match_before q text (S (length text))) eqn:E.
  - right. now apply no_occurrence_test.
  - left. unfold Spec.no_match_before in E. apply forallb_false in E.
    destruct E as (j & Hj & Hm). apply in_seq in Hj.
    exists j. apply occurs_at_iff. split; [lia|].
    now destruct (Re.match_here q (skipn j text)).
Qed.

(** The window around the first occurrence, for a window size that is not
    negative. *)
Lemma snippet_window_form (query text : str) (w : Z) (i : nat) :
  Spec.first_occurrence query text i -> 0 <= w ->
  let start := Z.to_nat (Z.max 0 (Z.of_nat i - w)) in
  let stop := Z.to_nat (Z.min (len text) (Z.of_nat i + len query + w)) in
  Web.snippet query w text
  = (if (0 <? start)%nat then Web.ellipsis else [])
      ++ firstn (stop - start) (skipn start text)
      ++ (if (stop <? length text)%nat then Web.ellipsis else [])
  /\ (start <= i)%nat /\ (i + length query <= stop <= length text)%nat.
Proof.
  intros Hfirst Hw start stop.
  destruct (finditer_first _ _ _ Hfirst) as [rest Hscan].
  pose proof (occurs_at_bounds _ _ _ (proj1 Hfirst)) as Hb.
  unfold len in *. split; [|unfold start, stop; lia].
  unfold Web.snippet. rewrite Hscan. cbv zeta.
  rewrite slice_nonneg by (unfold len; lia). unfold len.
  replace (Z.of_nat (i + length query)) with (Z.of_nat i + Z.of_nat (length query))
    by lia.
  set (a := Z.max 0 (Z.of_nat i - w)).
  set (b := Z.min (Z.of_nat (length text))
                  (Z.of_nat i + Z.of_nat (length query) + w)).
  replace (Z.min b (Z.of_nat (length text))) with b by (unfold b; lia).
  replace (Z.to_nat (b - a)) with (stop - start)%nat
    by (unfold start, stop, a, b; lia).
  change (Z.to_nat a) with start.
  replace (0 <? a) with (0 <? start)%nat.
  2:{ unfold start. fold a. destruct (0 <? a) eqn:E.
      - apply Z.ltb_lt in E. apply Nat.ltb_lt. lia.
      - apply Z.ltb_ge in E. apply Nat.ltb_ge. lia. }
  replace (b <? Z.of_nat (length text)) with (stop <? length text)%nat.
  2:{ unfold stop. fold b. destruct (b <? Z.of_nat (length text)) eqn:E.
      - apply Z.ltb_lt in E. apply Nat.ltb_lt. unfold b in *. lia.
      - apply Z.ltb_ge in E. apply Nat.ltb_ge. unfold b in *. lia. }
  destruct (0 <? start)%nat, (stop <? length text)%nat; simpl;
    rewrite ?app_nil_r, <- ?app_assoc; reflexivity.
Qed.

Lemma snippet_fallback_form (query text : str) (w : Z) :
  (forall j, ~ Spec.occurs_at query text j) -> 0 <= w ->
  Web.snippet query w text
  = firstn (Z.to_nat (2 * w)) text
      ++ (if 2 * w <? len text then Web.ellipsis else []).
Proof.
  intros Hno Hw. unfold Web.snippet. rewrite (finditer_none _ _ Hno). cbv zeta.
  rewrite (Z.mul_comm w 2), slice_head by lia.
  destruct (2 * w <? len text); [reflexivity | now rewrite app_nil_r].
Qed.

(** An occurrence is wrapped, or starts inside one that is. *)
Lemma occurrence_wrapped (q s : str) (i : nat) :
  q <> [] -> Spec.occurs_at q s i ->
  exists p, Spec.wrapped q s (Re.sub q Web.highlight s) p.
Proof.
  intros Hq Hocc.
  destruct (scan_covers q Hq (length s) s (le_n _) 0%nat i Hocc)
    as (k & Hin & _).
  destruct (scan_match_replaced Web.highlight q Hq (length s) s (le_n _)
              _ _ _ Hin) as (pre & m & post & E & _ & Hci & Hsub).
  exists (length pre), pre, m, post. repeat split; assumption.
Qed.

(** Without an occurrence of the pattern, [re.sub] changes nothing. *)
Lemma sub_no_occurrence (repl : str -> str) (q s : str) :
  (forall i, ~ Spec.occurs_at q s i) -> Re.sub q repl s = s.
Proof.
  induction s as [|c s IH]; intro Hno.
  - apply sub_nil. intros ->. apply (Hno 0%nat). now apply occurs_at_head.
  - rewrite sub_skip.
    + rewrite IH; [reflexivity|]. intros i Hi.
      apply (Hno (S i)). now apply occurs_at_cons.
    + destruct (Re.match_here q (c :: s)) eqn:E; [|reflexivity].
      exfalso. apply (Hno 0%nat). now apply occurs_at_head.
Qed.

End SnippetsMore.

(** X8.  With a window size that is not negative, the snippet of a text in
    which the query occurs contains the first occurrence, so the highlighted
    snippet of a non-empty query shows at least one highlighted match, in the
    casing of the text. *)
Theorem snippet_shows_a_match :
  forall (query text : Py.str) (w : Z) (j : nat),
    query <> [] -> 0 <= w -> Spec.occurs_at query text j ->
    (exists k, Spec.occurs_at query (Web.snippet query w text) k)
    /\ exists before m after,
         Spec.ci_equal query m
         /\ Web.highlighted_snippet query w text
            = before ++ Web.highlight m ++ after.
Proof.
  intros query text w j Hq Hw Hocc.
  destruct (first_occurrence_exists _ _ _ Hocc) as [i Hfirst].
  destruct (snippet_window_form query text w i Hfirst Hw) as (Hs & Hlo & Hhi).
  cbv zeta in Hs, Hlo, Hhi.
  set (start := Z.to_nat (Z.max 0 (Z.of_nat i - w))) in *.
  set (stop := Z.to_nat
                 (Z.min (Py.len text) (Z.of_nat i + Py.len query + w))) in *.
  destruct (proj1 Hfirst) as (pre & m & post & Etext & Hpre & Hci).
  pose proof (ci_equal_length _ _ Hci) as Hlen.
  assert (Hk : exists k, Spec.occurs_at query (Web.snippet query w text) k).
  { exists (length (if (0 <? start)%nat then Web.ellipsis else [])
            + (i - start))%nat.
    rewrite Hs. apply occurs_at_iff. split.
    - rewrite !length_app, length_firstn, length_skipn. lia.
    - rewrite skipn_app, skipn_all2 by lia. simpl app.
      replace (length (if (0 <? start)%nat then Web.ellipsis else [])
               + (i - start)
               - length (if (0 <? start)%nat then Web.ellipsis else []))%nat
        with (i - start)%nat by lia.
      rewrite skipn_app. apply match_here_extend.
      rewrite skipn_firstn_comm, skipn_skipn.
      replace (i - start + start)%nat with i by lia.
      rewrite Etext, <- Hpre, skipn_length_app.
      rewrite firstn_app.
      apply match_here_extend. rewrite firstn_all2 by lia.
      apply match_here_spec. exists m, []. now rewrite app_nil_r. }
  split; [exact Hk|]. destruct Hk as [k Hk].
  destruct (occurrence_wrapped _ _ _ Hq Hk)
    as (p & pre' & m' & post' & _ & _ & Hci' & Hout).
  eexists. exists m'. eexists. split; [exact Hci' | exact Hout].
Qed.

Lemma snippet_shows_a_match_witness :
  exists before m after,
    Spec.ci_equal (Py.lit "paris") m
    /\ Web.highlighted_snippet (Py.lit "paris") 3 (Py.lit "Clinton flew to Paris")
       = before ++ Web.highlight m ++ after.
Proof.
  assert (Hq : Py.lit "paris" <> []) by discriminate.
  assert (Hw : 0 <= 3) by lia.
  assert (Hocc : Spec.occurs_at (Py.lit "paris")
                   (Py.lit "Clinton flew to Paris") 16).
  { apply occurs_at_iff. split; [vm_compute; lia | vm_compute; reflexivity]. }
  exact (proj2 (snippet_shows_a_match (Py.lit "paris")
                  (Py.lit "Clinton flew to Paris") 3 16 Hq Hw Hocc)).
Defined.

(** X9.  With a window size [w] that is not negative, a snippet is never
    longer than the query, [w] characters on each side and the two marks
    "...": at most [2 * w + len(query) + 6] characters; and a text of at most
    [w] characters is its own snippet, without any mark. *)
Theorem snippet_length_bound :
  forall (query text : Py.str) (w : Z),
    0 <= w ->
    Py.len (Web.snippet query w text) <= 2 * w + Py.len query + 6
    /\ (Py.len text <= w -> Web.snippet query w text = text).
Proof.
  intros query text w Hw.
  destruct (occurrence_dec query text) as [[j Hocc]|Hno].
  - destruct (first_occurrence_exists _ _ _ Hocc) as [i Hfirst].
    destruct (snippet_window_form query text w i Hfirst Hw) as (Hs & Hlo & Hhi).
    cbv zeta in Hs, Hlo, Hhi. rewrite Hs. clear Hs.
    set (start := Z.to_nat (Z.max 0 (Z.of_nat i - w))) in *.
    set (stop := Z.to_nat
                   (Z.min (Py.len text) (Z.of_nat i + Py.len query + w))) in *.
    split.
    + unfold Py.len. rewrite !length_app, length_firstn, length_skipn.
      assert (length (if (0 <? start)%nat then Web.ellipsis else []) <= 3)%nat
        by (destruct (0 <? start)%nat; simpl; lia).
      assert (length (if (stop <? length text)%nat then Web.ellipsis else [])
              <= 3)%nat
        by (destruct (stop <? length text)%nat; simpl; lia).
      unfold start, stop, Py.len in *. lia.
    + intro Hshort. unfold Py.len in *.
      assert (start = 0)%nat as -> by (unfold start; lia).
      assert (stop = length text) as -> by (unfold stop, Py.len; lia).
      rewrite !Nat.ltb_irrefl. simpl. rewrite app_nil_r, Nat.sub_0_r.
      apply firstn_all.
  - rewrite (snippet_fallback_form query text w Hno Hw). split.
    + unfold Py.len. rewrite length_app.
      pose proof (firstn_le_length (Z.to_nat (2 * w)) text).
      pose proof (eq_refl : length Web.ellipsis = 3%nat).
      destruct (2 * w <? Z.of_nat (length text));
        [rewrite H0 | change (length (@nil ascii)) with 0%nat]; lia.
    + intro Hshort. unfold Py.len in *.
      destruct (2 * w <? Z.of_nat (length text)) eqn:E;
        [apply Z.ltb_lt in E; lia|].
      rewrite app_nil_r. apply firstn_all2. lia.
Qed.

Lemma snippet_length_bound_witness :
  Py.len (Web.snippet (Py.lit "Paris") 3 (Py.lit "Clinton flew to Paris today"))
  <= 2 * 3 + Py.len (Py.lit "Paris") + 6.
Proof.
  apply (snippet_length_bound (Py.lit "Paris")
           (Py.lit "Clinton flew to Paris today") 3).
  lia.
Defined.

(** X10.  A snippet in which the query does not occur comes out of the
    highlighting unchanged (the case of a row that matched by its file name
    only). *)
Theorem highlight_without_match :
  forall (query text : Py.str) (w : Z),
    (forall i, ~ Spec.occurs_at query (Web.snippet query w text) i) ->
    Web.highlighted_snippet query w text = Web.snippet query w text.
Proof.
  intros query text w Hno. unfold Web.highlighted_snippet.
  now apply sub_no_occurrence.
Qed.

Lemma highlight_without_match_witness :
  Web.highlighted_snippet (Py.lit "Epstein") 4 (Py.lit "Paris is lovely")
  = Web.snippet (Py.lit "Epstein") 4 (Py.lit "Paris is lovely").
Proof.
  apply (highlight_without_match (Py.lit "Epstein") (Py.lit "Paris is lovely") 4).
  apply no_occurrence_test. vm_compute. reflexivity.
Defined.

Section Previews.
Import Py.

Lemma head_preview (n : Z) (text : str) :
  0 <= n ->
  let preview := slice text None (Some n) ++ (if n <? len text then lit "..." else []) in
  len preview <= n + 3
  /\ (len text <= n -> preview = text)
  /\ (n < len text -> preview = firstn (Z.to_nat n) text ++ lit "...").
Proof.
  intros Hn preview. unfold preview. rewrite slice_head by assumption.
  unfold len. destruct (n <? Z.of_nat (length text)) eqn:E.
  - apply Z.ltb_lt in E. rewrite length_app, length_firstn. simpl.
    repeat split; try lia; try reflexivity.
  - apply Z.ltb_ge in E. rewrite app_nil_r.
    pose proof (firstn_le_length (Z.to_nat n) text).
    repeat split; try lia. intros _. apply firstn_all2. lia.
Qed.

End Previews.

(** X11.  The previews: the one of the web results is the text itself when it
    has at most 1000 characters and its first 1000 characters followed by
    "..." otherwise; the one the interactive loop prints does the same with
    500.  Neither is longer than its limit plus three. *)
Theorem previews_bounded :
  forall text : Py.str,
    (Py.len (Web.content_preview text) <= 1003
     /\ (Py.len text <= 1000 -> Web.content_preview text = text)
     /\ (1000 < Py.len text ->
         Web.content_preview text = firstn 1000 text ++ Py.lit "..."))
    /\ (Py.len (Main.content_preview text) <= 503
        /\ (Py.len text <= 500 -> Main.content_preview text = text)
        /\ (500 < Py.len text ->
            Main.content_preview text = firstn 500 text ++ Py.lit "...")).
Proof.
  intro text. split.
  - assert (H : 0 <= 1000) by lia.
    exact (head_preview 1000 text H).
  - assert (H : 0 <= 500) by lia.
    pose proof (head_preview 500 text H) as Hp. cbv zeta in Hp.
    unfold Main.content_preview.
    destruct (500 <? Py.len text); [exact Hp|].
    rewrite app_nil_r in Hp. exact Hp.
Qed.

Lemma previews_bounded_witness :
  Web.content_preview (Py.lit "Paris is lovely") = Py.lit "Paris is lovely".
Proof.
  apply (proj1 (proj2 (proj1 (previews_bounded (Py.lit "Paris is lovely"))))).
  vm_compute. discriminate.
Defined.

(* ===================================================================== *)
(** * Further properties of the web search and of the image route *)
(* ===================================================================== *)

Section WebMore.
Import Py Db.
Context {R : Type} (w : world R).

Lemma for_each_all_returned {A B : Type} (f : A -> outcome B) (g : A -> B)
  (xs : list A) :
  (forall x, In x xs -> f x = Returned (g x)) ->
  for_each f xs = Returned (map g xs).
Proof.
  induction xs as [|x xs IH]; intro H; [reflexivity|].
  simpl. rewrite (H x) by now left. simpl.
  rewrite IH by (intros y Hy; apply H; now right). reflexivity.
Qed.

Lemma int_digits_returned (s : str) : forall (acc n : Z),
  int_digits acc s = Returned n -> forallb is_decimal_char s = true.
Proof.
  induction s as [|c s IH]; intros acc n H; [reflexivity|].
  simpl in *. destruct (is_decimal_char c); [|discriminate H].
  simpl. exact (IH _ _ H).
Qed.

Lemma int_returned (s : str) (n : Z) :
  int s = Returned n -> s <> [] /\ forallb is_decimal_char s = true.
Proof.
  unfold int. destruct s as [|c s]; [discriminate|].
  destruct (max_str_digits <? len (c :: s)); [discriminate|].
  intro H. split; [discriminate|]. exact (int_digits_returned _ _ _ H).
Qed.

(** [int] on a string of decimal digits: a value up to 4300 digits,
    [ValueError] beyond. *)
Lemma int_decimal (s : str) :
  s <> [] -> forallb is_decimal_char s = true ->
  if max_str_digits <? len s then int s = Raised ValueError
  else exists n, int s = Returned n.
Proof.
  intros Hne Hd. unfold int. destruct s as [|c s]; [contradiction|].
  destruct (max_str_digits <? len (c :: s)); [reflexivity|].
  now apply int_digits_decimal.
Qed.

Lemma decimal_not_dot (c : ascii) : is_decimal_char c = true -> c <> "."%char.
Proof. intros H ->. discriminate H. Qed.

Lemma decimal_not_slash (c : ascii) : is_decimal_char c = true -> c <> "/"%char.
Proof. intros H ->. discriminate H. Qed.

(** Before the first dot of a text there is no "..". *)
Lemma contains_dotdot_after (u s : str) :
  ~ In "."%char u -> contains (lit "..") (u ++ s) = contains (lit "..") s.
Proof.
  induction u as [|c u IH]; intro H; [reflexivity|].
  simpl app.
  change (contains (lit "..") (c :: u ++ s))
    with (startswith (c :: u ++ s) (lit "..") || contains (lit "..") (u ++ s)).
  assert (E : startswith (c :: u ++ s) (lit "..") = false).
  { unfold startswith. change (lit "..") with ["."%char; "."%char].
    cbn [prefix_by]. destruct (Ascii.eqb "."%char c) eqn:E.
    - apply Ascii.eqb_eq in E. subst c. exfalso. apply H. now left.
    - reflexivity. }
  rewrite E. simpl orb. apply IH. intro Hin. apply H. now right.
Qed.

Lemma path_join_under (a b : str) (c : ascii) :
  startswith b (lit "/") = false -> c <> "/"%char ->
  Web.path_join (a ++ [c]) b = a ++ [c] ++ lit "/" ++ b.
Proof.
  intros Hb Hc. unfold Web.path_join. rewrite Hb, rev_unit.
  destruct (Ascii.eqb c "/"%char) eqn:E.
  - apply Ascii.eqb_eq in E. contradiction.
  - now rewrite <- app_assoc.
Qed.

End WebMore.

(** X12.  When the engine answers and every row has a text to cut from (its
    file can be read, or its indexed sample is not NULL), [search_database]
    returns one result per row, in the order of the engine, with the path,
    the name and the rank of the row. *)
Theorem search_database_results :
  forall (R : Type) (w : Db.world R) (query : Py.str) (snippet_length : Z)
         (search_type : Py.str) (rows : list (Db.hit R)),
    Db.connect_raises w = false ->
    Db.fts_match w (Web.fts_query query search_type) 10000 = Py.Returned rows ->
    (forall h, In h rows -> Web.full_content_of w h <> None) ->
    exists results,
      Web.search_database w query snippet_length search_type
      = (Py.Returned results, [Web.Connect; Web.Close])
      /\ length results = length rows
      /\ map (fun r => (Web.file_path r, Web.file_name r, Web.rank r)) results
         = map (fun h => (Db.filepath (Db.h_row h), Db.filename (Db.h_row h),
                          Db.h_rank h)) rows.
Proof.
  intros R w query snippet_length search_type rows Hc Hrows Htext.
  set (g := fun h : Db.hit R =>
              {| Web.file_path := Db.filepath (Db.h_row h);
                 Web.file_name := Db.filename (Db.h_row h);
                 Web.snippet_html :=
                   Web.highlighted_snippet query snippet_length
                     (match Web.full_content_of w h with
                      | Some text => text
                      | None => []
                      end);
                 Web.rank := Db.h_rank h;
                 Web.preview :=
                   Web.content_preview
                     (match Web.full_content_of w h with
                      | Some text => text
                      | None => []
                      end) |}).
  exists (map g rows).
  unfold Web.search_database, Web.search_database_body.
  rewrite Hc, Hrows. simpl Py.bind.
  rewrite (for_each_all_returned _ g).
  - split; [reflexivity|]. split; [apply length_map|].
    rewrite map_map. reflexivity.
  - intros h Hin. unfold Web.row_result, g.
    specialize (Htext h Hin).
    destruct (Web.full_content_of w h); [reflexivity | contradiction].
Qed.

Lemma search_database_results_witness :
  exists results,
    Web.search_database Example.world0 (Py.lit "Paris") 5 (Py.lit "content")
    = (Py.Returned results, [Web.Connect; Web.Close])
    /\ length results = 2%nat
    /\ map (fun r => (Web.file_path r, Web.file_name r, Web.rank r)) results
       = [ (Example.file_a, Py.lit "a.txt", -2);
           (Example.file_gone, Py.lit "gone.txt", -1) ].
Proof.
  apply (search_database_results Z Example.world0 (Py.lit "Paris") 5
           (Py.lit "content")
           [ {| Db.h_row := Example.row_a; Db.h_rank := -2 |};
             {| Db.h_row := Example.row_gone; Db.h_rank := -1 |} ]).
  - reflexivity.
  - vm_compute. reflexivity.
  - intros h [<-|[<-|[]]]; vm_compute; discriminate.
Defined.

(** X13.  For a directory token without a digit character that is no decimal
    digit.  [view_image] raises (a 500 answer of the framework) exactly when
    the token is a string of more than 4300 digits, which [int] refuses with
    [ValueError]; otherwise it answers.  It answers 400 exactly when the
    token is not a non-empty string of digits, or [int] gives it a value
    outside 1..12, or [int] gives it a value and the file name contains ".."
    or starts with a slash. *)
Theorem view_image_400_iff :
  forall (R : Type) (w : Db.world R) (dir_num filename : Py.str),
    (forall c, In c dir_num ->
       Py.is_digit_char c = true -> Py.is_decimal_char c = true) ->
    let too_long :=
      Py.isdigit dir_num = true /\ Py.max_str_digits < Py.len dir_num in
    (Web.view_image w dir_num filename = Py.Raised Py.ValueError <-> too_long)
    /\ ((exists answer, Web.view_image w dir_num filename = Py.Returned answer)
        <-> ~ too_long)
    /\ ((exists body,
           Web.view_image w dir_num filename = Py.Returned (Web.Status 400 body))
        <-> (Py.isdigit dir_num = false
             \/ (exists n, Py.int dir_num = Py.Returned n /\ (n < 1 \/ 12 < n))
             \/ ((exists n, Py.int dir_num = Py.Returned n)
                 /\ (Py.contains (Py.lit "..") filename = true
                     \/ Py.startswith filename (Py.lit "/") = true)))).
Proof.
  intros R w dir_num filename Hdec too_long. unfold too_long.
  destruct (Py.isdigit dir_num) eqn:Ed.
  2:{ rewrite view_image_not_digits by assumption.
      split; [split; [discriminate | intros [H _]; discriminate H]|].
      split; [split; [intros _ [H _]; discriminate H | intros _; now eexists]|].
      split; [auto | intros _; now eexists]. }
  assert (Hne : dir_num <> []) by (intros ->; discriminate Ed).
  assert (Hall : forallb Py.is_decimal_char dir_num = true).
  { apply forallb_forall. intros c Hc. apply Hdec; [exact Hc|].
    unfold Py.isdigit in Ed. destruct dir_num; [discriminate|].
    rewrite forallb_forall in Ed. now apply Ed. }
  pose proof (int_decimal dir_num Hne Hall) as Hint.
  destruct (Py.max_str_digits <? Py.len dir_num) eqn:El.
  { apply Z.ltb_lt in El.
    assert (Hv : Web.view_image w dir_num filename = Py.Raised Py.ValueError).
    { unfold Web.view_image, Web.invalid_directory. now rewrite Ed, Hint. }
    rewrite Hv. split; [split; auto|].
    split; [split; [intros [a Ha]; discriminate Ha | intro H; now destruct H]|].
    split; [intros [b Hb]; discriminate Hb|].
    intros [H|[(n & Hn & _)|[(n & Hn) _]]]; try discriminate H;
      rewrite Hint in Hn; discriminate Hn. }
  apply Z.ltb_ge in El. destruct Hint as [n Hn].
  assert (Hshort : ~ (true = true /\ Py.max_str_digits < Py.len dir_num))
    by (intros [_ H]; lia).
  assert (Hnot : forall a : Web.response,
            Py.Returned a = Py.Raised Py.ValueError
            <-> true = true /\ Py.max_str_digits < Py.len dir_num).
  { intro a. split; [discriminate | intro H; now destruct (Hshort H)]. }
  destruct (Z_lt_dec n 1) as [H1|H1]; [|destruct (Z_lt_dec 12 n) as [H2|H2]].
  - rewrite (view_image_out_of_range w dir_num filename n Ed Hn) by lia.
    split; [apply Hnot|]. split; [split; [auto | intros _; now eexists]|].
    split; [|intros _; now eexists].
    intros _. right. left. exists n. split; [exact Hn | lia].
  - rewrite (view_image_out_of_range w dir_num filename n Ed Hn) by lia.
    split; [apply Hnot|]. split; [split; [auto | intros _; now eexists]|].
    split; [|intros _; now eexists].
    intros _. right. left. exists n. split; [exact Hn | lia].
  - rewrite (view_image_in_range w dir_num filename n Ed Hn) by lia.
    cbv zeta.
    destruct (Py.contains (Py.lit "..") filename) eqn:Ec; cbn [orb].
    { split; [apply Hnot|]. split; [split; [auto | intros _; now eexists]|].
      split; [|intros _; now eexists].
      intros _. right. right. split; [now exists n | now left]. }
    destruct (Py.startswith filename (Py.lit "/")) eqn:Es.
    { split; [apply Hnot|]. split; [split; [auto | intros _; now eexists]|].
      split; [|intros _; now eexists].
      intros _. right. right. split; [now exists n | now right]. }
    destruct (Db.is_file w _).
    + split; [apply Hnot|]. split; [split; [auto | intros _; now eexists]|].
      split.
      * intros [body Hb]. discriminate Hb.
      * intros [H|[(n' & Hn' & Hr)|[_ [H|H]]]]; try discriminate H.
        rewrite Hn in Hn'. injection Hn' as <-. lia.
    + split; [apply Hnot|]. split; [split; [auto | intros _; now eexists]|].
      split.
      * intros [body Hb]. discriminate Hb.
      * intros [H|[(n' & Hn' & Hr)|[_ [H|H]]]]; try discriminate H.
        rewrite Hn in Hn'. injection Hn' as <-. lia.
Qed.

Lemma view_image_400_iff_witness :
  exists body,
    Web.view_image Example.world0 (Py.lit "0013") (Py.lit "photo.jpg")
    = Py.Returned (Web.Status 400 body).
Proof.
  assert (Hdec : forall c, In c (Py.lit "0013") ->
                   Py.is_digit_char c = true -> Py.is_decimal_char c = true).
  { intros c Hc _. simpl in Hc.
    destruct Hc as [<-|[<-|[<-|[<-|[]]]]]; reflexivity. }
  apply (proj2 (proj2 (proj2 (view_image_400_iff Z Example.world0
                                (Py.lit "0013") (Py.lit "photo.jpg") Hdec)))).
  right. left. exists 13. split; [reflexivity | lia].
Defined.

(** X14.  [view_image] serves a file only from a numbered directory under
    the base directory: the path it sends is the base directory, the token
    (a string of decimal digits with a value between 1 and 12), a slash and
    the file name; the file exists, and the path contains no "..". *)
Theorem view_image_sends_under_base :
  forall (R : Type) (w : Db.world R) (dir_num filename path : Py.str),
    Web.view_image w dir_num filename = Py.Returned (Web.Send_file path) ->
    path = Py.lit "/home/jon/Documents/Epstein dump nov 12/" ++ dir_num
             ++ Py.lit "/" ++ filename
    /\ Db.is_file w path = true
    /\ forallb Py.is_decimal_char dir_num = true
    /\ (exists n, Py.int dir_num = Py.Returned n /\ 1 <= n <= 12)
    /\ Py.contains (Py.lit "..") path = false.
Proof.
  intros R w dir_num filename path H.
  unfold Web.view_image, Web.invalid_directory in H.
  destruct (Py.isdigit dir_num) eqn:Ed; cbn [negb Py.bind] in H;
    [|discriminate H].
  destruct (Py.int dir_num) as [n|e] eqn:Hn; cbn [Py.bind] in H;
    [|discriminate H].
  destruct (n <? 1) eqn:E1; cbn [Py.bind] in H; [discriminate H|].
  destruct (12 <? n) eqn:E2; cbn [Py.bind] in H; [discriminate H|].
  destruct (Py.contains (Py.lit "..") filename) eqn:Ec; cbn [orb] in H;
    [discriminate H|].
  destruct (Py.startswith filename (Py.lit "/")) eqn:Es; [discriminate H|].
  apply Z.ltb_ge in E1, E2.
  destruct (int_returned _ _ Hn) as [Hne Hall].
  destruct dir_num as [|c0 d0] using rev_ind; [contradiction|]. clear IHd0.
  assert (Hc0 : Py.is_decimal_char c0 = true).
  { rewrite forallb_forall in Hall. apply Hall. apply in_or_app. right. now left. }
  rewrite app_assoc in H.
  rewrite (path_join_under _ filename c0 Es (decimal_not_slash _ Hc0)) in H.
  assert (Epath : (Py.lit "/home/jon/Documents/Epstein dump nov 12/" ++ d0)
                    ++ [c0] ++ Py.lit "/" ++ filename
                  = Py.lit "/home/jon/Documents/Epstein dump nov 12/"
                      ++ (d0 ++ [c0]) ++ Py.lit "/" ++ filename)
    by (now rewrite <- !app_assoc).
  rewrite Epath in H. clear Epath.
  set (p0 := Py.lit "/home/jon/Documents/Epstein dump nov 12/"
               ++ (d0 ++ [c0]) ++ Py.lit "/" ++ filename) in *.
  destruct (Db.is_file w p0) eqn:Ef; [|discriminate H].
  assert (Hp : path = p0) by congruence. subst path. clear H.
  split; [reflexivity|]. split; [exact Ef|]. split; [exact Hall|].
  split; [exists n; split; [reflexivity | lia]|].
  unfold p0.
  replace (Py.lit "/home/jon/Documents/Epstein dump nov 12/"
             ++ (d0 ++ [c0]) ++ Py.lit "/" ++ filename)
    with ((Py.lit "/home/jon/Documents/Epstein dump nov 12/"
             ++ (d0 ++ [c0]) ++ Py.lit "/") ++ filename)
    by (now rewrite <- !app_assoc).
  rewrite contains_dotdot_after; [exact Ec|].
  intro Hin. apply in_app_or in Hin. destruct Hin as [Hin|Hin].
  - simpl in Hin. repeat (destruct Hin as [Hin|Hin]; [discriminate Hin|]).
    exact Hin.
  - apply in_app_or in Hin. destruct Hin as [Hin|[Hin|[]]].
    + rewrite forallb_forall in Hall. apply (decimal_not_dot _ (Hall _ Hin)).
      reflexivity.
    + discriminate Hin.
Qed.

Lemma view_image_sends_under_base_witness :
  Props.photo
  = Py.lit "/home/jon/Documents/Epstein dump nov 12/" ++ Py.lit "007"
      ++ Py.lit "/" ++ Py.lit "DOC1.jpg"
  /\ Db.is_file Props.world_photo Props.photo = true
  /\ forallb Py.is_decimal_char (Py.lit "007") = true
  /\ (exists n, Py.int (Py.lit "007") = Py.Returned n /\ 1 <= n <= 12)
  /\ Py.contains (Py.lit "..") Props.photo = false.
Proof.
  apply (view_image_sends_under_base Z Props.world_photo (Py.lit "007")
           (Py.lit "DOC1.jpg") Props.photo).
  vm_compute. reflexivity.
Defined.

(* ===================================================================== *)
(** * The pages: [find_corresponding_image] and [view_file] *)
(* ===================================================================== *)

Section ImageSearch.
Import Py PyExt.
Variable disk : Pages.site.

Lemma first_some_some {A B : Type} (f : A -> option B) (xs : list A) (y : B) :
  Pages.first_some f xs = Some y -> exists x, In x xs /\ f x = Some y.
Proof.
  induction xs as [|x xs IH]; simpl; [discriminate|].
  destruct (f x) as [y'|] eqn:E.
  - intros [= ->]. exists x. auto.
  - intro H. destruct (IH H) as (x' & Hin & Hf). exists x'. auto.
Qed.

Lemma first_some_none {A B : Type} (f : A -> option B) (xs : list A) :
  Pages.first_some f xs = None <-> forall x, In x xs -> f x = None.
Proof.
  induction xs as [|x xs IH]; simpl.
  - split; [intros _ x [] | reflexivity].
  - destruct (f x) as [y|] eqn:E.
    + split; [discriminate|]. intro H. rewrite <- E. apply H. now left.
    + rewrite IH. split.
      * intros H x' [<-|Hin]; auto.
      * intros H x' Hin. apply H. now right.
Qed.

Lemma find_none_iff {A : Type} (f : A -> bool) (l : list A) :
  find f l = None <-> forall x, In x l -> f x = false.
Proof.
  split; [apply find_none|].
  induction l as [|a l IH]; intro H; [reflexivity|]. simpl.
  rewrite (H a) by now left. apply IH. intros x Hx. apply H. now right.
Qed.

Lemma range_1_13 : Cli.range_up 1 13 1 = [1; 2; 3; 4; 5; 6; 7; 8; 9; 10; 11; 12].
Proof. vm_compute. reflexivity. Qed.

Lemma in_range_1_13 (i : Z) : In i (Cli.range_up 1 13 1) <-> 1 <= i <= 12.
Proof.
  rewrite range_1_13. simpl. split.
  - intros H. repeat (destruct H as [<-|H]; [lia|]). destruct H.
  - intro H.
    assert (i = 1 \/ i = 2 \/ i = 3 \/ i = 4 \/ i = 5 \/ i = 6 \/ i = 7
            \/ i = 8 \/ i = 9 \/ i = 10 \/ i = 11 \/ i = 12) by lia.
    intuition.
Qed.

Lemma path_join_plain (a b : str) :
  startswith b (lit "/") = false -> last a "/"%char <> "/"%char ->
  Web.path_join a b = a ++ lit "/" ++ b.
Proof.
  intros Hb Ha. unfold Web.path_join. rewrite Hb.
  destruct a as [|x a] using rev_ind; [contradiction|].
  rewrite rev_unit. rewrite last_last in Ha.
  destruct (Ascii.eqb x "/"%char) eqn:E; [|reflexivity].
  apply Ascii.eqb_eq in E. contradiction.
Qed.

Lemma splitext_root_incl (p : str) (x : ascii) :
  In x (fst (splitext p)) -> In x p.
Proof.
  unfold splitext.
  destruct (rfind "/"%char p <? rfind "."%char p); [|exact (fun H => H)].
  destruct (existsb _ _); [|exact (fun H => H)].
  simpl. apply slice_incl.
Qed.

(** The base name of the images of a text file has no slash in it. *)
Lemma base_name_no_slash (txt_path : str) :
  ~ In "/"%char (fst (splitext (basename txt_path))).
Proof.
  intro H. apply splitext_root_incl in H.
  exact (proj1 (basename_spec txt_path) H).
Qed.

Lemma extension_starts_with_dot (ext : str) :
  In ext Pages.image_extensions -> exists rest, ext = "."%char :: rest.
Proof.
  intro H. simpl in H.
  repeat (destruct H as [<-|H]; [eexists; reflexivity|]). destruct H.
Qed.

Lemma candidate_not_absolute (base_name ext : str) :
  ~ In "/"%char base_name -> In ext Pages.image_extensions ->
  startswith (base_name ++ ext) (lit "/") = false.
Proof.
  intros Hb He. destruct (extension_starts_with_dot ext He) as [rest ->].
  change (lit "/") with ["/"%char]. rewrite startswith_single.
  destruct base_name as [|c b]; [reflexivity|].
  simpl app. destruct (Ascii.eqb "/"%char c) eqn:E; [|reflexivity].
  apply Ascii.eqb_eq in E. subst c. exfalso. apply Hb. now left.
Qed.

Lemma text_dir_here_some (s sub_dir : str) :
  Pages.text_dir_here s = Some sub_dir ->
  exists d1 d2 d3,
    sub_dir = [d1; d2; d3]
    /\ is_decimal_char d1 = true /\ is_decimal_char d2 = true
    /\ is_decimal_char d3 = true.
Proof.
  unfold Pages.text_dir_here.
  destruct s as [|a [|b [|c [|d [|e [|f [|d1 [|d2 [|d3 [|g s]]]]]]]]]];
    try discriminate.
  destruct (str_eqb _ _); simpl; [|discriminate].
  destruct (is_decimal_char d1) eqn:E1; simpl; [|discriminate].
  destruct (is_decimal_char d2) eqn:E2; simpl; [|discriminate].
  destruct (is_decimal_char d3) eqn:E3; simpl; [|discriminate].
  destruct (Ascii.eqb g "/"%char); [|discriminate].
  intros [= <-]. now exists d1, d2, d3.
Qed.

Lemma search_text_dir_some (s sub_dir : str) :
  Pages.search_text_dir s = Some sub_dir ->
  exists d1 d2 d3,
    sub_dir = [d1; d2; d3]
    /\ is_decimal_char d1 = true /\ is_decimal_char d2 = true
    /\ is_decimal_char d3 = true.
Proof.
  induction s as [|c s IH].
  - discriminate.
  - change (Pages.search_text_dir (c :: s))
      with (match Pages.text_dir_here (c :: s) with
            | Some sd => Some sd
            | None => Pages.search_text_dir s
            end).
    destruct (Pages.text_dir_here (c :: s)) as [sd|] eqn:E.
    + intros [= <-]. exact (text_dir_here_some _ _ E).
    + exact IH.
Qed.

(** The candidates of a directory [d] of three decimal digits, and of the
    numbered directories. *)
Lemma candidate_in_text_dir (d1 d2 d3 : ascii) (base_name ext : str) :
  is_decimal_char d3 = true ->
  ~ In "/"%char base_name -> In ext Pages.image_extensions ->
  Web.path_join (lit "/home/jon/Documents/Epstein dump nov 12/" ++ [d1; d2; d3])
    (base_name ++ ext)
  = Props.image_path [d1; d2; d3] (base_name ++ ext).
Proof.
  intros Hd Hb He. rewrite path_join_plain.
  - reflexivity.
  - now apply candidate_not_absolute.
  - simpl. now apply decimal_not_slash.
Qed.

Lemma candidate_in_numbered_dir (i : Z) (base_name ext : str) :
  1 <= i <= 12 ->
  ~ In "/"%char base_name -> In ext Pages.image_extensions ->
  Web.path_join (Web.path_join Pages.base_dir (format_03d i)) (base_name ++ ext)
  = Props.image_path (format_03d i) (base_name ++ ext).
Proof.
  intros Hi Hb He. apply in_range_1_13 in Hi. rewrite range_1_13 in Hi.
  simpl in Hi.
  repeat (destruct Hi as [<-|Hi];
          [ rewrite path_join_plain;
            [ reflexivity
            | now apply candidate_not_absolute
            | vm_compute; discriminate ] |]).
  destruct Hi.
Qed.

Lemma image_in_some (image_dir base_name image_path : str) :
  Pages.image_in disk image_dir base_name = Some image_path ->
  Pages.path_exists disk image_path = true
  /\ exists ext,
       In ext Pages.image_extensions
       /\ image_path = Web.path_join image_dir (base_name ++ ext).
Proof.
  unfold Pages.image_in. intro H. apply find_some in H.
  destruct H as [Hin Hex]. split; [exact Hex|].
  apply in_map_iff in Hin. destruct Hin as (ext & <- & He). now exists ext.
Qed.

Lemma image_in_none (image_dir base_name : str) :
  Pages.image_in disk image_dir base_name = None
  <-> forall ext, In ext Pages.image_extensions ->
        Pages.path_exists disk (Web.path_join image_dir (base_name ++ ext))
        = false.
Proof.
  unfold Pages.image_in. rewrite find_none_iff. split.
  - intros H ext He. apply H. apply in_map_iff. now exists ext.
  - intros H x Hx. apply in_map_iff in Hx. destruct Hx as (ext & <- & He).
    now apply H.
Qed.

End ImageSearch.

(** X15.  An image found for a text file exists, and it is one of the
    candidates: the base name of the text file with one of the twelve image
    extensions, in the directory named by the three digits that follow
    [/TEXT/] in the path of the text file, or, when no candidate exists
    there, in one of the numbered directories 001..012 that exist. *)
Theorem found_image_is_candidate :
  forall (disk : Pages.site) (txt_path image_path : Py.str),
    Pages.find_corresponding_image disk txt_path = Some image_path ->
    let base_name := fst (PyExt.splitext (Py.basename txt_path)) in
    Pages.path_exists disk image_path = true
    /\ exists d ext,
         In ext Pages.image_extensions
         /\ image_path = Props.image_path d (base_name ++ ext)
         /\ (Pages.search_text_dir txt_path = Some d
             \/ ((exists i,
                    1 <= i <= 12 /\ d = PyExt.format_03d i
                    /\ Pages.path_isdir disk (Web.path_join Pages.base_dir d)
                       = true)
                 /\ forall sub_dir other,
                      Pages.search_text_dir txt_path = Some sub_dir ->
                      In other Pages.image_extensions ->
                      Pages.path_exists disk
                        (Props.image_path sub_dir (base_name ++ other))
                      = false)).
Proof.
  intros disk txt_path image_path H base_name.
  pose proof (base_name_no_slash txt_path) as Hbn. fold base_name in Hbn.
  unfold Pages.find_corresponding_image in H. fold base_name in H. cbv zeta in H.
  destruct (Pages.search_text_dir txt_path) as [sub_dir|] eqn:Es.
  - destruct (search_text_dir_some _ _ Es) as (d1 & d2 & d3 & -> & _ & _ & Hd3).
    destruct (Pages.image_in disk _ base_name) as [ip|] eqn:Ei.
    + injection H as <-. apply image_in_some in Ei.
      destruct Ei as (Hex & ext & He & ->). split; [exact Hex|].
      exists [d1; d2; d3], ext. split; [exact He|].
      split; [now apply candidate_in_text_dir | now left].
    + apply first_some_some in H. destruct H as (i & Hi & Hf).
      apply in_range_1_13 in Hi.
      destruct (Pages.path_isdir disk _) eqn:Ed; [|discriminate Hf].
      apply image_in_some in Hf. destruct Hf as (Hex & ext & He & ->).
      split; [exact Hex|]. exists (PyExt.format_03d i), ext.
      split; [exact He|]. split; [now apply candidate_in_numbered_dir|].
      right. split; [now exists i|].
      intros sub_dir other [= <-] Ho.
      rewrite <- candidate_in_text_dir by assumption.
      exact (proj1 (image_in_none disk _ _) Ei other Ho).
  - apply first_some_some in H. destruct H as (i & Hi & Hf).
    apply in_range_1_13 in Hi.
    destruct (Pages.path_isdir disk _) eqn:Ed; [|discriminate Hf].
    apply image_in_some in Hf. destruct Hf as (Hex & ext & He & ->).
    split; [exact Hex|]. exists (PyExt.format_03d i), ext.
    split; [exact He|]. split; [now apply candidate_in_numbered_dir|].
    right. split; [now exists i | discriminate].
Qed.

Lemma found_image_is_candidate_witness :
  Pages.path_exists Props.site_photo Props.photo = true.
Proof.
  apply (found_image_is_candidate Props.site_photo Props.photo_text Props.photo).
  vm_compute. reflexivity.
Defined.

(** X16.  No image is found for a text file exactly when none of the
    candidates exists: neither in the directory named after [/TEXT/] in its
    path, nor in any of the numbered directories 001..012 that exist. *)
Theorem no_image_iff :
  forall (disk : Pages.site) (txt_path : Py.str),
    let base_name := fst (PyExt.splitext (Py.basename txt_path)) in
    Pages.find_corresponding_image disk txt_path = None
    <-> (forall sub_dir ext,
           Pages.search_text_dir txt_path = Some sub_dir ->
           In ext Pages.image_extensions ->
           Pages.path_exists disk (Props.image_path sub_dir (base_name ++ ext))
           = false)
        /\ (forall i ext,
              1 <= i <= 12 ->
              Pages.path_isdir disk
                (Web.path_join Pages.base_dir (PyExt.format_03d i)) = true ->
              In ext Pages.image_extensions ->
              Pages.path_exists disk
                (Props.image_path (PyExt.format_03d i) (base_name ++ ext))
              = false).
Proof.
  intros disk txt_path base_name.
  pose proof (base_name_no_slash txt_path) as Hbn. fold base_name in Hbn.
  assert (Hnum :
    Pages.first_some
      (fun i =>
         if Pages.path_isdir disk
              (Web.path_join Pages.base_dir (PyExt.format_03d i))
         then Pages.image_in disk
                (Web.path_join Pages.base_dir (PyExt.format_03d i)) base_name
         else None)
      (Cli.range_up 1 13 1) = None
    <-> (forall i ext,
           1 <= i <= 12 ->
           Pages.path_isdir disk
             (Web.path_join Pages.base_dir (PyExt.format_03d i)) = true ->
           In ext Pages.image_extensions ->
           Pages.path_exists disk
             (Props.image_path (PyExt.format_03d i) (base_name ++ ext))
           = false)).
  { rewrite first_some_none. split.
    - intros H i ext Hi Hd He. specialize (H i (proj2 (in_range_1_13 i) Hi)).
      rewrite Hd in H. rewrite <- candidate_in_numbered_dir by assumption.
      exact (proj1 (image_in_none disk _ _) H ext He).
    - intros H i Hi. apply in_range_1_13 in Hi.
      destruct (Pages.path_isdir disk _) eqn:Ed; [|reflexivity].
      apply image_in_none. intros ext He.
      rewrite candidate_in_numbered_dir by assumption. now apply H. }
  unfold Pages.find_corresponding_image. fold base_name. cbv zeta.
  destruct (Pages.search_text_dir txt_path) as [sub_dir|] eqn:Es.
  - destruct (search_text_dir_some _ _ Es) as (d1 & d2 & d3 & -> & _ & _ & Hd3).
    destruct (Pages.image_in disk _ base_name) as [ip|] eqn:Ei.
    + split; [discriminate|]. intros [H _]. exfalso.
      apply image_in_some in Ei. destruct Ei as (Hex & ext & He & ->).
      rewrite candidate_in_text_dir in Hex by assumption.
      rewrite (H [d1; d2; d3] ext eq_refl He) in Hex. discriminate Hex.
    + rewrite Hnum. split.
      * intro H. split; [|exact H]. intros sub_dir ext [= <-] He.
        rewrite <- candidate_in_text_dir by assumption.
        exact (proj1 (image_in_none disk _ _) Ei ext He).
      * intros [_ H]. exact H.
  - rewrite Hnum. split.
    + intro H. split; [discriminate | exact H].
    + intros [_ H]. exact H.
Qed.

Lemma no_image_iff_witness :
  Pages.path_exists Props.site_photo
    (Props.image_path (Py.lit "007") (Py.lit "DOC2" ++ Py.lit ".png"))
  = false.
Proof.
  assert (H : Pages.find_corresponding_image Props.site_photo
                (Py.lit "/data/TEXT/007/DOC2.txt") = None)
    by (vm_compute; reflexivity).
  apply (proj1 (proj1 (no_image_iff Props.site_photo
                         (Py.lit "/data/TEXT/007/DOC2.txt")) H)
           (Py.lit "007") (Py.lit ".png")).
  - vm_compute. reflexivity.
  - simpl. auto 10.
Defined.

Section ImageLink.
Import Py PyExt.

Lemma basename_acc_plain (name : str) : forall acc : str,
  ~ In "/"%char name -> basename_acc acc name = acc ++ name.
Proof.
  induction name as [|c name IH]; intros acc H; simpl.
  - now rewrite app_nil_r.
  - destruct (Ascii.eqb c "/"%char) eqn:E.
    + apply Ascii.eqb_eq in E. subst c. exfalso. apply H. now left.
    + rewrite IH by (intro Hin; apply H; now right).
      now rewrite <- app_assoc.
Qed.

Lemma basename_acc_last (x name : str) : forall acc : str,
  ~ In "/"%char name -> basename_acc acc (x ++ "/"%char :: name) = name.
Proof.
  induction x as [|c x IH]; intros acc H; simpl.
  - now rewrite basename_acc_plain.
  - destruct (Ascii.eqb c "/"%char); now apply IH.
Qed.

(** [os.path.basename] of a path that ends in a slash and a name. *)
Lemma basename_last (x name : str) :
  ~ In "/"%char name -> basename (x ++ "/"%char :: name) = name.
Proof. apply basename_acc_last. Qed.

Lemma prefix_by_eqb_incl (p s : str) (c : ascii) :
  prefix_by Ascii.eqb p s = true -> In c p -> In c s.
Proof.
  revert s. induction p as [|a p IH]; intros s H Hc; [destruct Hc|].
  destruct s as [|b s]; [discriminate H|]. simpl in H.
  apply andb_true_iff in H. destruct H as [Hab Hp].
  apply Ascii.eqb_eq in Hab. subst b.
  destruct Hc as [->|Hc]; [now left | right; now apply IH].
Qed.

Lemma prefix_by_tail (p x name : str) :
  ~ In "/"%char name -> In "/"%char p -> last p "x"%char = "/"%char ->
  prefix_by Ascii.eqb p (x ++ name) = prefix_by Ascii.eqb p x.
Proof.
  intros Hname. revert x. induction p as [|a p IH]; intros x Hin Hlast.
  - destruct Hin.
  - destruct x as [|b x].
    + simpl app. simpl (prefix_by _ _ []).
      destruct (prefix_by Ascii.eqb (a :: p) name) eqn:E; [|reflexivity].
      exfalso. apply Hname. exact (prefix_by_eqb_incl _ _ _ E Hin).
    + simpl. destruct p as [|a' p'].
      * reflexivity.
      * rewrite IH; [reflexivity| |exact Hlast].
        rewrite <- Hlast. simpl. clear.
        revert a'. induction p' as [|c p' IHp]; intro a'.
        -- now left.
        -- right. apply IHp.
Qed.

Lemma contains_no_slash (p name : str) :
  ~ In "/"%char name -> In "/"%char p -> contains p name = false.
Proof.
  intros Hname Hp. induction name as [|c name IH]; simpl.
  - unfold startswith. destruct p; [destruct Hp | reflexivity].
  - rewrite IH by (intro H; apply Hname; now right). rewrite orb_false_r.
    unfold startswith.
    destruct (prefix_by Ascii.eqb p (c :: name)) eqn:E; [|reflexivity].
    exfalso. apply Hname. exact (prefix_by_eqb_incl _ _ _ E Hp).
Qed.

(** A pattern that ends with a slash is not found later than the last slash
    of the text. *)
Lemma contains_tail (p x name : str) :
  ~ In "/"%char name -> In "/"%char p -> last p "x"%char = "/"%char ->
  contains p (x ++ name) = contains p x || false.
Proof.
  intros Hname Hp Hlast. induction x as [|b x IH].
  - simpl app. rewrite contains_no_slash by assumption.
    simpl. unfold startswith. destruct p; [destruct Hp | reflexivity].
  - change (contains p ((b :: x) ++ name))
      with (prefix_by Ascii.eqb p ((b :: x) ++ name) || contains p (x ++ name)).
    change (contains p (b :: x))
      with (prefix_by Ascii.eqb p (b :: x) || contains p x).
    rewrite (prefix_by_tail p (b :: x) name) by assumption.
    rewrite IH. now rewrite !orb_false_r.
Qed.

Lemma contains_step (p s : str) (c : ascii) :
  startswith (c :: s) p = false -> contains p (c :: s) = contains p s.
Proof. intro H. simpl. now rewrite H. Qed.

Lemma decimal_eqb_slash (c : ascii) :
  is_decimal_char c = true -> Ascii.eqb "/"%char c = false.
Proof.
  intro H. destruct (Ascii.eqb "/"%char c) eqn:E; [|reflexivity].
  apply Ascii.eqb_eq in E. subst c. discriminate H.
Qed.

Lemma startswith_decimal_head (c : ascii) (s p : str) :
  is_decimal_char c = true -> startswith (c :: s) ("/"%char :: p) = false.
Proof.
  intro H. unfold startswith. cbn [prefix_by].
  now rewrite (decimal_eqb_slash c H).
Qed.

Section Digits.
Variables (d1 d2 d3 : ascii) (name : str).
Hypotheses (H1 : is_decimal_char d1 = true) (H2 : is_decimal_char d2 = true)
           (H3 : is_decimal_char d3 = true)
           (Hname : ~ In "/"%char name).

(** Where a token of [dirs_with_numbers] can be found in the path of an
    image: only at the directory of three digits. *)
Lemma contains_token (rest : str) :
  last ("/"%char :: "0"%char :: rest) "x"%char = "/"%char ->
  contains ("/"%char :: "0"%char :: rest) (Props.image_path [d1; d2; d3] name)
  = startswith ["/"%char; d1; d2; d3; "/"%char] ("/"%char :: "0"%char :: rest).
Proof.
  intro Hlast.
  replace (Props.image_path [d1; d2; d3] name)
    with ((Pages.base_dir ++ ["/"%char; d1; d2; d3; "/"%char]) ++ name)
    by (unfold Props.image_path; rewrite <- !app_assoc; reflexivity).
  rewrite contains_tail; [|exact Hname|now left|exact Hlast].
  rewrite orb_false_r.
  unfold Pages.base_dir. cbn [lit list_ascii_of_string app].
  repeat (rewrite contains_step by reflexivity).
  cbn [contains].
  rewrite (startswith_decimal_head d1), (startswith_decimal_head d2),
    (startswith_decimal_head d3) by assumption.
  replace (startswith ["/"%char] ("/"%char :: "0"%char :: rest)) with false
    by reflexivity.
  replace (startswith [] ("/"%char :: "0"%char :: rest)) with false
    by reflexivity.
  now rewrite !orb_false_r.
Qed.

Lemma search_dir_file_unfold (s : str) :
  Pages.search_dir_file s
  = match Pages.dir_file_here s with
    | Some groups => Some groups
    | None =>
        match s with
        | [] => None
        | _ :: s' => Pages.search_dir_file s'
        end
    end.
Proof. destruct s; reflexivity. Qed.

Lemma search_dir_file_step (c : ascii) (s : str) :
  Pages.dir_file_here (c :: s) = None ->
  Pages.search_dir_file (c :: s) = Pages.search_dir_file s.
Proof. intro H. rewrite search_dir_file_unfold. now rewrite H. Qed.

Lemma existsb_slash_false (s : str) :
  ~ In "/"%char s -> existsb (Ascii.eqb "/"%char) s = false.
Proof.
  intro H. destruct (existsb (Ascii.eqb "/"%char) s) eqn:E; [|reflexivity].
  apply existsb_exists in E. destruct E as (x & Hx & Ex).
  apply Ascii.eqb_eq in Ex. subst x. contradiction.
Qed.

(** The pattern [/(\d{3})/([^/]+)$] finds the directory and the name. *)
Lemma search_dir_file_image (Hne : name <> []) :
  Pages.search_dir_file (Props.image_path [d1; d2; d3] name)
  = Some ([d1; d2; d3], name).
Proof.
  unfold Props.image_path, Pages.base_dir.
  cbn [lit list_ascii_of_string app].
  repeat (rewrite search_dir_file_step by reflexivity).
  rewrite search_dir_file_unfold. unfold Pages.dir_file_here.
  rewrite H1, H2, H3, existsb_slash_false by assumption.
  replace (str_eqb name []) with false; [reflexivity|].
  unfold str_eqb. destruct (list_eq_dec ascii_dec name []); [contradiction|].
  reflexivity.
Qed.

End Digits.

End ImageLink.

Section FoundImages.
Import Py PyExt.

Lemma dirs_with_numbers_tokens :
  map (fun i => lit "00" ++ str_of_int i) (Cli.range_up 1 13 1)
  = [lit "001"; lit "002"; lit "003"; lit "004"; lit "005"; lit "006";
     lit "007"; lit "008"; lit "009"; lit "0010"; lit "0011"; lit "0012"].
Proof. vm_compute. reflexivity. Qed.

(** The three characters of [f"{i:03d}"] for the numbers of the loop, and
    their value. *)
Lemma format_03d_digits (i : Z) :
  1 <= i <= 12 ->
  exists d1 d2 d3,
    format_03d i = [d1; d2; d3]
    /\ is_decimal_char d1 = true /\ is_decimal_char d2 = true
    /\ is_decimal_char d3 = true
    /\ int [d1; d2; d3] = Returned i.
Proof.
  intro Hi. apply in_range_1_13 in Hi. rewrite range_1_13 in Hi. simpl in Hi.
  repeat (destruct Hi as [<-|Hi];
          [ eexists _, _, _; vm_compute; repeat split; reflexivity |]).
  destruct Hi.
Qed.

(** The shape of a path returned by [find_corresponding_image]. *)
Lemma found_image_shape (disk : Pages.site) (txt_path image_path : str) :
  Pages.find_corresponding_image disk txt_path = Some image_path ->
  exists d1 d2 d3 ext,
    In ext Pages.image_extensions
    /\ image_path
       = Props.image_path [d1; d2; d3]
           (fst (splitext (basename txt_path)) ++ ext)
    /\ is_decimal_char d1 = true /\ is_decimal_char d2 = true
    /\ is_decimal_char d3 = true
    /\ (Pages.search_text_dir txt_path = Some [d1; d2; d3]
        \/ exists i, 1 <= i <= 12 /\ format_03d i = [d1; d2; d3]).
Proof.
  intro H. set (base_name := fst (splitext (basename txt_path))).
  pose proof (base_name_no_slash txt_path) as Hbn. fold base_name in Hbn.
  assert (Hnum : forall p,
    Pages.first_some
      (fun i =>
         if Pages.path_isdir disk (Web.path_join Pages.base_dir (format_03d i))
         then Pages.image_in disk
                (Web.path_join Pages.base_dir (format_03d i)) base_name
         else None)
      (Cli.range_up 1 13 1) = Some p ->
    exists d1 d2 d3 ext,
      In ext Pages.image_extensions
      /\ p = Props.image_path [d1; d2; d3] (base_name ++ ext)
      /\ is_decimal_char d1 = true /\ is_decimal_char d2 = true
      /\ is_decimal_char d3 = true
      /\ exists i, 1 <= i <= 12 /\ format_03d i = [d1; d2; d3]).
  { intros p Hp. apply first_some_some in Hp. destruct Hp as (i & Hi & Hf).
    apply in_range_1_13 in Hi.
    destruct (Pages.path_isdir disk _); [|discriminate Hf].
    apply image_in_some in Hf. destruct Hf as (_ & ext & He & ->).
    destruct (format_03d_digits i Hi) as (d1 & d2 & d3 & Ef & D1 & D2 & D3 & _).
    exists d1, d2, d3, ext. rewrite candidate_in_numbered_dir by assumption.
    rewrite Ef. repeat split; try assumption. now exists i. }
  unfold Pages.find_corresponding_image in H. fold base_name in H.
  cbv zeta in H.
  destruct (Pages.search_text_dir txt_path) as [sub_dir|] eqn:Es.
  - destruct (search_text_dir_some _ _ Es) as (d1 & d2 & d3 & -> & D1 & D2 & D3).
    destruct (Pages.image_in disk _ base_name) as [ip|] eqn:Ei.
    + injection H as <-. apply image_in_some in Ei.
      destruct Ei as (_ & ext & He & ->).
      exists d1, d2, d3, ext. rewrite candidate_in_text_dir by assumption.
      repeat split; try assumption. now left.
    + destruct (Hnum _ H) as (e1 & e2 & e3 & ext & He & Hp & E1 & E2 & E3 & Hi).
      exists e1, e2, e3, ext. repeat split; try assumption. now right.
  - destruct (Hnum _ H) as (e1 & e2 & e3 & ext & He & Hp & E1 & E2 & E3 & Hi).
    exists e1, e2, e3, ext. repeat split; try assumption. now right.
Qed.

Lemma candidate_name_nonempty (base_name ext : str) :
  In ext Pages.image_extensions -> base_name ++ ext <> [].
Proof.
  intros He H. destruct (extension_starts_with_dot ext He) as [rest ->].
  destruct base_name; discriminate H.
Qed.

Lemma candidate_name_no_slash (base_name ext : str) :
  ~ In "/"%char base_name -> In ext Pages.image_extensions ->
  ~ In "/"%char (base_name ++ ext).
Proof.
  intros Hb He H. apply in_app_or in H. destruct H as [H|H]; [now apply Hb|].
  simpl in He.
  repeat (destruct He as [<-|He];
          [ simpl in H;
            repeat (destruct H as [H|H]; [discriminate H|]); destruct H |]).
  destruct He.
Qed.

(** The link built from the path of an image in a directory of three
    decimal digits. *)
Lemma image_url_of_image_path (d1 d2 d3 : ascii) (name : str) :
  is_decimal_char d1 = true -> is_decimal_char d2 = true ->
  is_decimal_char d3 = true ->
  name <> [] -> ~ In "/"%char name ->
  Pages.image_url_of (Props.image_path [d1; d2; d3] name)
  = Some (lit "/view_image/" ++ [d1; d2; d3] ++ lit "/" ++ name).
Proof.
  intros D1 D2 D3 Hne Hname.
  unfold Pages.image_url_of. cbv zeta.
  replace (basename (Props.image_path [d1; d2; d3] name)) with name.
  2:{ symmetry.
      replace (Props.image_path [d1; d2; d3] name)
        with ((Pages.base_dir ++ lit "/" ++ [d1; d2; d3])
                ++ "/"%char :: name)
        by (unfold Props.image_path; rewrite <- !app_assoc; reflexivity).
      now apply basename_last. }
  rewrite dirs_with_numbers_tokens.
  destruct (find _ _) as [token|] eqn:Ef.
  - apply find_some in Ef. destruct Ef as [Hin Hc].
    simpl in Hin.
    repeat (destruct Hin as [<-|Hin];
      [ match type of Hc with
        | contains ?p _ = true =>
            let q := eval cbv in p in change p with q in Hc
        end;
        rewrite contains_token in Hc by (assumption || reflexivity);
        unfold startswith in Hc; cbn [prefix_by] in Hc;
        repeat match goal with
               | H : _ && _ = true |- _ =>
                   apply andb_true_iff in H; destruct H
               end;
        repeat match goal with
               | H : Ascii.eqb _ _ = true |- _ => apply Ascii.eqb_eq in H
               end;
        try congruence; subst; reflexivity |]).
    destruct Hin.
  - now rewrite search_dir_file_image.
Qed.

End FoundImages.

(** X17.  The link that [view_file] builds for an image in a directory of
    three decimal digits under the base directory names that directory and
    the file: the tokens "001" .. "009" are found in the path, the tokens
    "0010", "0011", "0012" never are, and the pattern [/(\d{3})/([^/]+)$]
    gives the same link for every other directory. *)
Theorem image_link_names_the_image :
  forall (d1 d2 d3 : ascii) (name : Py.str),
    Py.is_decimal_char d1 = true -> Py.is_decimal_char d2 = true ->
    Py.is_decimal_char d3 = true ->
    name <> [] -> ~ In "/"%char name ->
    Pages.image_url_of (Props.image_path [d1; d2; d3] name)
    = Some (Py.lit "/view_image/" ++ [d1; d2; d3] ++ Py.lit "/" ++ name)
    /\ (forall token,
          In token [Py.lit "0010"; Py.lit "0011"; Py.lit "0012"] ->
          Py.contains (Py.lit "/" ++ token ++ Py.lit "/")
            (Props.image_path [d1; d2; d3] name) = false).
Proof.
  intros d1 d2 d3 name D1 D2 D3 Hne Hname. split.
  - now apply image_url_of_image_path.
  - intros token Hin. simpl in Hin.
    repeat (destruct Hin as [<-|Hin];
      [ match goal with
        | |- Py.contains ?p _ = false =>
            let q := eval cbv in p in change p with q
        end;
        rewrite contains_token by (assumption || reflexivity);
        unfold Py.startswith; cbn [Py.prefix_by];
        destruct (Ascii.eqb "0" d1), (Ascii.eqb "0" d2), (Ascii.eqb "1" d3);
        reflexivity |]).
    destruct Hin.
Qed.

Lemma image_link_names_the_image_witness :
  Pages.image_url_of (Props.image_path (Py.lit "010") (Py.lit "DOC1.jpg"))
  = Some (Py.lit "/view_image/010/DOC1.jpg").
Proof.
  apply (image_link_names_the_image "0" "1" "0" (Py.lit "DOC1.jpg"));
    try reflexivity.
  - discriminate.
  - simpl. intros H.
    repeat (destruct H as [H|H]; [discriminate H|]). destruct H.
Defined.

(** X18.  The image link of a text file leads back to the image that was
    found for it: the path returned by [find_corresponding_image] is the
    base directory, a directory [d] of three decimal digits and a name; the
    link is [/view_image/d/name]; and [view_image], called with [d] and
    [name], sends that very file when the value of [d] is in 1..12, the name
    has no ".." and the path is a regular file, and answers 400 when the
    value of [d] is outside 1..12, which can only happen for a directory
    taken from [/TEXT/d/] in the path of the text file. *)
Theorem found_image_link :
  forall (disk : Pages.site) (txt_path image_path : Py.str),
    Pages.find_corresponding_image disk txt_path = Some image_path ->
    exists d name n,
      image_path = Props.image_path d name
      /\ Pages.image_url_of image_path
         = Some (Py.lit "/view_image/" ++ d ++ Py.lit "/" ++ name)
      /\ Py.int d = Py.Returned n
      /\ (Pages.search_text_dir txt_path <> Some d -> 1 <= n <= 12)
      /\ forall (R : Type) (w : Db.world R),
           (n < 1 \/ 12 < n ->
            Web.view_image w d name
            = Py.Returned (Web.Status 400 (Py.lit "Invalid directory")))
           /\ (1 <= n <= 12 -> Py.contains (Py.lit "..") name = false ->
               Web.view_image w d name
               = if Db.is_file w image_path
                 then Py.Returned (Web.Send_file image_path)
                 else Py.Returned (Web.Status 404 (Py.lit "File not found"))).
Proof.
  intros disk txt_path image_path H.
  destruct (found_image_shape disk txt_path image_path H)
    as (d1 & d2 & d3 & ext & He & -> & D1 & D2 & D3 & Hdir).
  set (base_name := fst (PyExt.splitext (Py.basename txt_path))) in *.
  pose proof (base_name_no_slash txt_path) as Hbn. fold base_name in Hbn.
  assert (Hdec : forallb Py.is_decimal_char [d1; d2; d3] = true)
    by (simpl; now rewrite D1, D2, D3).
  assert (Hdig : Py.isdigit [d1; d2; d3] = true)
    by (apply isdigit_decimal; [discriminate | exact Hdec]).
  destruct (int_digits_decimal [d1; d2; d3] 0 Hdec) as [n Hn].
  change (Py.int_digits 0 [d1; d2; d3]) with (Py.int [d1; d2; d3]) in Hn.
  exists [d1; d2; d3], (base_name ++ ext), n.
  split; [reflexivity|]. split.
  { apply image_url_of_image_path; try assumption.
    - now apply candidate_name_nonempty.
    - now apply candidate_name_no_slash. }
  split; [exact Hn|]. split.
  { intro Hs. destruct Hdir as [Hdir|(i & Hi & Ef)]; [contradiction|].
    destruct (format_03d_digits i Hi) as (e1 & e2 & e3 & Ef' & _ & _ & _ & Hv).
    rewrite Ef in Ef'. rewrite <- Ef' in Hv. rewrite Hv in Hn.
    injection Hn as <-. exact Hi. }
  intros R w. split.
  - intro Hr. now apply (view_image_out_of_range w _ _ n).
  - intros Hr Hdots. rewrite (view_image_in_range w _ _ n) by assumption.
    rewrite Hdots, candidate_not_absolute by assumption. cbn [orb].
    cbv zeta. rewrite candidate_in_text_dir by assumption. reflexivity.
Qed.

Lemma found_image_link_witness :
  Pages.find_corresponding_image Props.site_photo Props.photo_text
  = Some Props.photo
  /\ exists d name n,
       Props.photo = Props.image_path d name
       /\ Pages.image_url_of Props.photo
          = Some (Py.lit "/view_image/" ++ d ++ Py.lit "/" ++ name)
       /\ Py.int d = Py.Returned n.
Proof.
  assert (H : Pages.find_corresponding_image Props.site_photo Props.photo_text
              = Some Props.photo) by (vm_compute; reflexivity).
  split; [exact H|].
  destruct (found_image_link Props.site_photo Props.photo_text Props.photo H)
    as (d & name & n & Hp & Hu & Hn & _).
  exists d, name, n. split; [exact Hp|]. split; [exact Hu | exact Hn].
Defined.

(** X19.  What [view_file] can answer.  A page is rendered only for a path
    that exists and ends in [.txt], which is the path as given (with a
    leading slash added when it has none) or, when that one is no such
    file, its URL-decoded form; the content shown is the text of that file
    and the link is the one built from the image found for it.  The only
    other answers are 404, exactly when neither path is such a file, and
    500, when the file chosen cannot be read.  No directory is imposed on
    the path, and a missing leading slash makes no difference. *)
Theorem view_file_answers :
  forall (disk : Pages.site) (file_path : Py.str),
    let full_path :=
      if Py.startswith file_path (Py.lit "/") then file_path
      else Py.lit "/" ++ file_path in
    let decoded_path := Pages.unquote disk full_path in
    let is_text p :=
      Pages.path_exists disk p && PyExt.endswith p (Py.lit ".txt") in
    let chosen p :=
      p = full_path \/ (is_text full_path = false /\ p = decoded_path) in
    (forall p content image_url,
       Pages.view_file disk file_path = Pages.Rendered p content image_url
       <-> chosen p /\ is_text p = true
           /\ Pages.file_text disk p = Some content
           /\ image_url
              = match Pages.find_corresponding_image disk p with
                | Some image_path => Pages.image_url_of image_path
                | None => None
                end)
    /\ (forall code body,
          Pages.view_file disk file_path = Pages.Plain code body ->
          (code = 404 /\ is_text full_path = false
           /\ is_text decoded_path = false)
          \/ (code = 500
              /\ exists p,
                   chosen p /\ is_text p = true
                   /\ Pages.file_text disk p = None))
    /\ (Pages.view_file disk file_path = Pages.Plain 404 (Py.lit "File not found")
        <-> is_text full_path = false /\ is_text decoded_path = false)
    /\ Pages.view_file disk full_path = Pages.view_file disk file_path.
Proof.
  intros disk file_path full_path decoded_path is_text chosen.
  assert (Hfull : Py.startswith full_path (Py.lit "/") = true).
  { unfold full_path.
    destruct (Py.startswith file_path (Py.lit "/")) eqn:E;
      [exact E | reflexivity]. }
  assert (Hv : Pages.view_file disk file_path
               = if is_text full_path then Pages.render disk full_path
                 else if is_text decoded_path
                      then Pages.render disk decoded_path
                      else Pages.Plain 404 (Py.lit "File not found"))
    by reflexivity.
  assert (Hr : forall p,
            Pages.render disk p
            = match Pages.file_text disk p with
              | Some content =>
                  Pages.Rendered p content
                    (match Pages.find_corresponding_image disk p with
                     | Some image_path => Pages.image_url_of image_path
                     | None => None
                     end)
              | None => Pages.Plain 500 (Py.lit "Error reading file")
              end) by reflexivity.
  split; [|split; [|split]].
  - intros p content image_url. rewrite Hv. unfold chosen.
    destruct (is_text full_path) eqn:E1.
    + rewrite Hr. destruct (Pages.file_text disk full_path) as [c|] eqn:Ef.
      * split.
        -- intros [= <- <- <-]. rewrite E1, Ef. auto.
        -- intros ([->|[Hc _]] & _ & Hc2 & ->); [|discriminate Hc].
           rewrite Ef in Hc2. now injection Hc2 as ->.
      * split; [discriminate|].
        intros ([->|[Hc _]] & _ & Hc2 & _); [|discriminate Hc].
        rewrite Ef in Hc2. discriminate Hc2.
    + destruct (is_text decoded_path) eqn:E2.
      * rewrite Hr.
        destruct (Pages.file_text disk decoded_path) as [c|] eqn:Ef.
        -- split.
           ++ intros [= <- <- <-]. rewrite E2, Ef. auto.
           ++ intros ([->|[_ ->]] & Ht & Hc2 & ->).
              ** rewrite E1 in Ht. discriminate Ht.
              ** rewrite Ef in Hc2. now injection Hc2 as ->.
        -- split; [discriminate|].
           intros ([->|[_ ->]] & Ht & Hc2 & _).
           ++ rewrite E1 in Ht. discriminate Ht.
           ++ rewrite Ef in Hc2. discriminate Hc2.
      * split; [discriminate|].
        intros ([->|[_ ->]] & Ht & _).
        -- rewrite E1 in Ht. discriminate Ht.
        -- rewrite E2 in Ht. discriminate Ht.
  - intros code body. rewrite Hv. unfold chosen.
    destruct (is_text full_path) eqn:E1.
    + rewrite Hr. destruct (Pages.file_text disk full_path) eqn:Ef;
        [discriminate|].
      intros [= <- _]. right. split; [reflexivity|]. exists full_path. auto.
    + destruct (is_text decoded_path) eqn:E2.
      * rewrite Hr. destruct (Pages.file_text disk decoded_path) eqn:Ef;
          [discriminate|].
        intros [= <- _]. right. split; [reflexivity|].
        exists decoded_path. auto.
      * intros [= <- _]. left. auto.
  - rewrite Hv.
    destruct (is_text full_path) eqn:E1.
    + rewrite Hr. split; [|intros [H _]; discriminate H].
      destruct (Pages.file_text disk full_path); discriminate.
    + destruct (is_text decoded_path) eqn:E2.
      * rewrite Hr. split; [|intros [_ H]; discriminate H].
        destruct (Pages.file_text disk decoded_path); discriminate.
      * split; auto.
  - rewrite Hv. unfold Pages.view_file. rewrite Hfull. reflexivity.
Qed.

Lemma view_file_answers_witness :
  Pages.view_file Props.site_photo (Py.lit "/data/TEXT/007/DOC1.txt")
  = Pages.view_file Props.site_photo (Py.lit "data/TEXT/007/DOC1.txt").
Proof.
  exact (proj2 (proj2 (proj2
           (view_file_answers Props.site_photo
              (Py.lit "data/TEXT/007/DOC1.txt"))))).
Defined.
